(** * Smart City sensor analytics: aggregation pipelines and dashboard KPIs

    A shallow embedding of [analytics/analysis.py] and of the KPI and chart
    pipelines of [dashboard/app.py].  The Python code builds MongoDB
    aggregation pipelines and hands them to [coll.aggregate]; here every
    pipeline stage is a Rocq function on lists of documents and a pipeline
    is the composition of its stages, in the order the source lists them.

    Numbers: the sensor fields are integers; [$avg] and [$round] are taken
    over exact rationals ([Q]).  The store computes both in binary
    floating point, so a row's number is the store's only where that
    arithmetic is exact, as it is on the small integers of the examples;
    the theorems are about which readings enter an average, which rows
    exist and how rows compare, not about the store's rounding.
    Unknowns of the store are parameters: the string-to-date conversion
    behind [$toDate], and the order in which [$group] emits its groups. *)

From Stdlib Require Import List String Ascii ZArith QArith Bool Lia.
From Stdlib Require Import Permutation Sorted.
Import ListNotations.

Local Open Scope Z_scope.

(** ** Data model *)

(** One stored sensor document.  The three measurements may be absent from
    a document; [area] and [timestamp] are always strings. *)
Record document := mk_document {
  _id : N;
  sensor_id : string;
  area : string;
  timestamp : string;
  noise_db : option Z;
  traffic_count : option Z;
  pm25 : option Z
}.

(** What [coll.aggregate] raises instead of returning rows. *)
Inductive error :=
| ConversionFailure (input : string).

Inductive result (A : Type) :=
| Ok (a : A)
| Raise (e : error).

Arguments Ok {A} a.
Arguments Raise {A} e.

Definition bind {A B} (m : result A) (k : A -> result B) : result B :=
  match m with
  | Ok a => k a
  | Raise e => Raise e
  end.

Definition fmap {A B} (f : A -> B) (m : result A) : result B :=
  bind m (fun a => Ok (f a)).

Notation "x <- m ;; k" := (bind m (fun x => k))
  (at level 61, m at next level, right associativity).

Fixpoint mapM {A B} (f : A -> result B) (l : list A) : result (list B) :=
  match l with
  | [] => Ok []
  | x :: t => y <- f x ;; ys <- mapM f t ;; Ok (y :: ys)
  end.

(** ** Filter documents (the argument of [$match]) *)

Inductive field := F_noise_db | F_traffic_count | F_pm25.

Definition get (f : field) (d : document) : option Z :=
  match f with
  | F_noise_db => noise_db d
  | F_traffic_count => traffic_count d
  | F_pm25 => pm25 d
  end.

(** One entry of a filter document. *)
#[warnings="-register-all"]
Inductive cond :=
| Gt (f : field) (c : Z)          (* {f: {"$gt": c}} *)
| In_area (vs : list string)      (* {"area": {"$in": vs}} *)
| Or (cs : list cond).            (* {"$or": [...]} *)

(** A filter document is the conjunction of its entries; [[]] is [{}]. *)
Definition query := list cond.

Fixpoint eval_cond (c : cond) (d : document) : bool :=
  match c with
  | Gt f c =>
      match get f d with
      | Some v => c <? v
      | None => false
      end
  | In_area vs => existsb (String.eqb (area d)) vs
  | Or cs => existsb (fun c' => eval_cond c' d) cs
  end.

Definition eval_query (q : query) (d : document) : bool :=
  forallb (fun c => eval_cond c d) q.

(** ** Numbers: [$avg] and [$round] *)

(** The running state of one [$avg] accumulator. *)
Record avg_state := mk_avg { total : Z; cnt : nat }.

Definition avg_init : avg_state := mk_avg 0 0.

(** A missing value leaves the accumulator as it is. *)
Definition avg_add (v : option Z) (s : avg_state) : avg_state :=
  match v with
  | Some z => mk_avg (total s + z) (S (cnt s))
  | None => s
  end.

(** [None] is the store's null: no numeric value was seen. *)
Definition avg_final (s : avg_state) : option Q :=
  match cnt s with
  | O => None
  | S _ => Some (Qmake (total s) (Pos.of_nat (cnt s)))
  end.

(** The integer nearest to [q], a tie going to the even neighbour. *)
Definition round_half_even (q : Q) : Z :=
  let n := Qnum q in
  let d := Zpos (Qden q) in
  let f := n / d in
  let r := n mod d in
  if 2 * r <? d then f
  else if d <? 2 * r then f + 1
  else if Z.even f then f else f + 1.

(** [{"$round": [x, places]}]; null stays null. *)
Definition round_ (x : option Q) (places : nat) : option Q :=
  match x with
  | None => None
  | Some q =>
      let s := 10 ^ Z.of_nat places in
      Some (Qmake (round_half_even (Qmult q (inject_Z s))) (Z.to_pos s))
  end.

(** The store's order on values of one field: null sorts below numbers. *)
Definition value_leb (a b : option Q) : bool :=
  match a, b with
  | None, _ => true
  | Some _, None => false
  | Some x, Some y => Qle_bool x y
  end.

(** ** Rows produced by the pipelines *)

(** [{key: k, metric: m}]: the source names the key [area] or [hour] and
    the metric [avg_pm25], [avg_noise] or [avg_traffic]. *)
Record agg_row (K : Type) := mk_row { row_key : K; row_avg : option Q }.

Arguments mk_row {K} row_key row_avg.
Arguments row_key {K} a.
Arguments row_avg {K} a.

(** A document without its [_id]. *)
Record reading := mk_reading {
  r_sensor_id : string;
  r_area : string;
  r_timestamp : string;
  r_noise_db : option Z;
  r_traffic_count : option Z;
  r_pm25 : option Z
}.

(** ** Pipeline stages *)

(** [{"$match": q}] *)
Definition match_ (q : query) (docs : list document) : list document :=
  filter (eval_query q) docs.

(** The [$project] stage of the abnormal listings: [_id] off, the six
    sensor fields on. *)
Definition project_reading (d : document) : reading :=
  mk_reading (sensor_id d) (area d) (timestamp d)
             (noise_db d) (traffic_count d) (pm25 d).

(** Insertion into a list sorted by [le]; an element goes before the first
    one it is not above, so equal keys keep their input order. *)
Fixpoint insert {A} (le : A -> A -> bool) (x : A) (l : list A) : list A :=
  match l with
  | [] => [x]
  | y :: t => if le x y then x :: l else y :: insert le x t
  end.

(** [{"$sort": ...}] *)
Definition sort_ {A} (le : A -> A -> bool) (l : list A) : list A :=
  fold_right (insert le) [] l.

(** [{"$limit": n}] *)
Definition limit {A} (n : nat) (l : list A) : list A := firstn n l.

(** [{"$count": "count"}]: no output document on empty input. *)
Definition count_ {A} (l : list A) : list Z :=
  match l with
  | [] => []
  | _ :: _ => [Z.of_nat (List.length l)]
  end.

(** [{"$hour": ts}] for a date in milliseconds since the epoch. *)
Definition hour (ms : Z) : Z := (ms / 3600000) mod 24.

(** The accumulator table of a [$group] stage with one [$avg] field: a
    document joins the group of its key, a new key opens a group. *)
Fixpoint upsert {K} (eqb : K -> K -> bool) (k : K) (v : option Z)
         (tbl : list (K * avg_state)) : list (K * avg_state) :=
  match tbl with
  | [] => [(k, avg_add v avg_init)]
  | (k', s) :: rest =>
      if eqb k k' then (k', avg_add v s) :: rest
      else (k', s) :: upsert eqb k v rest
  end.

Definition accumulate {D K} (eqb : K -> K -> bool) (key : D -> K)
           (val : D -> option Z) (docs : list D) : list (K * avg_state) :=
  fold_left (fun tbl d => upsert eqb (key d) (val d) tbl) docs [].

(** [{"$project": {"_id": 0, key: "$_id", metric: {"$round": ["$avg", 2]}}}] *)
Definition project_round {K} (g : K * option Q) : agg_row K :=
  mk_row (fst g) (round_ (snd g) 2).

Definition by_key_asc {K} (leb : K -> K -> bool) (a b : agg_row K) : bool :=
  leb (row_key a) (row_key b).

Definition by_avg_desc {K} (a b : agg_row K) : bool :=
  value_leb (row_avg b) (row_avg a).

Definition by_timestamp_asc (a b : reading) : bool :=
  String.leb (r_timestamp a) (r_timestamp b).

Definition unit_eqb (a b : unit) : bool := true.

(** ** Stages whose outcome depends on the store *)

Section Store.

(** [$toDate] on a string: the date in milliseconds since the epoch, or
    [None] when the store cannot convert the string. *)
Variable toDate : string -> option Z.

(** The order in which [$group] emits the groups it has built. *)
Variable arrange : forall A : Type, list A -> list A.

Definition to_date (s : string) : result Z :=
  match toDate s with
  | Some ms => Ok ms
  | None => Raise (ConversionFailure s)
  end.

(** [{"$addFields": {"ts": {"$toDate": "$timestamp"}}}]: a conversion
    that fails fails the stage. *)
Definition addFields_ts (docs : list document)
  : result (list (document * Z)) :=
  mapM (fun d => ts <- to_date (timestamp d) ;; Ok (d, ts)) docs.

(** [{"$group": {"_id": key, "avg": {"$avg": val}}}] *)
Definition group_avg {D K} (eqb : K -> K -> bool) (key : D -> K)
           (val : D -> option Z) (docs : list D) : list (K * option Q) :=
  arrange _ (map (fun g => (fst g, avg_final (snd g)))
                 (accumulate eqb key val docs)).

End Store.

(** The three threshold tests shared by every abnormal pipeline. *)
Definition abnormal_or : cond :=
  Or [Gt F_noise_db 85; Gt F_traffic_count 150; Gt F_pm25 100].

(** ** Python's [str.strip] *)

(** A string is the UTF-8 bytes of a Python [str].  The characters
    [str.strip] takes for white space are U+0009..U+000D, U+001C..U+0020,
    U+0085, U+00A0, U+1680, U+2000..U+200A, U+2028, U+2029, U+202F, U+205F
    and U+3000: one, two or three bytes each. *)
Definition is_space1 (c : ascii) : bool :=
  let n := N_of_ascii c in
  ((9 <=? n) && (n <=? 13) || (28 <=? n) && (n <=? 32))%N.

Definition is_space2 (c1 c2 : ascii) : bool :=
  ((N_of_ascii c1 =? 194)
   && ((N_of_ascii c2 =? 133) || (N_of_ascii c2 =? 160)))%N.

Definition is_space3 (c1 c2 c3 : ascii) : bool :=
  let n2 := N_of_ascii c2 in
  let n3 := N_of_ascii c3 in
  match N_of_ascii c1 with
  | 225 => (n2 =? 154) && (n3 =? 128)
  | 226 => (n2 =? 128)
           && ((128 <=? n3) && (n3 <=? 138)
               || (n3 =? 168) || (n3 =? 169) || (n3 =? 175))
           || (n2 =? 129) && (n3 =? 159)
  | 227 => (n2 =? 128) && (n3 =? 128)
  | _ => false
  end%N.

(** [s] without its first character, when that is white space. *)
Definition space_prefix (s : string) : option string :=
  match s with
  | String c1 t1 =>
      if is_space1 c1 then Some t1
      else match t1 with
           | String c2 t2 =>
               if is_space2 c1 c2 then Some t2
               else match t2 with
                    | String c3 t3 =>
                        if is_space3 c1 c2 c3 then Some t3 else None
                    | EmptyString => None
                    end
           | EmptyString => None
           end
  | EmptyString => None
  end.

(** [s.lstrip()] *)
Fixpoint lstrip (s : string) : string :=
  match s with
  | String c1 t1 =>
      if is_space1 c1 then lstrip t1
      else match t1 with
           | String c2 t2 =>
               if is_space2 c1 c2 then lstrip t2
               else match t2 with
                    | String c3 t3 =>
                        if is_space3 c1 c2 c3 then lstrip t3 else s
                    | EmptyString => s
                    end
           | EmptyString => s
           end
  | EmptyString => EmptyString
  end.

(** Nothing but white space. *)
Definition blank (s : string) : bool :=
  match lstrip s with
  | EmptyString => true
  | String _ _ => false
  end.

(** [s.rstrip()]: cut where only white space follows. *)
Fixpoint rstrip (s : string) : string :=
  match s with
  | EmptyString => EmptyString
  | String c t => if blank s then EmptyString else String c (rstrip t)
  end.

(** [s.strip()] *)
Definition strip (s : string) : string := rstrip (lstrip s).

(** ** analytics/analysis.py *)

Module analysis.

Record analytics := mk_analytics {
  area_avg_pm25 : list (agg_row string);
  traffic_by_hour : list (agg_row Z);
  noise_by_area : list (agg_row string);
  abnormal : list reading
}.

Section Pipelines.

Variable toDate : string -> option Z.
Variable arrange : forall A : Type, list A -> list A.

Definition area_wise_avg_pm25 (coll : list document)
  : list (agg_row string) :=
  sort_ (by_key_asc String.leb)
    (map project_round
      (group_avg arrange String.eqb area pm25 coll)).

Definition traffic_density_by_hour (coll : list document)
  : result (list (agg_row Z)) :=
  docs <- addFields_ts toDate coll ;;
  Ok (sort_ (by_key_asc Z.leb)
       (map project_round
         (group_avg arrange Z.eqb
            (fun d : document * Z => hour (snd d))
            (fun d : document * Z => traffic_count (fst d)) docs))).

Definition avg_noise_by_area (coll : list document)
  : list (agg_row string) :=
  sort_ (by_key_asc String.leb)
    (map project_round
      (group_avg arrange String.eqb area noise_db coll)).

Definition abnormal_readings (coll : list document) : list reading :=
  limit 1000
    (sort_ by_timestamp_asc
      (map project_reading
        (match_ [abnormal_or] coll))).

Definition all_analytics (coll : list document) : result analytics :=
  let a := area_wise_avg_pm25 coll in
  t <- traffic_density_by_hour coll ;;
  let n := avg_noise_by_area coll in
  let ab := abnormal_readings coll in
  Ok (mk_analytics a t n ab).

End Pipelines.

End analysis.

(** ** dashboard/app.py *)

Module app.

(** Everything one run of the script computes from the store. *)
Record dashboard := mk_dashboard {
  avg_pm : option Q;
  worst : option string * option Q;
  peak : result (option Z * option Q);
  noisiest : option string * option Q;
  abnormal_cnt : Z;
  d_area_pm : list (agg_row string);
  d_noise_by_area : list (agg_row string);
  d_traffic_by_hour : result (list (agg_row Z));
  d_abnormal : list reading
}.

Section Script.

Variable toDate : string -> option Z.
Variable arrange : forall A : Type, list A -> list A.

(** The module-level [coll] and the sidebar's [selected_areas]. *)
Variable coll : list document.
Variable selected_areas : list string.

(** The body of [_get_distinct_areas]; the script calls it through
    [st.cache_data(ttl=60)], see [cached_distinct_areas]. *)
Definition _get_distinct_areas : list string :=
  sort_ String.leb (nodup string_dec (map area coll)).

Definition filter_query : query :=
  match selected_areas with
  | [] => []
  | _ :: _ => [In_area selected_areas]
  end.

(** A list of zero or one [$match] stage, as the function it applies. *)
Definition _match_filter (base_query : query)
  : list document -> list document :=
  match base_query with
  | [] => fun docs => docs
  | _ :: _ => match_ base_query
  end.

Definition get_avg_pm25 : option Q :=
  let res :=
    map project_round
      (group_avg arrange unit_eqb (fun _ : document => tt) pm25
        (_match_filter filter_query coll)) in
  match res with
  | r :: _ => row_avg r
  | [] => None
  end.

Definition get_worst_pollution_area : option string * option Q :=
  let res :=
    limit 1
      (sort_ by_avg_desc
        (map project_round
          (group_avg arrange String.eqb area pm25
            (_match_filter filter_query coll)))) in
  match res with
  | r :: _ => (Some (row_key r), row_avg r)
  | [] => (None, None)
  end.

Definition get_peak_traffic_hour : result (option Z * option Q) :=
  docs <- addFields_ts toDate (_match_filter filter_query coll) ;;
  let res :=
    limit 1
      (sort_ by_avg_desc
        (map project_round
          (group_avg arrange Z.eqb
             (fun d : document * Z => hour (snd d))
             (fun d : document * Z => traffic_count (fst d)) docs))) in
  Ok match res with
     | r :: _ => (Some (row_key r), row_avg r)
     | [] => (None, None)
     end.

Definition get_noisiest_area : option string * option Q :=
  let res :=
    limit 1
      (sort_ by_avg_desc
        (map project_round
          (group_avg arrange String.eqb area noise_db
            (_match_filter filter_query coll)))) in
  match res with
  | r :: _ => (Some (row_key r), row_avg r)
  | [] => (None, None)
  end.

Definition get_abnormal_count : Z :=
  let match_doc :=
    match filter_query with
    | [] => [abnormal_or]
    | _ :: _ => [abnormal_or] ++ filter_query
    end in
  let res := count_ (match_ match_doc coll) in
  match res with
  | c :: _ => c
  | [] => 0
  end.

Definition area_pm : list (agg_row string) :=
  map project_round
    (group_avg arrange String.eqb area pm25
      (match_ filter_query coll)).

Definition noise_by_area : list (agg_row string) :=
  map project_round
    (group_avg arrange String.eqb area noise_db
      (match_ filter_query coll)).

Definition traffic_by_hour : result (list (agg_row Z)) :=
  docs <- addFields_ts toDate (match_ filter_query coll) ;;
  Ok (map project_round
       (group_avg arrange Z.eqb
          (fun d : document * Z => hour (snd d))
          (fun d : document * Z => traffic_count (fst d)) docs)).

Definition abnormal : list reading :=
  limit 1000
    (sort_ by_timestamp_asc
      (map project_reading
        (match_ ([abnormal_or] ++ filter_query) coll))).

Definition refresh : dashboard :=
  mk_dashboard get_avg_pm25 get_worst_pollution_area
    get_peak_traffic_hour get_noisiest_area get_abnormal_count
    area_pm noise_by_area traffic_by_hour abnormal.

End Script.

(** *** The tables the script shows *)

(** The keys of a listing row, in the order the documents are written
    with ([generate_sensor_data.py], the entry form), which the
    projection keeps; a field the document lacks is not in the row. *)
Definition keys (row : reading) : list string :=
  List.app ["sensor_id"; "area"; "timestamp"]%string
    (List.app
       (match r_noise_db row with Some _ => ["noise_db"%string] | None => [] end)
       (List.app
          (match r_traffic_count row with
           | Some _ => ["traffic_count"%string]
           | None => []
           end)
          (match r_pm25 row with Some _ => ["pm25"%string] | None => [] end))).

(** The columns of [pd.DataFrame(rows)]: the keys of the rows, each where
    it first appears. *)
Definition frame_columns (rows : list reading) : list string :=
  fold_left
    (fun cols row =>
       List.app cols
         (filter (fun k => negb (existsb (String.eqb k) cols)) (keys row)))
    rows [].

(** [row[col]] for a numeric column; [None] is pandas' NaN. *)
Definition number_in (col : string) (row : reading) : option Z :=
  if String.eqb col "noise_db" then r_noise_db row
  else if String.eqb col "traffic_count" then r_traffic_count row
  else if String.eqb col "pm25" then r_pm25 row
  else None.

(** [val > k]; a comparison with NaN is false. *)
Definition exceeds (val : option Z) (k : Z) : bool :=
  match val with
  | Some v => k <? v
  | None => false
  end.

(** [index] is [row.index], the columns of the frame the row is in. *)
Definition _style (index : list string) (row : reading) : list string :=
  map (fun col =>
         let val := number_in col row in
         if String.eqb col "pm25" && exceeds val 100
         then "background-color: #ffcccc"
         else if String.eqb col "noise_db" && exceeds val 85
         then "background-color: #ffe0e0"
         else if String.eqb col "traffic_count" && exceeds val 150
         then "background-color: #ffe0e0"
         else "")%string
      index.

(** [how="left"] merge of the 24 hours with the hourly rows on [hour],
    then [fillna({"avg_traffic": 0})]: an hour without a row, or with a
    null average, shows 0. *)
Definition df_tr_full (rows : list (agg_row Z)) : list (Z * Q) :=
  flat_map (fun h =>
              match filter (fun r => row_key r =? h) rows with
              | [] => [(h, inject_Z 0)]
              | r :: rs =>
                  map (fun r' => (h, match row_avg r' with
                                     | Some q => q
                                     | None => inject_Z 0
                                     end))
                      (r :: rs)
              end)
           (map Z.of_nat (seq 0 24)).

Definition by_timestamp_desc (a b : document) : bool :=
  String.leb (timestamp b) (timestamp a).

Section Tables.

Variable toDate : string -> option Z.
Variable arrange : forall A : Type, list A -> list A.
Variable coll : list document.
Variable selected_areas : list string.

(** The abnormal table, where the script reaches it: after the KPI row
    and the traffic chart, whose hourly pipelines may raise.  It is shown
    when the listing is not empty. *)
Definition df_ab : result (option (list reading)) :=
  _ <- get_peak_traffic_hour toDate arrange coll selected_areas ;;
  _ <- traffic_by_hour toDate arrange coll selected_areas ;;
  Ok match abnormal coll selected_areas with
     | [] => None
     | r :: rs => Some (firstn 20 (r :: rs))
     end.

(** The traffic chart's table: shown when the hourly result is not
    empty. *)
Definition traffic_chart : result (option (list (Z * Q))) :=
  rows <- traffic_by_hour toDate arrange coll selected_areas ;;
  Ok match rows with
     | [] => None
     | r :: rs => Some (df_tr_full (r :: rs))
     end.

(** "Recent Inserts (last 10)": sorted and cut before the projection, and
    not filtered by area. *)
Definition recent_docs : list reading :=
  map project_reading (limit 10 (sort_ by_timestamp_desc coll)).

End Tables.

(** *** Manual data entry *)

(** One digit, and zero-padded fields in front of the rest of a string. *)
Definition dchar (n : Z) : ascii := ascii_of_N (Z.to_N (48 + n)).

Definition pad2 (n : Z) (rest : string) : string :=
  String (dchar (n / 10)) (String (dchar (n mod 10)) rest).

Definition pad4 (n : Z) (rest : string) : string :=
  String (dchar (n / 1000)) (String (dchar (n / 100 mod 10))
    (pad2 (n mod 100) rest)).

(** [datetime.combine(date, time).isoformat(timespec="minutes")] *)
Definition isoformat_minutes (y m d hh mm : Z) : string :=
  pad4 y (String "-" (pad2 m (String "-" (pad2 d (String "T"
    (pad2 hh (String ":" (pad2 mm ""))))))))%string.

Definition type_new : string := "-- type new --".

(** What the form holds when it is submitted. *)
Record form := mk_form {
  area_choice : string;
  new_area_input : string;
  sensor_id_input : string;
  ts_date : Z * Z * Z;
  ts_time : Z * Z;
  noise_val : Z;
  traffic_val : Z;
  pm25_val : Z
}.

(** The collection and the cached list of areas ([st.cache_data], one
    entry, with the time it was computed). *)
Record session := mk_session {
  s_coll : list document;
  s_areas_cache : option (Z * list string)
}.

(** [_get_distinct_areas(coll)] through its cache with [ttl=60]. *)
Definition cached_distinct_areas (now : Z) (s : session)
  : list string * session :=
  match s_areas_cache s with
  | Some (t, v) =>
      if now <? t + 60 then (v, s)
      else let v' := _get_distinct_areas (s_coll s) in
           (v', mk_session (s_coll s) (Some (now, v')))
  | None =>
      let v' := _get_distinct_areas (s_coll s) in
      (v', mk_session (s_coll s) (Some (now, v')))
  end.

Definition insert_doc (fresh_id : N) (fresh_uuid : string) (f : form)
  : document :=
  let new_area :=
    if String.eqb (area_choice f) type_new then new_area_input f
    else EmptyString in
  let '(y, m, d) := ts_date f in
  let '(hh, mm) := ts_time f in
  mk_document fresh_id
    (match strip (sensor_id_input f) with
     | EmptyString => fresh_uuid
     | sid => sid
     end)
    (if String.eqb (area_choice f) type_new then strip new_area
     else area_choice f)
    (isoformat_minutes y m d hh mm)
    (Some (noise_val f)) (Some (traffic_val f)) (Some (pm25_val f)).

Inductive feedback := Inserted (doc : document) | AreaRequired.

(** The [if submitted:] block. *)
Definition submit (fresh_id : N) (fresh_uuid : string) (f : form)
           (s : session) : feedback * session :=
  let doc := insert_doc fresh_id fresh_uuid f in
  match area doc with
  | EmptyString => (AreaRequired, s)
  | String _ _ => (Inserted doc, mk_session (s_coll s ++ [doc]) None)
  end.

End app.

(** ** db/mongo_setup.py and db/append_city_data.py *)

(** How a run of a loader ends. *)
Inductive exception :=
| FileNotFoundError
| JSONDecodeError (line : string).

Inductive ending :=
| Completed (inserted : nat)   (* the final message is printed *)
| Failed                       (* PyMongoError caught by the [except] *)
| Uncaught (e : exception).    (* the exception leaves the function *)

Section Loading.

(** A decoded JSON document; [json.loads], [None] for a line it rejects. *)
Variable J : Type.
Variable loads : string -> option J.

(** Whether the server takes a document, given what the collection
    holds. *)
Variable accepts : list J -> J -> bool.

(** The collection, its secondary indexes, and the arguments of the
    [insert_many] calls the server has received. *)
Record database := mk_database {
  db_docs : list J;
  db_indexes : list string;
  db_calls : list (list J)
}.

(** An ordered bulk insert: documents go in one by one and the first
    one refused stops the insert. *)
Fixpoint insert_ordered (batch : list J) (stored : list J)
  : list J * bool :=
  match batch with
  | [] => (stored, true)
  | d :: rest =>
      if accepts stored d then insert_ordered rest (stored ++ [d])
      else (stored, false)
  end.

(** [coll.insert_many(batch)]; [false] stands for the PyMongoError. *)
Definition insert_many (batch : list J) (db : database)
  : database * bool :=
  let (stored, ok) := insert_ordered batch (db_docs db) in
  (mk_database stored (db_indexes db) (db_calls db ++ [batch]), ok).

(** [coll.create_index(field)] *)
Definition create_index (field : string) (db : database) : database :=
  let name := (field ++ "_1")%string in
  if existsb (String.eqb name) (db_indexes db) then db
  else mk_database (db_docs db) (db_indexes db ++ [name]) (db_calls db).

(** [coll.drop()] *)
Definition drop (db : database) : database :=
  mk_database [] [] (db_calls db).

(** The [for doc in load_json_lines(path)] loop of both loaders, the
    generator run in step with the loop body: a line is stripped, skipped
    when blank, decoded, buffered, and the buffer is sent when it holds
    1000 documents. *)
Fixpoint load_loop (lines : list string) (buffer : list J)
         (inserted : nat) (db : database)
  : database * (exception + option (list J * nat)) :=
  match lines with
  | [] => (db, inr (Some (buffer, inserted)))
  | line :: rest =>
      match strip line with
      | EmptyString => load_loop rest buffer inserted db
      | String c l =>
          match loads (String c l) with
          | None => (db, inl (JSONDecodeError (String c l)))
          | Some doc =>
              let buffer := buffer ++ [doc] in
              if (1000 <=? List.length buffer)%nat then
                match insert_many buffer db with
                | (db', true) =>
                    load_loop rest [] (inserted + List.length buffer)%nat db'
                | (db', false) => (db', inr None)
                end
              else load_loop rest buffer inserted db
          end
      end
  end.

(** The body of the [try]: the loop, then the last, partial buffer.
    [inr None] is the caught PyMongoError. *)
Definition load_in_batches (lines : list string) (db : database)
  : database * (exception + option nat) :=
  match load_loop lines [] 0 db with
  | (db', inl e) => (db', inl e)
  | (db', inr None) => (db', inr None)
  | (db', inr (Some (buffer, inserted))) =>
      match buffer with
      | [] => (db', inr (Some inserted))
      | _ :: _ =>
          match insert_many buffer db' with
          | (db'', true) =>
              (db'', inr (Some (inserted + List.length buffer)%nat))
          | (db'', false) => (db'', inr None)
          end
      end
  end.

End Loading.

Arguments mk_database {J} db_docs db_indexes db_calls.
Arguments db_docs {J} d.
Arguments db_indexes {J} d.
Arguments db_calls {J} d.
Arguments insert_ordered {J} accepts batch stored.
Arguments insert_many {J} accepts batch db.
Arguments create_index {J} field db.
Arguments drop {J} db.
Arguments load_loop {J} loads accepts lines buffer inserted db.
Arguments load_in_batches {J} loads accepts lines db.

Module mongo_setup.

Section Setup.

Variable J : Type.
Variable loads : string -> option J.
Variable accepts : list J -> J -> bool.

(** [file] is the lines of the data file, [None] when it does not
    exist.  [Failed] is [sys.exit(1)]. *)
Definition setup_mongo (file : option (list string)) (batch_size : nat)
           (db : database J) : database J * ending :=
  let db := drop db in
  match file with
  | None => (db, Uncaught FileNotFoundError)
  | Some lines =>
      match load_in_batches loads accepts lines db with
      | (db', inl e) => (db', Uncaught e)
      | (db', inr None) => (db', Failed)
      | (db', inr (Some inserted)) =>
          (create_index "pm25"
             (create_index "noise_db"
                (create_index "traffic_count"
                   (create_index "timestamp"
                      (create_index "area" db')))),
           Completed inserted)
      end
  end.

Definition main (file : option (list string)) (db : database J)
  : database J * ending :=
  match file with
  | None => (db, Uncaught FileNotFoundError)
  | Some _ => setup_mongo file 5000 db
  end.

End Setup.

End mongo_setup.

Module append_city_data.

Section Append.

Variable J : Type.
Variable loads : string -> option J.
Variable accepts : list J -> J -> bool.

Definition ensure_indexes (db : database J) : database J :=
  let existing := db_indexes db in
  let db :=
    if negb (existsb (String.eqb "city_1") existing)
    then create_index "city" db else db in
  if negb (existsb (String.eqb "timestamp_1") existing)
  then create_index "timestamp" db else db.

(** [Failed] is the early [return] of the [except]. *)
Definition append_data (file : option (list string)) (db : database J)
  : database J * ending :=
  match file with
  | None => (db, Uncaught FileNotFoundError)
  | Some lines =>
      match load_in_batches loads accepts lines db with
      | (db', inl e) => (db', Uncaught e)
      | (db', inr None) => (db', Failed)
      | (db', inr (Some inserted)) => (ensure_indexes db', Completed inserted)
      end
  end.

End Append.

End append_city_data.

(** ** A concrete store, for running the pipelines on examples *)

(** Groups leave [$group] in the order their keys were first seen. *)
Definition first_seen : forall A : Type, list A -> list A := fun _ l => l.

(** Groups leave [$group] in the reverse of that order. *)
Definition last_seen : forall A : Type, list A -> list A := fun _ l => rev l.

Definition digit (c : ascii) : option Z :=
  let n := Z.of_N (N_of_ascii c) in
  if (48 <=? n) && (n <=? 57) then Some (n - 48) else None.

Fixpoint number_from (acc : Z) (s : string) : option Z :=
  match s with
  | EmptyString => Some acc
  | String c t =>
      match digit c with
      | Some v => number_from (10 * acc + v) t
      | None => None
      end
  end.

(** A fixed-width decimal field of [s]. *)
Definition number_at (pos len : nat) (s : string) : option Z :=
  let part := substring pos len s in
  if Nat.eqb (String.length part) len then number_from 0 part else None.

Definition char_at (pos : nat) (c : ascii) (s : string) : bool :=
  match String.get pos s with
  | Some c' => Ascii.eqb c c'
  | None => false
  end.

Definition leap (y : Z) : bool :=
  ((y mod 4 =? 0) && negb (y mod 100 =? 0)) || (y mod 400 =? 0).

Definition days_in_month (y m : Z) : Z :=
  if m =? 2 then (if leap y then 29 else 28)
  else if (m =? 4) || (m =? 6) || (m =? 9) || (m =? 11) then 30
  else 31.

(** Days from 1970-01-01 to the given civil date. *)
Definition days_from_civil (y m d : Z) : Z :=
  let y' := if m <=? 2 then y - 1 else y in
  let era := y' / 400 in
  let yoe := y' - era * 400 in
  let mp := if 2 <? m then m - 3 else m + 9 in
  let doy := (153 * mp + 2) / 5 + d - 1 in
  let doe := yoe * 365 + yoe / 4 - yoe / 100 + doy in
  era * 146097 + doe - 719468.

(** A conversion that accepts the two timestamp shapes this repository
    writes, [YYYY-MM-DDTHH:MM] and [YYYY-MM-DDTHH:MM:SS], read as UTC. *)
Definition iso_toDate (s : string) : option Z :=
  let len := String.length s in
  let seconds :=
    if Nat.eqb len 16 then Some 0
    else if Nat.eqb len 19 && char_at 16 ":" s then number_at 17 2 s
    else None in
  match number_at 0 4 s, number_at 5 2 s, number_at 8 2 s,
        number_at 11 2 s, number_at 14 2 s, seconds with
  | Some y, Some m, Some d, Some hh, Some mm, Some ss =>
      if char_at 4 "-" s && char_at 7 "-" s && char_at 10 "T" s
         && char_at 13 ":" s
         && (1 <=? m) && (m <=? 12) && (1 <=? d) && (d <=? days_in_month y m)
         && (hh <=? 23) && (mm <=? 59) && (ss <=? 59)
      then Some ((((days_from_civil y m d * 24 + hh) * 60 + mm) * 60 + ss)
                 * 1000)
      else None
  | _, _, _, _, _, _ => None
  end.

(** Sample documents. *)
Definition sample (i : N) (a ts : string) (n t p : option Z) : document :=
  mk_document i "sensor" a ts n t p.

(** [pm25 = 101] with quiet noise and traffic, and [pm25 = 100]. *)
Definition doc_pm101 : document :=
  sample 1 "Park Area" "2024-03-01T17:45" (Some 10) (Some 10) (Some 101).

Definition doc_pm100 : document :=
  sample 2 "Park Area" "2024-03-01T17:50" (Some 10) (Some 10) (Some 100).

(** A store of 1500 documents, every one above the noise threshold. *)
Definition store_1500 : list document :=
  map (fun i => sample (N.of_nat i) "City Center" "2024-03-01T08:00:00"
                       (Some 90) (Some 80) (Some 60))
      (seq 0 1500).

(** A timestamp no date conversion accepts. *)
Definition doc_bad_ts : document :=
  sample 3 "Park Area" "not-a-date" (Some 10) (Some 10) (Some 10).

Definition doc_a : document :=
  sample 4 "A" "2024-03-01T09:15:00" (Some 40) (Some 20) (Some 10).

Definition doc_b : document :=
  sample 5 "B" "2024-03-01T08:15:00" (Some 60) (Some 30) (Some 20).

(** A document of area A with no [pm25] field. *)
Definition doc_no_pm25 : document :=
  sample 6 "A" "2024-03-01T09:45:00" (Some 50) (Some 160) None.

(** ** Reference definitions used in the statements *)

Definition sum (vs : list Z) : Z := fold_right Z.add 0 vs.

(** The arithmetic mean; [None] when there is nothing to average. *)
Definition mean (vs : list Z) : option Q :=
  match vs with
  | [] => None
  | _ :: _ => Some (Qmake (sum vs) (Pos.of_nat (List.length vs)))
  end.

(** The values [val] takes on the members of group [k], absent ones
    left out. *)
Definition present {D K} (eqb : K -> K -> bool) (key : D -> K)
           (val : D -> option Z) (k : K) (docs : list D) : list Z :=
  flat_map (fun d =>
              if eqb (key d) k
              then match val d with Some z => [z] | None => [] end
              else [])
           docs.

(** The hour [$hour] reads off a document whose timestamp converts. *)
Definition hour_of (toDate : string -> option Z) (d : document) : option Z :=
  option_map hour (toDate (timestamp d)).

(** The traffic counts present among the documents of hour [h]. *)
Definition traffic_in_hour (toDate : string -> option Z) (h : Z)
           (docs : list document) : list Z :=
  flat_map (fun d =>
              match hour_of toDate d with
              | Some h' =>
                  if h' =? h
                  then match traffic_count d with
                       | Some z => [z]
                       | None => []
                       end
                  else []
              | None => []
              end)
           docs.

(** Rows in strictly ascending order of their key. *)
Definition ascending {K} (ltb : K -> K -> bool) (rows : list (agg_row K))
  : Prop :=
  StronglySorted (fun a b => ltb (row_key a) (row_key b) = true) rows.

(** The values [val] takes on all the documents, absent ones left out. *)
Definition present_all {D} (val : D -> option Z) (docs : list D) : list Z :=
  present unit_eqb (fun _ => tt) val tt docs.

(** Year, month, day, hour and minute as one number that grows with
    time. *)
Definition minute_key (y m d hh mm : Z) : Z :=
  (((y * 100 + m) * 100 + d) * 100 + hh) * 100 + mm.

(** The string with the given bytes. *)
Definition utf8 (bytes : list N) : string :=
  string_of_list_ascii (map ascii_of_N bytes).

(** Python's white-space characters, in UTF-8. *)
Definition whitespace : list string :=
  map utf8
      [[9]; [10]; [11]; [12]; [13]; [28]; [29]; [30]; [31]; [32];
       [194; 133]; [194; 160]; [225; 154; 128];
       [226; 128; 128]; [226; 128; 129]; [226; 128; 130]; [226; 128; 131];
       [226; 128; 132]; [226; 128; 133]; [226; 128; 134]; [226; 128; 135];
       [226; 128; 136]; [226; 128; 137]; [226; 128; 138];
       [226; 128; 168]; [226; 128; 169]; [226; 128; 175];
       [226; 129; 159]; [227; 128; 128]]%N.

(** Strings made of white-space characters only. *)
Inductive white : string -> Prop :=
| white_nil : white EmptyString
| white_cons w s : In w whitespace -> white s -> white (w ++ s)%string.

(** The lines a loader decodes: stripped, blank ones left out. *)
Definition payload (lines : list string) : list string :=
  filter (fun l => match l with EmptyString => false | String _ _ => true end)
         (map strip lines).

(** The documents of the lines, when every one of them decodes. *)
Fixpoint decode_all {J} (loads : string -> option J) (ls : list string)
  : option (list J) :=
  match ls with
  | [] => Some []
  | l :: rest =>
      match loads l, decode_all loads rest with
      | Some d, Some ds => Some (d :: ds)
      | _, _ => None
      end
  end.

(** The loaders' loop over documents already decoded. *)
Fixpoint batch_loop {J} (accepts : list J -> J -> bool) (ds : list J)
         (buffer : list J) (inserted : nat) (db : database J)
  : database J * option (list J * nat) :=
  match ds with
  | [] => (db, Some (buffer, inserted))
  | doc :: rest =>
      let buffer := buffer ++ [doc] in
      if (1000 <=? List.length buffer)%nat then
        match insert_many accepts buffer db with
        | (db', true) =>
            batch_loop accepts rest [] (inserted + List.length buffer)%nat db'
        | (db', false) => (db', None)
        end
      else batch_loop accepts rest buffer inserted db
  end.

(** The last, partial buffer. *)
Definition flush {J} (accepts : list J -> J -> bool)
           (r : database J * option (list J * nat))
  : database J * option nat :=
  match r with
  | (db, None) => (db, None)
  | (db, Some ([], inserted)) => (db, Some inserted)
  | (db, Some (buffer, inserted)) =>
      match insert_many accepts buffer db with
      | (db', true) => (db', Some (inserted + List.length buffer)%nat)
      | (db', false) => (db', None)
      end
  end.

(** The abnormal predicate, on the fields a listing row keeps. *)
Definition is_abnormal (r : reading) : bool :=
  match r_noise_db r with Some v => 85 <? v | None => false end
  || match r_traffic_count r with Some v => 150 <? v | None => false end
  || match r_pm25 r with Some v => 100 <? v | None => false end.

(** The population a selection of areas leaves. *)
Definition population (selected_areas : list string)
           (coll : list document) : list document :=
  match selected_areas with
  | [] => coll
  | _ :: _ => filter (fun d => existsb (String.eqb (area d)) selected_areas)
                     coll
  end.

(** The entry of key [k] in an accumulator table. *)
Fixpoint lookup {K} (eqb : K -> K -> bool) (k : K)
         (tbl : list (K * avg_state)) : option avg_state :=
  match tbl with
  | [] => None
  | (k', s) :: rest => if eqb k k' then Some s else lookup eqb k rest
  end.

(** Feeding a run of values to one accumulator. *)
Definition adds (vs : list (option Z)) (s : avg_state) : avg_state :=
  fold_left (fun s v => avg_add v s) vs s.

Definition keyed {D K} (eqb : K -> K -> bool) (key : D -> K)
           (k : K) (docs : list D) : list D :=
  filter (fun d => eqb (key d) k) docs.

(** * Properties of the stages *)

(** ** The sample date conversion *)

Example iso_toDate_epoch : iso_toDate "1970-01-01T00:00:00" = Some 0.
Proof. reflexivity. Qed.

Example iso_toDate_minutes :
  option_map hour (iso_toDate "2024-03-01T17:45") = Some 17.
Proof. reflexivity. Qed.

Example iso_toDate_known_instant :
  iso_toDate "2001-09-09T01:46:40" = Some 1000000000000.
Proof. reflexivity. Qed.

Example iso_toDate_rejects : iso_toDate "not-a-date" = None.
Proof. reflexivity. Qed.

(** ** [$sort] and [$limit] *)

Section Sorting.

Context {A : Type} (le : A -> A -> bool).

Let R (a b : A) : Prop := le a b = true.

Lemma insert_perm x l : Permutation (insert le x l) (x :: l).
Proof.
  induction l as [|y t IH]; simpl.
  - apply Permutation_refl.
  - destruct (le x y).
    + apply Permutation_refl.
    + eapply perm_trans; [apply perm_skip, IH | apply perm_swap].
Qed.

Lemma sort_perm l : Permutation (sort_ le l) l.
Proof.
  induction l as [|x t IH]; simpl.
  - constructor.
  - eapply perm_trans; [apply insert_perm | apply perm_skip, IH].
Qed.

Lemma sort_length l : List.length (sort_ le l) = List.length l.
Proof. apply Permutation_length, sort_perm. Qed.

Lemma sort_In x l : In x (sort_ le l) <-> In x l.
Proof.
  split; apply Permutation_in; [|apply Permutation_sym]; apply sort_perm.
Qed.

Lemma sort_nil_inv l : sort_ le l = [] -> l = [].
Proof.
  intros H. apply Permutation_nil.
  rewrite <- H. apply sort_perm.
Qed.

Hypothesis le_total : forall a b, le a b = true \/ le b a = true.

Lemma insert_sorted x l : Sorted R l -> Sorted R (insert le x l).
Proof.
  induction l as [|y t IH]; simpl; intros Hs.
  - repeat constructor.
  - destruct (le x y) eqn:E.
    + constructor; [assumption | constructor; exact E].
    + inversion Hs as [|? ? Ht Hhd]; subst.
      constructor; [apply IH, Ht|].
      assert (Hyx : R y x).
      { destruct (le_total x y) as [H|H]; [congruence | exact H]. }
      destruct t as [|z t']; simpl.
      * constructor; exact Hyx.
      * destruct (le x z); constructor;
          [exact Hyx | inversion Hhd; assumption].
Qed.

Lemma sort_sorted l : Sorted R (sort_ le l).
Proof.
  induction l as [|x t IH]; simpl.
  - constructor.
  - apply insert_sorted, IH.
Qed.

Hypothesis le_trans :
  forall a b c, le a b = true -> le b c = true -> le a c = true.

Lemma sort_strongly_sorted l : StronglySorted R (sort_ le l).
Proof.
  apply Sorted_StronglySorted; [|apply sort_sorted].
  intros a b c; apply le_trans.
Qed.

End Sorting.

Lemma StronglySorted_app_inv {A} (R : A -> A -> Prop) (l1 l2 : list A) :
  StronglySorted R (l1 ++ l2) ->
  forall a b, In a l1 -> In b l2 -> R a b.
Proof.
  induction l1 as [|x t IH]; simpl; intros Hs a b Ha Hb.
  - contradiction.
  - inversion Hs as [|? ? Ht Hall]; subst.
    destruct Ha as [<-|Ha].
    + rewrite Forall_forall in Hall. apply Hall, in_or_app. now right.
    + now apply IH.
Qed.

Lemma limit_In {A} n (l : list A) x : In x (limit n l) -> In x l.
Proof.
  unfold limit. intros H. rewrite <- (firstn_skipn n l).
  apply in_or_app. now left.
Qed.

Lemma StronglySorted_firstn {A} (R : A -> A -> Prop) n (l : list A) :
  StronglySorted R l -> StronglySorted R (firstn n l).
Proof.
  revert n; induction l as [|x t IH]; intros [|n] Hs; simpl;
    try constructor.
  - apply IH. now inversion Hs.
  - inversion Hs as [|? ? _ Hall]; subst.
    rewrite Forall_forall in *. intros y Hy.
    apply Hall. rewrite <- (firstn_skipn n t). apply in_or_app. now left.
Qed.

(** ** The order on strings and on hours *)

Lemma ascii_compare_lt_trans a b c :
  Ascii.compare a b = Lt -> Ascii.compare b c = Lt -> Ascii.compare a c = Lt.
Proof.
  unfold Ascii.compare. rewrite !N.compare_lt_iff. lia.
Qed.

Lemma string_compare_lt_trans a : forall b c,
  String.compare a b = Lt -> String.compare b c = Lt ->
  String.compare a c = Lt.
Proof.
  induction a as [|x a IH]; intros [|y b] [|z c]; simpl;
    try discriminate; try reflexivity.
  destruct (Ascii.compare x y) eqn:Exy; try discriminate;
    destruct (Ascii.compare y z) eqn:Eyz; try discriminate; intros H1 H2.
  - apply Ascii.compare_eq_iff in Exy, Eyz. subst.
    replace (Ascii.compare z z) with Eq
      by (symmetry; apply N.compare_refl).
    now apply IH with b.
  - apply Ascii.compare_eq_iff in Exy. subst. now rewrite Eyz.
  - apply Ascii.compare_eq_iff in Eyz. subst. now rewrite Exy.
  - now rewrite (ascii_compare_lt_trans _ _ _ Exy Eyz).
Qed.

Lemma string_leb_ltb_or_eq a b :
  String.leb a b = true <-> String.ltb a b = true \/ a = b.
Proof.
  unfold String.leb, String.ltb.
  destruct (String.compare a b) eqn:E; cbn; split; intros H; auto;
    try discriminate.
  - right. now apply String.compare_eq_iff.
  - destruct H as [H|H]; [discriminate H|]. subst.
    pose proof (String.compare_antisym b b) as HA.
    rewrite E in HA. discriminate HA.
Qed.

Lemma string_ltb_trans a b c :
  String.ltb a b = true -> String.ltb b c = true -> String.ltb a c = true.
Proof.
  unfold String.ltb.
  destruct (String.compare a b) eqn:E1; try discriminate.
  destruct (String.compare b c) eqn:E2; try discriminate.
  now rewrite (string_compare_lt_trans _ _ _ E1 E2).
Qed.

Lemma string_leb_trans a b c :
  String.leb a b = true -> String.leb b c = true -> String.leb a c = true.
Proof.
  rewrite !string_leb_ltb_or_eq.
  intros [H1| ->] [H2| ->]; auto.
  left. now apply string_ltb_trans with b.
Qed.

Lemma Z_leb_total a b : (a <=? b) = true \/ (b <=? a) = true.
Proof. rewrite !Z.leb_le. lia. Qed.

Lemma Z_leb_trans a b c :
  (a <=? b) = true -> (b <=? c) = true -> (a <=? c) = true.
Proof. rewrite !Z.leb_le. lia. Qed.

(** ** [$group] with an [$avg] accumulator *)

Lemma adds_present {D K} (eqb : K -> K -> bool) (key : D -> K)
      (val : D -> option Z) (k : K) (docs : list D) : forall s,
  adds (map val (keyed eqb key k docs)) s
  = mk_avg (total s + sum (present eqb key val k docs))
           (cnt s + List.length (present eqb key val k docs)).
Proof.
  unfold adds, keyed.
  induction docs as [|d ds IH]; intros [t c]; simpl.
  - f_equal; lia.
  - destruct (eqb (key d) k); simpl; [|apply IH].
    rewrite IH. destruct (val d) as [z|]; simpl.
    + f_equal; lia.
    + reflexivity.
Qed.

Lemma avg_final_mean (vs : list Z) :
  avg_final (mk_avg (0 + sum vs) (0 + List.length vs)) = mean vs.
Proof. destruct vs; reflexivity. Qed.

Section Grouping.

Context {D K : Type} (eqb : K -> K -> bool).
Context (key : D -> K) (val : D -> option Z).

Hypothesis eqb_eq : forall a b, eqb a b = true <-> a = b.

Let step (tbl : list (K * avg_state)) (d : D) :=
  upsert eqb (key d) (val d) tbl.

Lemma eqb_refl_K a : eqb a a = true.
Proof. now apply eqb_eq. Qed.

Lemma lookup_upsert k k' v tbl :
  lookup eqb k (upsert eqb k' v tbl)
  = if eqb k k'
    then Some (avg_add v match lookup eqb k' tbl with
                         | Some s => s
                         | None => avg_init
                         end)
    else lookup eqb k tbl.
Proof.
  induction tbl as [|[k0 s0] rest IH]; simpl.
  - destruct (eqb k k'); reflexivity.
  - destruct (eqb k' k0) eqn:E0; simpl.
    + apply eqb_eq in E0. subst k0.
      destruct (eqb k k'); reflexivity.
    + destruct (eqb k k0) eqn:E1.
      * apply eqb_eq in E1. subst k0.
        destruct (eqb k k') eqn:E2; [|reflexivity].
        apply eqb_eq in E2. subst k'.
        rewrite eqb_refl_K in E0. discriminate.
      * exact IH.
Qed.

Lemma upsert_keys k v tbl :
  map fst (upsert eqb k v tbl)
  = if existsb (eqb k) (map fst tbl) then map fst tbl
    else map fst tbl ++ [k].
Proof.
  induction tbl as [|[k0 s0] rest IH]; simpl.
  - reflexivity.
  - destruct (eqb k k0); simpl; [reflexivity|].
    rewrite IH. now destruct (existsb (eqb k) (map fst rest)).
Qed.

Lemma upsert_NoDup k v tbl :
  NoDup (map fst tbl) -> NoDup (map fst (upsert eqb k v tbl)).
Proof.
  intros Hnd. rewrite upsert_keys.
  destruct (existsb (eqb k) (map fst tbl)) eqn:E; [assumption|].
  apply NoDup_rev in Hnd.
  rewrite <- (rev_involutive (map fst tbl ++ [k])).
  apply NoDup_rev. rewrite rev_app_distr. simpl.
  constructor; [|assumption].
  intros Hin. apply in_rev in Hin.
  assert (existsb (eqb k) (map fst tbl) = true); [|congruence].
  apply existsb_exists. exists k. split; [assumption|apply eqb_refl_K].
Qed.

Lemma lookup_In k s tbl :
  NoDup (map fst tbl) ->
  (In (k, s) tbl <-> lookup eqb k tbl = Some s).
Proof.
  induction tbl as [|[k0 s0] rest IH]; simpl; intros Hnd.
  - split; [contradiction|discriminate].
  - inversion Hnd as [|? ? Hnotin Hnd']; subst.
    destruct (eqb k k0) eqn:E.
    + apply eqb_eq in E. subst k0. split.
      * intros [H|H]; [congruence|].
        exfalso. apply Hnotin. now apply (in_map fst) in H.
      * intros H. left. congruence.
    + rewrite <- (IH Hnd'). split; [|auto].
      intros [H|H]; [|assumption].
      injection H as -> ->. rewrite eqb_refl_K in E. discriminate.
Qed.

Lemma run_NoDup docs : forall tbl,
  NoDup (map fst tbl) -> NoDup (map fst (fold_left step docs tbl)).
Proof.
  induction docs as [|d ds IH]; simpl; intros tbl Hnd; [assumption|].
  apply IH, upsert_NoDup, Hnd.
Qed.

Lemma lookup_run k docs : forall tbl,
  lookup eqb k (fold_left step docs tbl)
  = match lookup eqb k tbl with
    | Some s0 => Some (adds (map val (keyed eqb key k docs)) s0)
    | None =>
        if existsb (fun d => eqb (key d) k) docs
        then Some (adds (map val (keyed eqb key k docs)) avg_init)
        else None
    end.
Proof.
  unfold keyed.
  induction docs as [|d ds IH]; simpl; intros tbl.
  - now destruct (lookup eqb k tbl).
  - rewrite IH. unfold step. rewrite lookup_upsert.
    destruct (eqb (key d) k) eqn:E.
    + apply eqb_eq in E. subst k. rewrite eqb_refl_K. simpl.
      now destruct (lookup eqb (key d) tbl).
    + assert (E' : eqb k (key d) = false).
      { destruct (eqb k (key d)) eqn:E'; [|reflexivity].
        apply eqb_eq in E'. subst k. rewrite eqb_refl_K in E.
        discriminate. }
      rewrite E'. reflexivity.
Qed.

Lemma accumulate_NoDup docs :
  NoDup (map fst (accumulate eqb key val docs)).
Proof. apply run_NoDup. constructor. Qed.

(** The table holds one entry per key that occurs, with the sum and the
    count of the values present in that key's documents. *)
Lemma accumulate_spec k s docs :
  In (k, s) (accumulate eqb key val docs)
  <-> (exists d, In d docs /\ key d = k)
      /\ s = mk_avg (sum (present eqb key val k docs))
                    (List.length (present eqb key val k docs)).
Proof.
  rewrite (lookup_In k s _ (accumulate_NoDup docs)).
  unfold accumulate. fold step. rewrite lookup_run. simpl.
  rewrite adds_present. simpl.
  destruct (existsb (fun d => eqb (key d) k) docs) eqn:E.
  - apply existsb_exists in E. destruct E as [d [Hd Hk]].
    apply eqb_eq in Hk. split.
    + intros H. injection H as <-. split; [|reflexivity].
      now exists d.
    + intros [_ ->]. reflexivity.
  - split; [discriminate|]. intros [[d [Hd Hk]] _]. exfalso.
    assert (existsb (fun d => eqb (key d) k) docs = true); [|congruence].
    apply existsb_exists. exists d. split; [assumption|now apply eqb_eq].
Qed.

Variable arrange : forall A : Type, list A -> list A.
Hypothesis arrange_perm : forall A (l : list A), Permutation (arrange A l) l.

Lemma group_avg_NoDup docs :
  NoDup (map fst (group_avg arrange eqb key val docs)).
Proof.
  unfold group_avg.
  eapply Permutation_NoDup.
  - apply Permutation_sym, Permutation_map, arrange_perm.
  - rewrite map_map. simpl. apply accumulate_NoDup.
Qed.

Lemma group_avg_spec k m docs :
  In (k, m) (group_avg arrange eqb key val docs)
  <-> (exists d, In d docs /\ key d = k)
      /\ m = mean (present eqb key val k docs).
Proof.
  unfold group_avg. split.
  - intros H. apply (Permutation_in _ (arrange_perm _ _)) in H.
    apply in_map_iff in H. destruct H as [[k' s] [Heq Hin]].
    simpl in Heq. injection Heq as -> <-.
    apply accumulate_spec in Hin. destruct Hin as [Hex ->].
    split; [assumption|]. apply (avg_final_mean (present _ _ _ _ _)).
  - intros [Hex ->].
    apply (Permutation_in _ (Permutation_sym (arrange_perm _ _))).
    apply in_map_iff.
    exists (k, mk_avg (sum (present eqb key val k docs))
                      (List.length (present eqb key val k docs))).
    split.
    + simpl. f_equal. apply (avg_final_mean (present _ _ _ _ _)).
    + apply accumulate_spec. now split.
Qed.

Lemma group_avg_nil : group_avg arrange eqb key val [] = [].
Proof.
  unfold group_avg. simpl.
  apply Permutation_nil, Permutation_sym, arrange_perm.
Qed.

(** Rows after [$project] with [$round]. *)
Lemma rows_spec (r : agg_row K) docs :
  In r (map project_round (group_avg arrange eqb key val docs))
  <-> (exists d, In d docs /\ key d = row_key r)
      /\ row_avg r
         = round_ (mean (present eqb key val (row_key r) docs)) 2.
Proof.
  rewrite in_map_iff. split.
  - intros [[k m] [<- Hin]]. simpl.
    apply group_avg_spec in Hin. destruct Hin as [Hex ->]. now split.
  - intros [Hex Havg]. destruct r as [k a]. simpl in *.
    exists (k, mean (present eqb key val k docs)). split.
    + unfold project_round. simpl. now rewrite Havg.
    + apply group_avg_spec. now split.
Qed.

Lemma rows_NoDup docs :
  NoDup (map row_key
           (map project_round (group_avg arrange eqb key val docs))).
Proof.
  rewrite map_map. simpl.
  apply (group_avg_NoDup docs).
Qed.

End Grouping.

(** ** [$addFields] with [$toDate] *)

Section Dates.

Variable toDate : string -> option Z.

Lemma addFields_ts_ok docs :
  (forall d, In d docs -> toDate (timestamp d) <> None) ->
  exists l,
    addFields_ts toDate docs = Ok l
    /\ map fst l = docs
    /\ (forall p, In p l -> toDate (timestamp (fst p)) = Some (snd p)).
Proof.
  unfold addFields_ts.
  induction docs as [|d ds IH]; intros Hall; simpl.
  - exists []. repeat split. intros p [].
  - destruct IH as [l [El [Hm Hp]]].
    { intros d' Hd'. apply Hall. now right. }
    unfold to_date at 1.
    destruct (toDate (timestamp d)) as [ms|] eqn:E.
    + simpl. rewrite El. simpl. exists ((d, ms) :: l).
      split; [reflexivity|]. split; [simpl; now rewrite Hm|].
      intros p [<-|Hin]; [exact E | now apply Hp].
    + exfalso. apply (Hall d); [now left | exact E].
Qed.

Lemma addFields_ts_inv docs l :
  addFields_ts toDate docs = Ok l ->
  map fst l = docs
  /\ (forall p, In p l -> toDate (timestamp (fst p)) = Some (snd p)).
Proof.
  unfold addFields_ts.
  revert l. induction docs as [|d ds IH]; intros l; simpl.
  - intros H. injection H as <-. split; [reflexivity|]. intros p [].
  - unfold to_date at 1.
    destruct (toDate (timestamp d)) as [ms|] eqn:E; simpl;
      [|discriminate].
    destruct (mapM _ ds) as [l'|e] eqn:El; simpl; [|discriminate].
    intros H. injection H as <-.
    destruct (IH l' eq_refl) as [Hm Hp].
    split; [simpl; now rewrite Hm|].
    intros p [<-|Hin]; [exact E | now apply Hp].
Qed.

(** One document whose timestamp does not convert fails the stage. *)
Lemma addFields_ts_raise docs d :
  In d docs -> toDate (timestamp d) = None ->
  exists s,
    addFields_ts toDate docs = Raise (ConversionFailure s)
    /\ toDate s = None.
Proof.
  unfold addFields_ts.
  induction docs as [|d0 ds IH]; simpl; [contradiction|].
  intros Hin Hnone. unfold to_date at 1.
  destruct (toDate (timestamp d0)) as [ms|] eqn:E; simpl.
  - destruct Hin as [->|Hin]; [congruence|].
    destruct (IH Hin Hnone) as [s [Es Hs]].
    exists s. now rewrite Es.
  - exists (timestamp d0). now split.
Qed.

End Dates.

Lemma hour_range ms : 0 <= hour ms < 24.
Proof. unfold hour. apply Z.mod_pos_bound. lia. Qed.

(** ** [$match] and the dashboard's filter *)

Lemma filter_true {A} (l : list A) : filter (fun _ => true) l = l.
Proof. induction l as [|x t IH]; simpl; [|rewrite IH]; reflexivity. Qed.

Lemma filter_filter {A} (p q : A -> bool) (l : list A) :
  filter p (filter q l) = filter (fun x => q x && p x) l.
Proof.
  induction l as [|x t IH]; simpl; [reflexivity|].
  destruct (q x); simpl; [destruct (p x)|]; now rewrite IH.
Qed.

Lemma filter_map_comm {A B} (f : A -> B) (p : B -> bool) (l : list A) :
  map f (filter (fun x => p (f x)) l) = filter p (map f l).
Proof.
  induction l as [|x t IH]; simpl; [reflexivity|].
  destruct (p (f x)); simpl; now rewrite IH.
Qed.

Lemma eval_abnormal d :
  eval_query [abnormal_or] d = is_abnormal (project_reading d).
Proof.
  unfold eval_query, is_abnormal. simpl.
  now rewrite andb_true_r, orb_false_r, orb_assoc.
Qed.

Lemma match_abnormal coll :
  map project_reading (match_ [abnormal_or] coll)
  = filter is_abnormal (map project_reading coll).
Proof.
  unfold match_. rewrite <- filter_map_comm. f_equal.
  apply filter_ext, eval_abnormal.
Qed.

Lemma match_filter_query sel coll :
  match_ (app.filter_query sel) coll = population sel coll.
Proof.
  unfold match_, population, app.filter_query.
  destruct sel as [|a sel']; simpl.
  - apply filter_true.
  - apply filter_ext. intros d. unfold eval_query. simpl.
    now rewrite andb_true_r.
Qed.

Lemma _match_filter_query sel coll :
  app._match_filter (app.filter_query sel) coll = population sel coll.
Proof.
  destruct sel as [|a sel'].
  - reflexivity.
  - apply (match_filter_query (a :: sel')).
Qed.

Lemma match_abnormal_filter_query sel coll :
  match_ ([abnormal_or] ++ app.filter_query sel) coll
  = match_ [abnormal_or] (population sel coll).
Proof.
  rewrite <- match_filter_query. unfold match_. rewrite filter_filter.
  apply filter_ext. intros d. unfold eval_query.
  rewrite forallb_app. apply andb_comm.
Qed.

Lemma population_nil coll : population [] coll = coll.
Proof. reflexivity. Qed.

Lemma population_all sel coll :
  (forall d, In d coll -> In (area d) sel) -> population sel coll = coll.
Proof.
  intros Hall. destruct sel as [|a sel']; [reflexivity|].
  unfold population.
  rewrite <- (filter_true coll) at 2.
  apply filter_ext_in. intros d Hd.
  apply existsb_exists. exists (area d).
  split; [now apply Hall | apply String.eqb_refl].
Qed.

Lemma population_In sel coll d :
  In d (population sel coll)
  <-> In d coll /\ (sel = [] \/ In (area d) sel).
Proof.
  destruct sel as [|a sel']; simpl.
  - intuition.
  - rewrite filter_In. split; intros [Hd H]; (split; [assumption|]).
    + right. apply orb_prop in H. destruct H as [H|H].
      * left. symmetry. now apply String.eqb_eq.
      * right. apply existsb_exists in H. destruct H as [x [Hx E]].
        apply String.eqb_eq in E. now subst.
    + destruct H as [H|[H|H]]; [discriminate| |].
      * subst. now rewrite String.eqb_refl.
      * apply orb_true_intro. right.
        apply existsb_exists. exists (area d).
        split; [assumption | apply String.eqb_refl].
Qed.

(** The dashboard's listing is the module's listing run on the
    population the selection leaves. *)
Lemma abnormal_population coll sel :
  app.abnormal coll sel = analysis.abnormal_readings (population sel coll).
Proof.
  unfold app.abnormal, analysis.abnormal_readings.
  now rewrite match_abnormal_filter_query.
Qed.

Lemma get_abnormal_count_length coll sel :
  app.get_abnormal_count coll sel
  = Z.of_nat (List.length
                (filter is_abnormal
                   (map project_reading (population sel coll)))).
Proof.
  unfold app.get_abnormal_count.
  replace (match app.filter_query sel with
           | [] => [abnormal_or]
           | _ :: _ => [abnormal_or] ++ app.filter_query sel
           end)
    with ([abnormal_or] ++ app.filter_query sel)
    by (now destruct (app.filter_query sel)).
  rewrite match_abnormal_filter_query, <- match_abnormal, length_map.
  unfold count_.
  now destruct (match_ [abnormal_or] (population sel coll)).
Qed.

(** * Properties of the pipelines *)

(** ** Abnormal readings *)

Lemma is_abnormal_iff s a ts (n t p : Z) :
  is_abnormal (mk_reading s a ts (Some n) (Some t) (Some p)) = true
  <-> n > 85 \/ t > 150 \/ p > 100.
Proof.
  unfold is_abnormal. simpl.
  rewrite !orb_true_iff, !Z.ltb_lt. lia.
Qed.

Lemma abnormal_readings_eq coll :
  analysis.abnormal_readings coll
  = limit 1000
      (sort_ by_timestamp_asc
         (filter is_abnormal (map project_reading coll))).
Proof.
  unfold analysis.abnormal_readings. now rewrite match_abnormal.
Qed.

Lemma abnormal_readings_In coll r :
  In r (analysis.abnormal_readings coll) ->
  In r (map project_reading coll) /\ is_abnormal r = true.
Proof.
  rewrite abnormal_readings_eq. intros H.
  apply limit_In, sort_In, filter_In in H. exact H.
Qed.

(** C1. The abnormal listing of [analysis.py], and the dashboard's own on
    the filtered population, is the list of projected readings that meet
    [noise_db > 85] or [traffic_count > 150] or [pm25 > 100], in timestamp
    order and cut at 1000 rows: every row meets the disjunction, no
    reading below all three thresholds is returned, and up to the cut
    every reading that meets it is returned.  The comparisons are strict
    and the constants are 85, 150 and 100: [pm25 = 101] alone puts a
    reading in, [pm25 = 100] does not. *)
Theorem C1_abnormal_is_strict_disjunction
        (coll : list document) (selected_areas : list string) :
  analysis.abnormal_readings coll
  = limit 1000
      (sort_ by_timestamp_asc
         (filter is_abnormal (map project_reading coll)))
  /\ app.abnormal coll selected_areas
     = limit 1000
         (sort_ by_timestamp_asc
            (filter is_abnormal
               (map project_reading (population selected_areas coll))))
  /\ (forall r, In r (analysis.abnormal_readings coll) ->
                In r (map project_reading coll) /\ is_abnormal r = true)
  /\ (forall r, is_abnormal r = false ->
                ~ In r (analysis.abnormal_readings coll))
  /\ ((List.length (filter is_abnormal (map project_reading coll))
       <= 1000)%nat ->
      forall r, In r (analysis.abnormal_readings coll)
                <-> In r (map project_reading coll)
                    /\ is_abnormal r = true)
  /\ (forall s a ts n t p,
         is_abnormal (mk_reading s a ts (Some n) (Some t) (Some p)) = true
         <-> n > 85 \/ t > 150 \/ p > 100)
  /\ analysis.abnormal_readings [doc_pm101; doc_pm100]
     = [project_reading doc_pm101]
  /\ analysis.abnormal_readings [doc_pm100] = [].
Proof.
  split; [apply abnormal_readings_eq|].
  split; [rewrite abnormal_population; apply abnormal_readings_eq|].
  split; [intros r; apply abnormal_readings_In|].
  split.
  { intros r Hr Hin. apply abnormal_readings_In in Hin.
    destruct Hin as [_ Hin]. congruence. }
  split.
  { intros Hlen r. split; [apply abnormal_readings_In|].
    intros [Hin Hab]. rewrite abnormal_readings_eq. unfold limit.
    rewrite firstn_all2.
    - apply sort_In, filter_In. now split.
    - now rewrite sort_length. }
  split; [apply is_abnormal_iff|].
  split; reflexivity.
Qed.

(** C2. The abnormal-count KPI is the number of readings of the filtered
    population that meet the abnormal predicate, without any cap.  The
    listing holds the 1000 of them with the smallest timestamps (all of
    them when there are fewer), in ascending order of the timestamp: it
    has [min 1000 count] rows, each timestamp is below or equal to those
    after it, and every matching reading it leaves out has a timestamp
    that is not below that of any row it keeps.  With 1500 matching
    readings the count is 1500 and the listing has exactly 1000 rows. *)
Theorem C2_count_uncapped_listing_capped
        (coll : list document) (selected_areas : list string) :
  let matching :=
    filter is_abnormal
      (map project_reading (population selected_areas coll)) in
  let listing := app.abnormal coll selected_areas in
  let earlier (a b : reading) :=
    String.leb (r_timestamp a) (r_timestamp b) = true in
  app.get_abnormal_count coll selected_areas
  = Z.of_nat (List.length matching)
  /\ List.length listing = Nat.min 1000 (List.length matching)
  /\ StronglySorted earlier listing
  /\ (exists rest,
         Permutation (listing ++ rest) matching
         /\ forall a b, In a listing -> In b rest -> earlier a b)
  /\ (List.length matching = 1500%nat ->
      app.get_abnormal_count coll selected_areas = 1500
      /\ List.length listing = 1000%nat)
  /\ app.get_abnormal_count store_1500 [] = 1500
  /\ List.length (app.abnormal store_1500 []) = 1000%nat.
Proof.
  intros matching listing earlier.
  assert (Hl : listing = firstn 1000 (sort_ by_timestamp_asc matching)).
  { unfold listing. rewrite abnormal_population. apply abnormal_readings_eq. }
  assert (Hss : StronglySorted earlier (sort_ by_timestamp_asc matching)).
  { apply (sort_strongly_sorted by_timestamp_asc).
    - intros a b. apply String.leb_total.
    - intros a b c. apply string_leb_trans. }
  assert (Hc : app.get_abnormal_count coll selected_areas
               = Z.of_nat (List.length matching)).
  { apply get_abnormal_count_length. }
  assert (Hlen : List.length listing = Nat.min 1000 (List.length matching)).
  { rewrite Hl, length_firstn, sort_length. reflexivity. }
  split; [exact Hc|]. split; [exact Hlen|].
  split; [rewrite Hl; now apply StronglySorted_firstn|].
  split.
  { exists (skipn 1000 (sort_ by_timestamp_asc matching)). split.
    - rewrite Hl, firstn_skipn. apply sort_perm.
    - rewrite Hl. apply StronglySorted_app_inv.
      now rewrite firstn_skipn. }
  split.
  { intros H. rewrite Hc, Hlen, H. split; reflexivity. }
  split.
  - rewrite get_abnormal_count_length. vm_compute. reflexivity.
  - rewrite abnormal_population, abnormal_readings_eq.
    unfold limit. rewrite length_firstn, sort_length.
    vm_compute. reflexivity.
Qed.

(** ** Hourly traffic *)

Section Hourly.

Variable toDate : string -> option Z.
Variable arrange : forall A : Type, list A -> list A.
Hypothesis arrange_perm : forall A (l : list A), Permutation (arrange A l) l.

Let hkey (p : document * Z) : Z := hour (snd p).
Let hval (p : document * Z) : option Z := traffic_count (fst p).

Lemma dated_present h : forall docs l,
  addFields_ts toDate docs = Ok l ->
  present Z.eqb hkey hval h l = traffic_in_hour toDate h docs.
Proof.
  intros docs l H. apply addFields_ts_inv in H. destruct H as [<- Hp].
  unfold present, traffic_in_hour.
  induction l as [|[d ms] l IH]; simpl; [reflexivity|].
  rewrite IH by (intros p Hin; apply Hp; now right).
  pose proof (Hp (d, ms) (or_introl eq_refl)) as E. simpl in E.
  unfold hour_of. rewrite E. reflexivity.
Qed.

Lemma dated_hours h docs l :
  addFields_ts toDate docs = Ok l ->
  (exists p, In p l /\ hkey p = h)
  <-> (exists d, In d docs /\ hour_of toDate d = Some h).
Proof.
  intros H. apply addFields_ts_inv in H. destruct H as [<- Hp].
  unfold hour_of. split.
  - intros [p [Hin Hh]]. exists (fst p).
    split; [now apply in_map|]. rewrite (Hp p Hin). simpl. now f_equal.
  - intros [d [Hin Hh]]. apply in_map_iff in Hin.
    destruct Hin as [p [<- Hin]]. exists p. split; [assumption|].
    rewrite (Hp p Hin) in Hh. simpl in Hh. now injection Hh.
Qed.

Lemma hourly_rows_spec docs l (r : agg_row Z) :
  addFields_ts toDate docs = Ok l ->
  In r (map project_round (group_avg arrange Z.eqb hkey hval l))
  <-> (exists d, In d docs /\ hour_of toDate d = Some (row_key r))
      /\ row_avg r
         = round_ (mean (traffic_in_hour toDate (row_key r) docs)) 2.
Proof.
  intros H.
  rewrite (rows_spec Z.eqb hkey hval Z.eqb_eq arrange arrange_perm).
  now rewrite (dated_hours _ _ _ H), (dated_present _ _ _ H).
Qed.

End Hourly.

(** ** Order of the rows *)

Lemma StronglySorted_strict {A K} (f : A -> K) (R R' : A -> A -> Prop)
      (l : list A) :
  (forall a b, R a b -> f a <> f b -> R' a b) ->
  NoDup (map f l) -> StronglySorted R l -> StronglySorted R' l.
Proof.
  intros Hstrict. induction l as [|x t IH]; simpl; intros Hnd Hs.
  - constructor.
  - inversion Hnd as [|? ? Hnotin Hnd']; subst.
    inversion Hs as [|? ? Hs' Hall]; subst.
    constructor; [now apply IH|].
    rewrite Forall_forall in *. intros y Hy.
    apply Hstrict; [now apply Hall|].
    intros E. apply Hnotin. rewrite E. now apply in_map.
Qed.

Lemma sort_area_ascending (rows : list (agg_row string)) :
  NoDup (map row_key rows) ->
  ascending String.ltb (sort_ (by_key_asc String.leb) rows).
Proof.
  intros Hnd. unfold ascending.
  apply (StronglySorted_strict row_key
           (fun a b => by_key_asc String.leb a b = true)).
  - unfold by_key_asc. intros a b Hle Hne.
    apply string_leb_ltb_or_eq in Hle. now destruct Hle.
  - eapply Permutation_NoDup; [|exact Hnd].
    apply Permutation_map, Permutation_sym, sort_perm.
  - apply sort_strongly_sorted; unfold by_key_asc.
    + intros a b. apply String.leb_total.
    + intros a b c. apply string_leb_trans.
Qed.

Lemma sort_hour_ascending (rows : list (agg_row Z)) :
  NoDup (map row_key rows) ->
  ascending Z.ltb (sort_ (by_key_asc Z.leb) rows).
Proof.
  intros Hnd. unfold ascending.
  apply (StronglySorted_strict row_key
           (fun a b => by_key_asc Z.leb a b = true)).
  - unfold by_key_asc. intros a b Hle Hne.
    apply Z.leb_le in Hle. apply Z.ltb_lt. lia.
  - eapply Permutation_NoDup; [|exact Hnd].
    apply Permutation_map, Permutation_sym, sort_perm.
  - apply sort_strongly_sorted; unfold by_key_asc.
    + intros a b. apply Z_leb_total.
    + intros a b c. apply Z_leb_trans.
Qed.

Lemma sort_keys_NoDup {K} (le : agg_row K -> agg_row K -> bool)
      (rows : list (agg_row K)) :
  NoDup (map row_key rows) -> NoDup (map row_key (sort_ le rows)).
Proof.
  apply Permutation_NoDup, Permutation_map, Permutation_sym, sort_perm.
Qed.

Section Keys.

Context {D K : Type} (eqb : K -> K -> bool).
Context (key : D -> K) (val : D -> option Z).
Hypothesis eqb_eq : forall a b, eqb a b = true <-> a = b.
Variable arrange : forall A : Type, list A -> list A.
Hypothesis arrange_perm : forall A (l : list A), Permutation (arrange A l) l.

(** The keys of the rows are the keys that occur among the documents. *)
Lemma rows_keys k docs :
  In k (map row_key
          (map project_round (group_avg arrange eqb key val docs)))
  <-> exists d, In d docs /\ key d = k.
Proof.
  rewrite in_map_iff. split.
  - intros [r [<- Hin]].
    now apply (rows_spec eqb key val eqb_eq arrange arrange_perm) in Hin.
  - intros Hex.
    exists (mk_row k (round_ (mean (present eqb key val k docs)) 2)).
    split; [reflexivity|].
    apply (rows_spec eqb key val eqb_eq arrange arrange_perm). now split.
Qed.

End Keys.

Lemma hourly_keys toDate arrange docs l h :
  (forall A (l : list A), Permutation (arrange A l) l) ->
  addFields_ts toDate docs = Ok l ->
  In h (map row_key
          (map project_round
             (group_avg arrange Z.eqb
                (fun p : document * Z => hour (snd p))
                (fun p : document * Z => traffic_count (fst p)) l)))
  <-> 0 <= h < 24 /\ exists d, In d docs /\ hour_of toDate d = Some h.
Proof.
  intros Hperm Hl.
  rewrite (rows_keys Z.eqb _ _ Z.eqb_eq arrange Hperm).
  rewrite (dated_hours toDate h docs l Hl).
  split; [|tauto].
  intros Hex. split; [|assumption].
  destruct Hex as [d [_ Hh]]. unfold hour_of in Hh.
  destruct (toDate (timestamp d)); [|discriminate].
  simpl in Hh. injection Hh as <-. apply hour_range.
Qed.

Lemma population_incl sel coll d : In d (population sel coll) -> In d coll.
Proof. intros H. now apply population_In in H. Qed.

(** C3 (as the code has it). A reading whose timestamp the store cannot
    convert, and which passes the active filter, makes the hourly traffic
    aggregation and the peak-traffic-hour KPI raise the store's conversion
    error: no rows are returned, neither for that reading's hour nor for
    the others. *)
Theorem C3_unparsable_timestamp_raises
        (toDate : string -> option Z)
        (arrange : forall A : Type, list A -> list A)
        (coll : list document) (selected_areas : list string)
        (d : document) :
  In d (population selected_areas coll) ->
  toDate (timestamp d) = None ->
  (exists s, toDate s = None
             /\ analysis.traffic_density_by_hour toDate arrange coll
                = Raise (ConversionFailure s))
  /\ (exists s, toDate s = None
                /\ app.traffic_by_hour toDate arrange coll selected_areas
                   = Raise (ConversionFailure s))
  /\ (exists s, toDate s = None
                /\ app.get_peak_traffic_hour toDate arrange coll
                     selected_areas
                   = Raise (ConversionFailure s)).
Proof.
  intros Hin Hnone. repeat split.
  - destruct (addFields_ts_raise toDate coll d
                (population_incl _ _ _ Hin) Hnone) as [s [E Hs]].
    exists s. split; [assumption|].
    unfold analysis.traffic_density_by_hour. now rewrite E.
  - destruct (addFields_ts_raise toDate _ d Hin Hnone) as [s [E Hs]].
    exists s. split; [assumption|].
    unfold app.traffic_by_hour. now rewrite match_filter_query, E.
  - destruct (addFields_ts_raise toDate _ d Hin Hnone) as [s [E Hs]].
    exists s. split; [assumption|].
    unfold app.get_peak_traffic_hour. now rewrite _match_filter_query, E.
Qed.

Lemma C3_unparsable_timestamp_raises_witness :
  In doc_bad_ts (population ["Park Area"%string] [doc_a; doc_pm101; doc_bad_ts])
  /\ iso_toDate (timestamp doc_bad_ts) = None
  /\ exists s,
       iso_toDate s = None
       /\ app.get_peak_traffic_hour iso_toDate first_seen
            [doc_a; doc_pm101; doc_bad_ts] ["Park Area"%string]
          = Raise (ConversionFailure s).
Proof.
  split; [simpl; auto|]. split; [reflexivity|].
  apply (C3_unparsable_timestamp_raises iso_toDate first_seen
           [doc_a; doc_pm101; doc_bad_ts] ["Park Area"%string] doc_bad_ts).
  - simpl. auto.
  - reflexivity.
Defined.

(** C3 fails as the spec words it: with one unconvertible timestamp in the
    store the hourly aggregation and the peak-hour KPI raise, they do not
    return the rows of the remaining readings. *)
Lemma C3_counterexample :
  iso_toDate (timestamp doc_bad_ts) = None
  /\ analysis.traffic_density_by_hour iso_toDate first_seen [doc_pm101]
     = Ok [mk_row 17 (Some (Qmake 1000 100))]
  /\ analysis.traffic_density_by_hour iso_toDate first_seen
       [doc_pm101; doc_bad_ts]
     = Raise (ConversionFailure "not-a-date")
  /\ app.get_peak_traffic_hour iso_toDate first_seen [doc_pm101] []
     = Ok (Some 17, Some (Qmake 1000 100))
  /\ app.get_peak_traffic_hour iso_toDate first_seen
       [doc_pm101; doc_bad_ts] []
     = Raise (ConversionFailure "not-a-date").
Proof. repeat split; reflexivity. Qed.

(** ** One row per key, and the order of the rows *)

(** C4 (as the code has it). The area-keyed results of [analysis.py]
    hold exactly one row per area that occurs in the collection and are
    in ascending order of the area name; its hourly result, when every
    timestamp converts, holds exactly one row per hour (0 to 23) that
    occurs and is in ascending order of the hour.  The dashboard's own
    [area_pm], [noise_by_area] and [traffic_by_hour] hold exactly one row
    per area (hour) that occurs in the filtered population, and no row for
    any other; their pipelines have no [$sort] stage, so the rows come in
    the order the store emits the groups. *)
Theorem C4_one_row_per_key_sorted_in_analysis
        (toDate : string -> option Z)
        (arrange : forall A : Type, list A -> list A)
        (coll : list document) (selected_areas : list string)
        (arrange_perm : forall A (l : list A), Permutation (arrange A l) l)
        (converts : forall d, In d coll -> toDate (timestamp d) <> None) :
  let pop := population selected_areas coll in
  (ascending String.ltb (analysis.area_wise_avg_pm25 arrange coll)
   /\ NoDup (map row_key (analysis.area_wise_avg_pm25 arrange coll))
   /\ forall a, In a (map row_key (analysis.area_wise_avg_pm25 arrange coll))
                <-> exists d, In d coll /\ area d = a)
  /\ (ascending String.ltb (analysis.avg_noise_by_area arrange coll)
      /\ NoDup (map row_key (analysis.avg_noise_by_area arrange coll))
      /\ forall a, In a (map row_key (analysis.avg_noise_by_area arrange coll))
                   <-> exists d, In d coll /\ area d = a)
  /\ (exists rows,
         analysis.traffic_density_by_hour toDate arrange coll = Ok rows
         /\ ascending Z.ltb rows
         /\ NoDup (map row_key rows)
         /\ forall h, In h (map row_key rows)
                      <-> 0 <= h < 24
                          /\ exists d, In d coll
                                       /\ hour_of toDate d = Some h)
  /\ (NoDup (map row_key (app.area_pm arrange coll selected_areas))
      /\ forall a, In a (map row_key
                           (app.area_pm arrange coll selected_areas))
                   <-> exists d, In d pop /\ area d = a)
  /\ (NoDup (map row_key (app.noise_by_area arrange coll selected_areas))
      /\ forall a, In a (map row_key
                           (app.noise_by_area arrange coll selected_areas))
                   <-> exists d, In d pop /\ area d = a)
  /\ (exists rows,
         app.traffic_by_hour toDate arrange coll selected_areas = Ok rows
         /\ NoDup (map row_key rows)
         /\ forall h, In h (map row_key rows)
                      <-> 0 <= h < 24
                          /\ exists d, In d pop
                                       /\ hour_of toDate d = Some h).
Proof.
  intros pop.
  pose proof (fun val docs =>
    rows_NoDup String.eqb area val String.eqb_eq arrange arrange_perm docs)
    as Hnd.
  pose proof (fun val k docs =>
    rows_keys String.eqb area val String.eqb_eq arrange arrange_perm k docs)
    as Hkeys.
  assert (Hsorted_keys :
    forall (rows : list (agg_row string)) a,
      In a (map row_key (sort_ (by_key_asc String.leb) rows))
      <-> In a (map row_key rows)).
  { intros rows a. split; apply Permutation_in, Permutation_map;
      [|apply Permutation_sym]; apply sort_perm. }
  split; [|split; [|split; [|split; [|split]]]].
  - unfold analysis.area_wise_avg_pm25. split; [|split].
    + apply sort_area_ascending, Hnd.
    + apply sort_keys_NoDup, Hnd.
    + intros a. rewrite Hsorted_keys. apply Hkeys.
  - unfold analysis.avg_noise_by_area. split; [|split].
    + apply sort_area_ascending, Hnd.
    + apply sort_keys_NoDup, Hnd.
    + intros a. rewrite Hsorted_keys. apply Hkeys.
  - destruct (addFields_ts_ok toDate coll converts) as [l [El _]].
    unfold analysis.traffic_density_by_hour. rewrite El. simpl.
    eexists. split; [reflexivity|].
    pose proof (rows_NoDup Z.eqb (fun p : document * Z => hour (snd p))
                  (fun p : document * Z => traffic_count (fst p))
                  Z.eqb_eq arrange arrange_perm l) as Hndh.
    split; [|split].
    + apply sort_hour_ascending, Hndh.
    + apply sort_keys_NoDup, Hndh.
    + intros h. rewrite <- (hourly_keys toDate arrange coll l h
                              arrange_perm El).
      split; apply Permutation_in, Permutation_map;
        [|apply Permutation_sym]; apply sort_perm.
  - unfold app.area_pm. rewrite match_filter_query. split.
    + apply Hnd.
    + intros a. apply Hkeys.
  - unfold app.noise_by_area. rewrite match_filter_query. split.
    + apply Hnd.
    + intros a. apply Hkeys.
  - destruct (addFields_ts_ok toDate pop) as [l [El _]].
    { intros d Hd. apply converts. now apply population_incl in Hd. }
    unfold app.traffic_by_hour. rewrite match_filter_query.
    fold pop. rewrite El. simpl.
    eexists. split; [reflexivity|]. split.
    + apply (rows_NoDup Z.eqb _ _ Z.eqb_eq arrange arrange_perm).
    + intros h. apply (hourly_keys toDate arrange pop l h arrange_perm El).
Qed.

Lemma first_seen_perm A (l : list A) : Permutation (first_seen A l) l.
Proof. apply Permutation_refl. Defined.

Lemma last_seen_perm A (l : list A) : Permutation (last_seen A l) l.
Proof. apply Permutation_sym, Permutation_rev. Defined.

Lemma C4_one_row_per_key_sorted_in_analysis_witness :
  (forall A (l : list A), Permutation (last_seen A l) l)
  /\ (forall d, In d [doc_b; doc_a; doc_pm101] ->
                iso_toDate (timestamp d) <> None)
  /\ ascending String.ltb
       (analysis.area_wise_avg_pm25 last_seen [doc_b; doc_a; doc_pm101]).
Proof.
  assert (converts : forall d, In d [doc_b; doc_a; doc_pm101] ->
                               iso_toDate (timestamp d) <> None).
  { intros d [<-|[<-|[<-|[]]]]; vm_compute; discriminate. }
  split; [exact last_seen_perm|]. split; [exact converts|].
  exact (proj1 (proj1
    (C4_one_row_per_key_sorted_in_analysis iso_toDate last_seen
       [doc_b; doc_a; doc_pm101] ["A"%string] last_seen_perm converts))).
Defined.

(** C4 fails as the spec words it for the dashboard's own area results:
    with no [$sort] stage they come in the store's group order, here area
    B before area A. *)
Lemma C4_counterexample :
  app.area_pm first_seen [doc_b; doc_a] []
  = [mk_row "B"%string (Some (Qmake 2000 100));
     mk_row "A"%string (Some (Qmake 1000 100))]
  /\ ~ ascending String.ltb (app.area_pm first_seen [doc_b; doc_a] [])
  /\ analysis.area_wise_avg_pm25 first_seen [doc_b; doc_a]
     = [mk_row "A"%string (Some (Qmake 1000 100));
        mk_row "B"%string (Some (Qmake 2000 100))].
Proof.
  split; [reflexivity|]. split; [|reflexivity].
  unfold ascending. intros H.
  inversion H as [|? ? _ Hall]; subst.
  inversion Hall as [|? ? Hlt _]; subst.
  discriminate Hlt.
Qed.

(** ** One population per refresh *)

Section Refresh.

Variable toDate : string -> option Z.
Variable arrange : forall A : Type, list A -> list A.

Lemma get_avg_pm25_population coll sel :
  app.get_avg_pm25 arrange coll sel
  = app.get_avg_pm25 arrange (population sel coll) [].
Proof.
  unfold app.get_avg_pm25. now rewrite !_match_filter_query.
Qed.

Lemma get_worst_pollution_area_population coll sel :
  app.get_worst_pollution_area arrange coll sel
  = app.get_worst_pollution_area arrange (population sel coll) [].
Proof.
  unfold app.get_worst_pollution_area. now rewrite !_match_filter_query.
Qed.

Lemma get_peak_traffic_hour_population coll sel :
  app.get_peak_traffic_hour toDate arrange coll sel
  = app.get_peak_traffic_hour toDate arrange (population sel coll) [].
Proof.
  unfold app.get_peak_traffic_hour. now rewrite !_match_filter_query.
Qed.

Lemma get_noisiest_area_population coll sel :
  app.get_noisiest_area arrange coll sel
  = app.get_noisiest_area arrange (population sel coll) [].
Proof.
  unfold app.get_noisiest_area. now rewrite !_match_filter_query.
Qed.

Lemma get_abnormal_count_population coll sel :
  app.get_abnormal_count coll sel
  = app.get_abnormal_count (population sel coll) [].
Proof. now rewrite !get_abnormal_count_length. Qed.

Lemma area_pm_population coll sel :
  app.area_pm arrange coll sel
  = app.area_pm arrange (population sel coll) [].
Proof. unfold app.area_pm. now rewrite !match_filter_query. Qed.

Lemma noise_by_area_population coll sel :
  app.noise_by_area arrange coll sel
  = app.noise_by_area arrange (population sel coll) [].
Proof. unfold app.noise_by_area. now rewrite !match_filter_query. Qed.

Lemma traffic_by_hour_population coll sel :
  app.traffic_by_hour toDate arrange coll sel
  = app.traffic_by_hour toDate arrange (population sel coll) [].
Proof. unfold app.traffic_by_hour. now rewrite !match_filter_query. Qed.

Lemma refresh_population coll sel :
  app.refresh toDate arrange coll sel
  = app.refresh toDate arrange (population sel coll) [].
Proof.
  unfold app.refresh.
  rewrite get_avg_pm25_population, get_worst_pollution_area_population,
    get_peak_traffic_hour_population, get_noisiest_area_population,
    get_abnormal_count_population, area_pm_population,
    noise_by_area_population, traffic_by_hour_population.
  rewrite (abnormal_population coll sel).
  rewrite (abnormal_population (population sel coll) []).
  reflexivity.
Qed.

(** The module's functions on the population, against the dashboard's
    inline pipelines on the store. *)
Lemma area_wise_avg_pm25_area_pm coll sel :
  analysis.area_wise_avg_pm25 arrange (population sel coll)
  = sort_ (by_key_asc String.leb) (app.area_pm arrange coll sel).
Proof.
  unfold analysis.area_wise_avg_pm25, app.area_pm.
  now rewrite match_filter_query.
Qed.

Lemma avg_noise_by_area_noise_by_area coll sel :
  analysis.avg_noise_by_area arrange (population sel coll)
  = sort_ (by_key_asc String.leb) (app.noise_by_area arrange coll sel).
Proof.
  unfold analysis.avg_noise_by_area, app.noise_by_area.
  now rewrite match_filter_query.
Qed.

Lemma traffic_density_by_hour_traffic_by_hour coll sel :
  analysis.traffic_density_by_hour toDate arrange (population sel coll)
  = fmap (sort_ (by_key_asc Z.leb))
         (app.traffic_by_hour toDate arrange coll sel).
Proof.
  unfold analysis.traffic_density_by_hour, app.traffic_by_hour.
  rewrite match_filter_query.
  now destruct (addFields_ts toDate (population sel coll)).
Qed.

End Refresh.

(** C5. In one run of the dashboard every output is computed over the one
    population the area selection leaves: the five KPIs and the four
    result collections of a run with the selection on the whole store are
    those of a run with no selection on that population; and the four
    operations of [analysis.py] on that population return the dashboard's
    four collections (the keyed ones put in key order). *)
Theorem C5_every_output_over_one_population
        (toDate : string -> option Z)
        (arrange : forall A : Type, list A -> list A)
        (coll : list document) (selected_areas : list string) :
  let pop := population selected_areas coll in
  app.refresh toDate arrange coll selected_areas
  = app.refresh toDate arrange pop []
  /\ (forall d, In d pop
                <-> In d coll
                    /\ (selected_areas = [] \/ In (area d) selected_areas))
  /\ analysis.area_wise_avg_pm25 arrange pop
     = sort_ (by_key_asc String.leb)
             (app.area_pm arrange coll selected_areas)
  /\ analysis.traffic_density_by_hour toDate arrange pop
     = fmap (sort_ (by_key_asc Z.leb))
            (app.traffic_by_hour toDate arrange coll selected_areas)
  /\ analysis.avg_noise_by_area arrange pop
     = sort_ (by_key_asc String.leb)
             (app.noise_by_area arrange coll selected_areas)
  /\ analysis.abnormal_readings pop = app.abnormal coll selected_areas.
Proof.
  intros pop. split; [apply refresh_population|].
  split; [intros d; apply population_In|].
  split; [apply area_wise_avg_pm25_area_pm|].
  split; [apply traffic_density_by_hour_traffic_by_hour|].
  split; [apply avg_noise_by_area_noise_by_area|].
  symmetry. apply abnormal_population.
Qed.

(** ** The empty selection *)

Lemma distinct_areas_cover coll d :
  In d coll -> In (area d) (app._get_distinct_areas coll).
Proof.
  intros Hd. unfold app._get_distinct_areas.
  apply sort_In, nodup_In. now apply in_map.
Qed.

(** C7. The filter composed from an empty selection matches every
    reading, and a selection that holds every area present in the store
    leaves the same population: every KPI and every result collection of
    the run is then the same under both. *)
Theorem C7_empty_selection_is_select_all
        (toDate : string -> option Z)
        (arrange : forall A : Type, list A -> list A)
        (coll : list document) (selected_areas : list string) :
  (forall d, In d coll -> In (area d) selected_areas) ->
  app.filter_query [] = []
  /\ (forall d, eval_query (app.filter_query []) d = true)
  /\ match_ (app.filter_query []) coll = coll
  /\ match_ (app.filter_query selected_areas) coll = coll
  /\ app.refresh toDate arrange coll []
     = app.refresh toDate arrange coll selected_areas.
Proof.
  intros Hall.
  split; [reflexivity|]. split; [reflexivity|].
  split; [apply (match_filter_query [])|].
  split; [rewrite match_filter_query; now apply population_all|].
  rewrite (refresh_population toDate arrange coll selected_areas).
  rewrite (refresh_population toDate arrange coll []).
  now rewrite (population_all selected_areas coll Hall).
Qed.

Lemma C7_empty_selection_is_select_all_witness :
  (forall d, In d [doc_b; doc_a; doc_pm101] ->
             In (area d) (app._get_distinct_areas [doc_b; doc_a; doc_pm101]))
  /\ app.refresh iso_toDate first_seen [doc_b; doc_a; doc_pm101] []
     = app.refresh iso_toDate first_seen [doc_b; doc_a; doc_pm101]
         (app._get_distinct_areas [doc_b; doc_a; doc_pm101]).
Proof.
  assert (covers : forall d, In d [doc_b; doc_a; doc_pm101] ->
            In (area d) (app._get_distinct_areas [doc_b; doc_a; doc_pm101])).
  { intros d [<-|[<-|[<-|[]]]]; vm_compute; tauto. }
  split; [exact covers|].
  apply (C7_empty_selection_is_select_all iso_toDate first_seen
           [doc_b; doc_a; doc_pm101]
           (app._get_distinct_areas [doc_b; doc_a; doc_pm101]) covers).
Defined.

(** ** Nothing to aggregate *)

Section Empty.

Variable toDate : string -> option Z.
Variable arrange : forall A : Type, list A -> list A.
Hypothesis arrange_perm : forall A (l : list A), Permutation (arrange A l) l.

Lemma group_avg_empty {D K} (eqb : K -> K -> bool) (key : D -> K)
      (val : D -> option Z) :
  group_avg arrange eqb key val [] = [].
Proof. apply (group_avg_nil eqb key val arrange arrange_perm). Qed.

Lemma area_wise_avg_pm25_empty : analysis.area_wise_avg_pm25 arrange [] = [].
Proof.
  unfold analysis.area_wise_avg_pm25. now rewrite group_avg_empty.
Qed.

Lemma avg_noise_by_area_empty : analysis.avg_noise_by_area arrange [] = [].
Proof.
  unfold analysis.avg_noise_by_area. now rewrite group_avg_empty.
Qed.

Lemma traffic_density_by_hour_empty :
  analysis.traffic_density_by_hour toDate arrange [] = Ok [].
Proof.
  unfold analysis.traffic_density_by_hour. simpl.
  now rewrite group_avg_empty.
Qed.

Lemma get_avg_pm25_empty : app.get_avg_pm25 arrange [] [] = None.
Proof.
  unfold app.get_avg_pm25. simpl app._match_filter.
  now rewrite group_avg_empty.
Qed.

Lemma get_worst_pollution_area_empty :
  app.get_worst_pollution_area arrange [] [] = (None, None).
Proof.
  unfold app.get_worst_pollution_area. simpl app._match_filter.
  now rewrite group_avg_empty.
Qed.

Lemma get_noisiest_area_empty :
  app.get_noisiest_area arrange [] [] = (None, None).
Proof.
  unfold app.get_noisiest_area. simpl app._match_filter.
  now rewrite group_avg_empty.
Qed.

Lemma get_peak_traffic_hour_empty :
  app.get_peak_traffic_hour toDate arrange [] [] = Ok (None, None).
Proof.
  unfold app.get_peak_traffic_hour. simpl app._match_filter. simpl.
  now rewrite group_avg_empty.
Qed.

Lemma area_pm_empty : app.area_pm arrange [] [] = [].
Proof. unfold app.area_pm. simpl match_. now rewrite group_avg_empty. Qed.

Lemma noise_by_area_empty : app.noise_by_area arrange [] [] = [].
Proof.
  unfold app.noise_by_area. simpl match_. now rewrite group_avg_empty.
Qed.

Lemma traffic_by_hour_empty :
  app.traffic_by_hour toDate arrange [] [] = Ok [].
Proof.
  unfold app.traffic_by_hour. simpl match_. simpl.
  now rewrite group_avg_empty.
Qed.

End Empty.

(** C6. When the filter leaves no reading, nothing raises: the four
    result collections are empty, the average-pollution KPI is [None], and
    the worst-pollution-area, peak-traffic-hour and noisiest-area KPIs
    are the pair [(None, None)].  The operations of [analysis.py] return
    empty lists on an empty collection. *)
Theorem C6_empty_population_is_no_data
        (toDate : string -> option Z)
        (arrange : forall A : Type, list A -> list A)
        (coll : list document) (selected_areas : list string) :
  (forall A (l : list A), Permutation (arrange A l) l) ->
  population selected_areas coll = [] ->
  (app.area_pm arrange coll selected_areas = []
   /\ app.traffic_by_hour toDate arrange coll selected_areas = Ok []
   /\ app.noise_by_area arrange coll selected_areas = []
   /\ app.abnormal coll selected_areas = [])
  /\ (app.get_avg_pm25 arrange coll selected_areas = None
      /\ app.get_worst_pollution_area arrange coll selected_areas
         = (None, None)
      /\ app.get_peak_traffic_hour toDate arrange coll selected_areas
         = Ok (None, None)
      /\ app.get_noisiest_area arrange coll selected_areas = (None, None))
  /\ analysis.all_analytics toDate arrange []
     = Ok (analysis.mk_analytics [] [] [] []).
Proof.
  intros arrange_perm Hpop.
  split; [|split].
  - rewrite area_pm_population, traffic_by_hour_population,
      noise_by_area_population, abnormal_population, Hpop.
    rewrite area_pm_empty, traffic_by_hour_empty, noise_by_area_empty
      by assumption.
    repeat split.
  - rewrite get_avg_pm25_population, get_worst_pollution_area_population,
      get_peak_traffic_hour_population, get_noisiest_area_population, Hpop.
    rewrite get_avg_pm25_empty, get_worst_pollution_area_empty,
      get_peak_traffic_hour_empty, get_noisiest_area_empty by assumption.
    repeat split.
  - unfold analysis.all_analytics.
    rewrite traffic_density_by_hour_empty, area_wise_avg_pm25_empty,
      avg_noise_by_area_empty by assumption.
    reflexivity.
Qed.

Lemma C6_empty_population_is_no_data_witness :
  (forall A (l : list A), Permutation (last_seen A l) l)
  /\ population ["B"%string] [doc_a; doc_pm101] = []
  /\ app.get_avg_pm25 last_seen [doc_a; doc_pm101] ["B"%string] = None
  /\ app.get_noisiest_area last_seen [doc_a; doc_pm101] ["B"%string]
     = (None, None).
Proof.
  split; [exact last_seen_perm|]. split; [reflexivity|].
  pose proof (C6_empty_population_is_no_data iso_toDate last_seen
                [doc_a; doc_pm101] ["B"%string] last_seen_perm eq_refl)
    as H.
  split; [apply H | apply H].
Defined.

(** C10. The abnormal-count KPI is a non-negative integer, and it is the
    integer 0 exactly when no reading of the filtered population meets
    the abnormal predicate; on an empty population it is 0 where the
    other four KPIs are [None] or [(None, None)]. *)
Theorem C10_abnormal_count_zero_not_none
        (toDate : string -> option Z)
        (arrange : forall A : Type, list A -> list A)
        (coll : list document) (selected_areas : list string) :
  (forall A (l : list A), Permutation (arrange A l) l) ->
  0 <= app.get_abnormal_count coll selected_areas
  /\ (app.get_abnormal_count coll selected_areas = 0
      <-> forall d, In d (population selected_areas coll) ->
                    is_abnormal (project_reading d) = false)
  /\ (population selected_areas coll = [] ->
      app.get_abnormal_count coll selected_areas = 0
      /\ app.get_avg_pm25 arrange coll selected_areas = None
      /\ app.get_worst_pollution_area arrange coll selected_areas
         = (None, None)
      /\ app.get_peak_traffic_hour toDate arrange coll selected_areas
         = Ok (None, None)
      /\ app.get_noisiest_area arrange coll selected_areas = (None, None)).
Proof.
  intros arrange_perm.
  split; [rewrite get_abnormal_count_length; lia|].
  split.
  - rewrite get_abnormal_count_length, <- filter_map_comm, length_map.
    split.
    + intros H d Hd.
      destruct (is_abnormal (project_reading d)) eqn:E; [|reflexivity].
      exfalso.
      assert (Hin : In d (filter (fun x => is_abnormal (project_reading x))
                                 (population selected_areas coll))).
      { apply filter_In. now split. }
      destruct (filter _ (population selected_areas coll));
        [contradiction|discriminate].
    + intros H.
      destruct (filter _ (population selected_areas coll)) as [|x t] eqn:E;
        [reflexivity|].
      exfalso.
      assert (Hin : In x (filter (fun x => is_abnormal (project_reading x))
                                 (population selected_areas coll))).
      { rewrite E. now left. }
      apply filter_In in Hin. destruct Hin as [Hin Hab].
      rewrite (H x Hin) in Hab. discriminate.
  - intros Hpop.
    split; [rewrite get_abnormal_count_length, Hpop; reflexivity|].
    rewrite get_avg_pm25_population, get_worst_pollution_area_population,
      get_peak_traffic_hour_population, get_noisiest_area_population, Hpop.
    rewrite get_avg_pm25_empty, get_worst_pollution_area_empty,
      get_peak_traffic_hour_empty, get_noisiest_area_empty by assumption.
    repeat split.
Qed.

Lemma C10_abnormal_count_zero_not_none_witness :
  (forall A (l : list A), Permutation (first_seen A l) l)
  /\ app.get_abnormal_count [doc_a; doc_b; doc_pm100]
       ["A"%string; "B"%string]
     = 0
  /\ 0 <= app.get_abnormal_count [doc_a; doc_pm101] [].
Proof.
  split; [exact first_seen_perm|]. split; [reflexivity|].
  apply (C10_abnormal_count_zero_not_none iso_toDate first_seen
           [doc_a; doc_pm101] [] first_seen_perm).
Defined.

(** ** Averages and their rounding *)

Lemma unit_eqb_eq (a b : unit) : unit_eqb a b = true <-> a = b.
Proof. destruct a, b. now split. Qed.

Section Metrics.

Variable toDate : string -> option Z.
Variable arrange : forall A : Type, list A -> list A.
Hypothesis arrange_perm : forall A (l : list A), Permutation (arrange A l) l.

Lemma area_rows_avg (val : document -> option Z) docs r :
  In r (map project_round (group_avg arrange String.eqb area val docs)) ->
  row_avg r
  = round_ (mean (present String.eqb area val (row_key r) docs)) 2.
Proof.
  intros H.
  now apply (rows_spec String.eqb area val String.eqb_eq
               arrange arrange_perm) in H.
Qed.

Lemma hour_rows_avg docs l r :
  addFields_ts toDate docs = Ok l ->
  In r (map project_round
          (group_avg arrange Z.eqb
             (fun p : document * Z => hour (snd p))
             (fun p : document * Z => traffic_count (fst p)) l)) ->
  row_avg r = round_ (mean (traffic_in_hour toDate (row_key r) docs)) 2.
Proof.
  intros Hl H.
  now apply (hourly_rows_spec toDate arrange arrange_perm docs l r Hl) in H.
Qed.

(** The first row of a ranked result is one of the rows ranked. *)
Lemma top1_In {K} (rows : list (agg_row K)) r t :
  limit 1 (sort_ by_avg_desc rows) = r :: t -> In r rows.
Proof.
  intros H. apply (sort_In by_avg_desc), (limit_In 1).
  rewrite H. now left.
Qed.

Lemma get_avg_pm25_mean coll sel :
  app.get_avg_pm25 arrange coll sel
  = round_ (mean (present_all pm25 (population sel coll))) 2.
Proof.
  unfold app.get_avg_pm25. rewrite _match_filter_query.
  set (pop := population sel coll).
  destruct (map project_round
              (group_avg arrange unit_eqb (fun _ : document => tt)
                 pm25 pop)) as [|r t] eqn:E.
  - destruct pop as [|d pop']; [reflexivity|]. exfalso.
    assert (Hin : In tt (map row_key
              (map project_round
                 (group_avg arrange unit_eqb (fun _ : document => tt)
                    pm25 (d :: pop'))))).
    { apply (rows_keys unit_eqb _ _ unit_eqb_eq arrange arrange_perm).
      exists d. split; [now left|reflexivity]. }
    rewrite E in Hin. exact Hin.
  - assert (Hin : In r (r :: t)) by now left.
    rewrite <- E in Hin.
    apply (rows_spec unit_eqb _ _ unit_eqb_eq arrange arrange_perm) in Hin.
    destruct Hin as [_ ->]. unfold present_all.
    now destruct (row_key r).
Qed.

Lemma get_worst_pollution_area_mean coll sel a m :
  app.get_worst_pollution_area arrange coll sel = (Some a, m) ->
  m = round_ (mean (present String.eqb area pm25 a
                      (population sel coll))) 2.
Proof.
  unfold app.get_worst_pollution_area. rewrite _match_filter_query.
  destruct (limit 1 _) as [|r t] eqn:E; [discriminate|].
  intros H. injection H as <- <-.
  apply area_rows_avg. eapply top1_In, E.
Qed.

Lemma get_noisiest_area_mean coll sel a m :
  app.get_noisiest_area arrange coll sel = (Some a, m) ->
  m = round_ (mean (present String.eqb area noise_db a
                      (population sel coll))) 2.
Proof.
  unfold app.get_noisiest_area. rewrite _match_filter_query.
  destruct (limit 1 _) as [|r t] eqn:E; [discriminate|].
  intros H. injection H as <- <-.
  apply area_rows_avg. eapply top1_In, E.
Qed.

Lemma get_peak_traffic_hour_mean coll sel h m :
  app.get_peak_traffic_hour toDate arrange coll sel = Ok (Some h, m) ->
  m = round_ (mean (traffic_in_hour toDate h (population sel coll))) 2.
Proof.
  unfold app.get_peak_traffic_hour. rewrite _match_filter_query.
  destruct (addFields_ts toDate (population sel coll)) as [l|e] eqn:El;
    unfold bind; [|discriminate].
  destruct (limit 1 _) as [|r t] eqn:E; [discriminate|].
  intros H. injection H as <- <-.
  eapply hour_rows_avg; [exact El|]. eapply top1_In, E.
Qed.

Lemma traffic_density_by_hour_avg coll rows r :
  analysis.traffic_density_by_hour toDate arrange coll = Ok rows ->
  In r rows ->
  row_avg r = round_ (mean (traffic_in_hour toDate (row_key r) coll)) 2.
Proof.
  unfold analysis.traffic_density_by_hour.
  destruct (addFields_ts toDate coll) as [l|e] eqn:El; simpl;
    [|discriminate].
  intros H. injection H as <-. intros Hin.
  apply sort_In in Hin. eapply hour_rows_avg; eassumption.
Qed.

Lemma traffic_by_hour_avg coll sel rows r :
  app.traffic_by_hour toDate arrange coll sel = Ok rows ->
  In r rows ->
  row_avg r
  = round_ (mean (traffic_in_hour toDate (row_key r)
                    (population sel coll))) 2.
Proof.
  unfold app.traffic_by_hour. rewrite match_filter_query.
  destruct (addFields_ts toDate (population sel coll)) as [l|e] eqn:El;
    simpl; [|discriminate].
  intros H. injection H as <-. intros Hin.
  eapply hour_rows_avg; eassumption.
Qed.

End Metrics.

(** ** Documents that lack a measurement *)

Section Missing.

Context {D K : Type} (eqb : K -> K -> bool).
Context (key : D -> K) (val : D -> option Z).

Lemma present_app k l1 l2 :
  present eqb key val k (l1 ++ l2)
  = present eqb key val k l1 ++ present eqb key val k l2.
Proof. unfold present. apply flat_map_app. Qed.

Lemma present_skip k s1 d s2 :
  val d = None ->
  present eqb key val k (s1 ++ d :: s2) = present eqb key val k (s1 ++ s2).
Proof.
  intros Hnone. rewrite !present_app. f_equal.
  unfold present. simpl. rewrite Hnone.
  now destruct (eqb (key d) k).
Qed.

Lemma present_keep s1 d s2 v :
  eqb (key d) (key d) = true ->
  val d = Some v ->
  present eqb key val (key d) (s1 ++ d :: s2)
  = present eqb key val (key d) s1 ++ v :: present eqb key val (key d) s2.
Proof.
  intros Hrefl Hsome. rewrite present_app. f_equal.
  unfold present. simpl. now rewrite Hrefl, Hsome.
Qed.

End Missing.

Section MissingHour.

Variable toDate : string -> option Z.

Lemma traffic_in_hour_app h l1 l2 :
  traffic_in_hour toDate h (l1 ++ l2)
  = traffic_in_hour toDate h l1 ++ traffic_in_hour toDate h l2.
Proof. unfold traffic_in_hour. apply flat_map_app. Qed.

Lemma traffic_in_hour_skip h s1 d s2 :
  traffic_count d = None ->
  traffic_in_hour toDate h (s1 ++ d :: s2)
  = traffic_in_hour toDate h (s1 ++ s2).
Proof.
  intros Hnone. rewrite !traffic_in_hour_app. f_equal.
  unfold traffic_in_hour. simpl. rewrite Hnone.
  destruct (hour_of toDate d) as [h'|]; [|reflexivity].
  now destruct (h' =? h).
Qed.

Lemma traffic_in_hour_keep s1 d s2 v ms :
  toDate (timestamp d) = Some ms ->
  traffic_count d = Some v ->
  traffic_in_hour toDate (hour ms) (s1 ++ d :: s2)
  = traffic_in_hour toDate (hour ms) s1
    ++ v :: traffic_in_hour toDate (hour ms) s2.
Proof.
  intros Hts Hsome. rewrite traffic_in_hour_app. f_equal.
  unfold traffic_in_hour, hour_of. simpl.
  now rewrite Hts, Hsome; simpl; rewrite Z.eqb_refl.
Qed.

Variable arrange : forall A : Type, list A -> list A.
Hypothesis arrange_perm : forall A (l : list A), Permutation (arrange A l) l.

(** Every document has a row for its area. *)
Lemma area_row_In (val : document -> option Z) docs d :
  In d docs ->
  In (mk_row (area d)
             (round_ (mean (present String.eqb area val (area d) docs)) 2))
     (map project_round (group_avg arrange String.eqb area val docs)).
Proof.
  intros Hd.
  apply (rows_spec String.eqb area val String.eqb_eq arrange arrange_perm).
  split; [now exists d | reflexivity].
Qed.

(** Every document has a row for its hour, when the result is returned. *)
Lemma hour_row_In coll rows d ms :
  analysis.traffic_density_by_hour toDate arrange coll = Ok rows ->
  In d coll -> toDate (timestamp d) = Some ms ->
  In (mk_row (hour ms)
             (round_ (mean (traffic_in_hour toDate (hour ms) coll)) 2))
     rows.
Proof.
  unfold analysis.traffic_density_by_hour.
  destruct (addFields_ts toDate coll) as [l|e] eqn:El; unfold bind;
    [|discriminate].
  intros H. injection H as <-. intros Hd Hts.
  apply sort_In.
  apply (hourly_rows_spec toDate arrange arrange_perm coll l _ El).
  split; [|reflexivity].
  exists d. split; [assumption|]. unfold hour_of. now rewrite Hts.
Qed.

End MissingHour.

(** C9. A reading that lacks one measurement adds nothing to the sum or
    to the count behind that measurement's averages: they are those of
    the store without the reading.  The reading still has a row for its
    area in both area-keyed results, and the measurements it does carry
    enter their own averages. *)
Theorem C9_missing_field_left_out_of_its_average
        (toDate : string -> option Z)
        (arrange : forall A : Type, list A -> list A)
        (s1 s2 : list document) (d : document) :
  (forall A (l : list A), Permutation (arrange A l) l) ->
  let coll := s1 ++ d :: s2 in
  let rest := s1 ++ s2 in
  (pm25 d = None ->
   (forall r, In r (analysis.area_wise_avg_pm25 arrange coll) ->
      row_avg r
      = round_ (mean (present String.eqb area pm25 (row_key r) rest)) 2)
   /\ app.get_avg_pm25 arrange coll []
      = round_ (mean (present_all pm25 rest)) 2)
  /\ (noise_db d = None ->
      forall r, In r (analysis.avg_noise_by_area arrange coll) ->
        row_avg r
        = round_ (mean (present String.eqb area noise_db (row_key r) rest)) 2)
  /\ (traffic_count d = None ->
      forall rows r,
        analysis.traffic_density_by_hour toDate arrange coll = Ok rows ->
        In r rows ->
        row_avg r = round_ (mean (traffic_in_hour toDate (row_key r) rest)) 2)
  /\ In (area d) (map row_key (analysis.area_wise_avg_pm25 arrange coll))
  /\ In (area d) (map row_key (analysis.avg_noise_by_area arrange coll))
  /\ (forall v, pm25 d = Some v ->
        In (mk_row (area d)
              (round_ (mean (present String.eqb area pm25 (area d) s1
                             ++ v :: present String.eqb area pm25 (area d) s2))
                      2))
           (analysis.area_wise_avg_pm25 arrange coll))
  /\ (forall v, noise_db d = Some v ->
        In (mk_row (area d)
              (round_ (mean (present String.eqb area noise_db (area d) s1
                             ++ v :: present String.eqb area noise_db
                                       (area d) s2))
                      2))
           (analysis.avg_noise_by_area arrange coll))
  /\ (forall v ms rows,
        traffic_count d = Some v -> toDate (timestamp d) = Some ms ->
        analysis.traffic_density_by_hour toDate arrange coll = Ok rows ->
        In (mk_row (hour ms)
              (round_ (mean (traffic_in_hour toDate (hour ms) s1
                             ++ v :: traffic_in_hour toDate (hour ms) s2))
                      2))
           rows)
  /\ (analysis.area_wise_avg_pm25 first_seen [doc_a; doc_no_pm25]
      = [mk_row "A"%string (Some (Qmake 1000 100))]
      /\ analysis.avg_noise_by_area first_seen [doc_a; doc_no_pm25]
         = [mk_row "A"%string (Some (Qmake 4500 100))]
      /\ analysis.area_wise_avg_pm25 first_seen [doc_no_pm25]
         = [mk_row "A"%string None]
      /\ analysis.abnormal_readings [doc_a; doc_no_pm25]
         = [project_reading doc_no_pm25]).
Proof.
  intros arrange_perm coll rest.
  assert (Hd : In d coll) by (apply in_or_app; right; now left).
  split.
  { intros Hnone. split.
    - intros r Hr. apply sort_In in Hr.
      rewrite (area_rows_avg arrange arrange_perm _ _ _ Hr).
      unfold coll, rest. now rewrite present_skip.
    - rewrite (get_avg_pm25_mean arrange arrange_perm). simpl population.
      unfold present_all, coll, rest. now rewrite present_skip. }
  split.
  { intros Hnone r Hr. apply sort_In in Hr.
    rewrite (area_rows_avg arrange arrange_perm _ _ _ Hr).
    unfold coll, rest. now rewrite present_skip. }
  split.
  { intros Hnone rows r Hrows Hr.
    rewrite (traffic_density_by_hour_avg toDate arrange arrange_perm
               _ _ _ Hrows Hr).
    unfold coll, rest. now rewrite traffic_in_hour_skip. }
  split.
  { apply (in_map row_key _ _
             (proj2 (sort_In _ _ _) (area_row_In arrange arrange_perm
                                       pm25 coll d Hd))). }
  split.
  { apply (in_map row_key _ _
             (proj2 (sort_In _ _ _) (area_row_In arrange arrange_perm
                                       noise_db coll d Hd))). }
  split.
  { intros v Hv. apply sort_In.
    rewrite <- (present_keep String.eqb area pm25 s1 d s2 v
                  (String.eqb_refl _) Hv).
    now apply area_row_In. }
  split.
  { intros v Hv. apply sort_In.
    rewrite <- (present_keep String.eqb area noise_db s1 d s2 v
                  (String.eqb_refl _) Hv).
    now apply area_row_In. }
  split.
  { intros v ms rows Hv Hts Hrows.
    rewrite <- (traffic_in_hour_keep toDate s1 d s2 v ms Hts Hv).
    now apply (hour_row_In toDate arrange arrange_perm coll rows d ms). }
  repeat split; reflexivity.
Qed.

Lemma C9_missing_field_left_out_of_its_average_witness :
  (forall A (l : list A), Permutation (last_seen A l) l)
  /\ pm25 doc_no_pm25 = None
  /\ app.get_avg_pm25 last_seen ([doc_b] ++ doc_no_pm25 :: [doc_a]) []
     = round_ (mean (present_all pm25 ([doc_b] ++ [doc_a]))) 2.
Proof.
  split; [exact last_seen_perm|]. split; [reflexivity|].
  apply (C9_missing_field_left_out_of_its_average iso_toDate last_seen
           [doc_b] [doc_a] doc_no_pm25 last_seen_perm).
  reflexivity.
Defined.

(** * Further properties of the dashboard and of the loaders *)

(** ** Ranking KPIs *)

Lemma value_leb_total a b : value_leb a b = true \/ value_leb b a = true.
Proof.
  destruct a as [x|], b as [y|]; simpl; auto.
  rewrite !Qle_bool_iff.
  destruct (Qlt_le_dec x y) as [H|H]; [left; now apply Qlt_le_weak | now right].
Qed.

Lemma value_leb_trans a b c :
  value_leb a b = true -> value_leb b c = true -> value_leb a c = true.
Proof.
  destruct a as [x|], b as [y|], c as [z|]; simpl; auto; try discriminate.
  rewrite !Qle_bool_iff. apply Qle_trans.
Qed.

Lemma sort_head_least {A} (le : A -> A -> bool) (l : list A) x t :
  (forall a b, le a b = true \/ le b a = true) ->
  (forall a b c, le a b = true -> le b c = true -> le a c = true) ->
  sort_ le l = x :: t ->
  In x l /\ forall y, In y l -> le x y = true.
Proof.
  intros Htot Htrans E.
  pose proof (sort_strongly_sorted le Htot Htrans l) as Hs.
  rewrite E in Hs. split.
  - apply (sort_In le). rewrite E. now left.
  - intros y Hy. apply (sort_In le) in Hy. rewrite E in Hy.
    destruct Hy as [<-|Hy].
    + now destruct (Htot x x).
    + inversion Hs as [|? ? _ Hall]; subst.
      rewrite Forall_forall in Hall. now apply Hall.
Qed.

Lemma limit1_head {A} (l : list A) x t : limit 1 l = x :: t ->
  exists t', l = x :: t'.
Proof.
  destruct l as [|y l']; simpl; [discriminate|].
  intros H. injection H as <- _. now exists l'.
Qed.

(** The row a ranking pipeline keeps: one of the rows, with no row above
    it. *)
Lemma top1_spec {K} (rows : list (agg_row K)) r t :
  limit 1 (sort_ by_avg_desc rows) = r :: t ->
  In r rows
  /\ forall r', In r' rows -> value_leb (row_avg r') (row_avg r) = true.
Proof.
  intros H. apply limit1_head in H. destruct H as [t' E].
  apply (sort_head_least by_avg_desc rows r t').
  - intros a b. unfold by_avg_desc. apply value_leb_total.
  - intros a b c. unfold by_avg_desc. intros H1 H2.
    now apply value_leb_trans with (row_avg b).
  - exact E.
Qed.

Lemma top1_nonempty {K} (rows : list (agg_row K)) :
  rows <> [] -> exists r t, limit 1 (sort_ by_avg_desc rows) = r :: t.
Proof.
  intros Hne.
  destruct (sort_ by_avg_desc rows) as [|x t] eqn:E.
  - apply sort_nil_inv in E. contradiction.
  - exists x, []. reflexivity.
Qed.

Section Ranking.

Variable toDate : string -> option Z.
Variable arrange : forall A : Type, list A -> list A.
Hypothesis arrange_perm : forall A (l : list A), Permutation (arrange A l) l.

Lemma area_rows_nonempty (val : document -> option Z) docs :
  docs <> [] ->
  map project_round (group_avg arrange String.eqb area val docs) <> [].
Proof.
  destruct docs as [|d ds]; [contradiction|]. intros _ E.
  pose proof (area_row_In arrange arrange_perm val (d :: ds) d
                (or_introl eq_refl)) as Hin.
  rewrite E in Hin. exact Hin.
Qed.

Lemma get_worst_pollution_area_top coll sel a m :
  app.get_worst_pollution_area arrange coll sel = (Some a, m) ->
  In (mk_row a m) (app.area_pm arrange coll sel)
  /\ forall r, In r (app.area_pm arrange coll sel) ->
               value_leb (row_avg r) m = true.
Proof.
  unfold app.get_worst_pollution_area, app.area_pm.
  rewrite _match_filter_query, match_filter_query.
  destruct (limit 1 _) as [|r t] eqn:E; [discriminate|].
  intros H. injection H as <- <-.
  apply top1_spec in E. now destruct r.
Qed.

Lemma get_noisiest_area_top coll sel a m :
  app.get_noisiest_area arrange coll sel = (Some a, m) ->
  In (mk_row a m) (app.noise_by_area arrange coll sel)
  /\ forall r, In r (app.noise_by_area arrange coll sel) ->
               value_leb (row_avg r) m = true.
Proof.
  unfold app.get_noisiest_area, app.noise_by_area.
  rewrite _match_filter_query, match_filter_query.
  destruct (limit 1 _) as [|r t] eqn:E; [discriminate|].
  intros H. injection H as <- <-.
  apply top1_spec in E. now destruct r.
Qed.

Lemma get_worst_pollution_area_some coll sel :
  population sel coll <> [] ->
  exists a m, app.get_worst_pollution_area arrange coll sel = (Some a, m).
Proof.
  intros Hne. unfold app.get_worst_pollution_area.
  rewrite _match_filter_query.
  destruct (top1_nonempty _ (area_rows_nonempty pm25 _ Hne)) as [r [t E]].
  rewrite E. now exists (row_key r), (row_avg r).
Qed.

Lemma get_noisiest_area_some coll sel :
  population sel coll <> [] ->
  exists a m, app.get_noisiest_area arrange coll sel = (Some a, m).
Proof.
  intros Hne. unfold app.get_noisiest_area.
  rewrite _match_filter_query.
  destruct (top1_nonempty _ (area_rows_nonempty noise_db _ Hne))
    as [r [t E]].
  rewrite E. now exists (row_key r), (row_avg r).
Qed.

Lemma get_peak_traffic_hour_top coll sel h m :
  app.get_peak_traffic_hour toDate arrange coll sel = Ok (Some h, m) ->
  exists rows,
    app.traffic_by_hour toDate arrange coll sel = Ok rows
    /\ In (mk_row h m) rows
    /\ forall r, In r rows -> value_leb (row_avg r) m = true.
Proof.
  unfold app.get_peak_traffic_hour, app.traffic_by_hour.
  rewrite _match_filter_query, match_filter_query.
  destruct (addFields_ts toDate (population sel coll)) as [l|e] eqn:El;
    unfold bind; [|discriminate].
  destruct (limit 1 _) as [|r t] eqn:E; [discriminate|].
  intros H. injection H as <- <-.
  eexists. split; [reflexivity|].
  apply top1_spec in E. now destruct r.
Qed.

End Ranking.

Lemma value_leb_Some (q : Q) (m : option Q) :
  value_leb (Some q) m = true <-> exists qm, m = Some qm /\ Qle q qm.
Proof.
  destruct m as [qm|]; simpl.
  - rewrite Qle_bool_iff. split.
    + intros H. now exists qm.
    + intros [qm' [H Hle]]. now injection H as <-.
  - split; [discriminate|]. intros [qm [H _]]. discriminate.
Qed.

(** X1. The worst-pollution-area and noisiest-area KPIs return a row of
    the corresponding area chart, and no row of that chart has a larger
    average: every row with a number has it below or equal to the KPI's,
    which is then a number too (a null average is returned only when
    every average is null).  They return such a row whenever the
    filtered population is not empty. *)
Theorem X1_area_kpis_return_a_maximal_row
        (arrange : forall A : Type, list A -> list A)
        (coll : list document) (selected_areas : list string) :
  (forall A (l : list A), Permutation (arrange A l) l) ->
  (forall a m,
     app.get_worst_pollution_area arrange coll selected_areas = (Some a, m) ->
     In (mk_row a m) (app.area_pm arrange coll selected_areas)
     /\ forall r q, In r (app.area_pm arrange coll selected_areas) ->
                    row_avg r = Some q ->
                    exists qm, m = Some qm /\ Qle q qm)
  /\ (forall a m,
        app.get_noisiest_area arrange coll selected_areas = (Some a, m) ->
        In (mk_row a m) (app.noise_by_area arrange coll selected_areas)
        /\ forall r q, In r (app.noise_by_area arrange coll selected_areas) ->
                       row_avg r = Some q ->
                       exists qm, m = Some qm /\ Qle q qm)
  /\ (population selected_areas coll <> [] ->
      (exists a m,
          app.get_worst_pollution_area arrange coll selected_areas
          = (Some a, m))
      /\ (exists a m,
             app.get_noisiest_area arrange coll selected_areas
             = (Some a, m))).
Proof.
  intros arrange_perm.
  split; [|split].
  - intros a m H.
    destruct (get_worst_pollution_area_top arrange coll selected_areas a m H)
      as [Hin Hmax].
    split; [exact Hin|]. intros r q Hr Hq.
    apply value_leb_Some. rewrite <- Hq. now apply Hmax.
  - intros a m H.
    destruct (get_noisiest_area_top arrange coll selected_areas a m H)
      as [Hin Hmax].
    split; [exact Hin|]. intros r q Hr Hq.
    apply value_leb_Some. rewrite <- Hq. now apply Hmax.
  - intros Hne. split.
    + now apply get_worst_pollution_area_some.
    + now apply get_noisiest_area_some.
Qed.

Lemma X1_area_kpis_return_a_maximal_row_witness :
  (forall A (l : list A), Permutation (last_seen A l) l)
  /\ population [] [doc_a; doc_b; doc_no_pm25] <> []
  /\ app.get_worst_pollution_area last_seen [doc_a; doc_b; doc_no_pm25] []
     = (Some "B"%string, Some (Qmake 2000 100))
  /\ forall r q,
       In r (app.area_pm last_seen [doc_a; doc_b; doc_no_pm25] []) ->
       row_avg r = Some q ->
       exists qm, Some (Qmake 2000 100) = Some qm /\ Qle q qm.
Proof.
  split; [exact last_seen_perm|].
  split; [discriminate|].
  split; [reflexivity|].
  apply (proj1 (X1_area_kpis_return_a_maximal_row last_seen
                  [doc_a; doc_b; doc_no_pm25] [] last_seen_perm)
               "B"%string (Some (Qmake 2000 100)) eq_refl).
Defined.

Lemma get_peak_traffic_hour_some
      (toDate : string -> option Z)
      (arrange : forall A : Type, list A -> list A)
      (coll : list document) (sel : list string) :
  (forall A (l : list A), Permutation (arrange A l) l) ->
  population sel coll <> [] ->
  (forall d, In d (population sel coll) -> toDate (timestamp d) <> None) ->
  exists h m,
    app.get_peak_traffic_hour toDate arrange coll sel = Ok (Some h, m).
Proof.
  intros arrange_perm Hne Hconv.
  destruct (addFields_ts_ok toDate _ Hconv) as [l [El [Hmap _]]].
  unfold app.get_peak_traffic_hour. rewrite _match_filter_query, El.
  unfold bind.
  assert (Hrows : map project_round
                    (group_avg arrange Z.eqb
                       (fun d : document * Z => hour (snd d))
                       (fun d : document * Z => traffic_count (fst d)) l)
                  <> []).
  { destruct l as [|p l']; [simpl in Hmap; now symmetry in Hmap|].
    intros E.
    assert (Hin : In (hour (snd p))
                     (map row_key
                        (map project_round
                           (group_avg arrange Z.eqb
                              (fun d : document * Z => hour (snd d))
                              (fun d : document * Z => traffic_count (fst d))
                              (p :: l'))))).
    { apply (rows_keys Z.eqb _ _ Z.eqb_eq arrange arrange_perm).
      exists p. split; [now left|reflexivity]. }
    rewrite E in Hin. exact Hin. }
  destruct (top1_nonempty _ Hrows) as [r [t E]].
  rewrite E. now exists (row_key r), (row_avg r).
Qed.

(** X2. When the peak-traffic-hour KPI returns an hour, that hour is
    between 0 and 23 and is a row of the hourly chart, and no row of the
    chart has a larger average: every row with a number has it below or
    equal to the KPI's, which is then a number too.  The KPI returns an
    hour whenever the filtered population is not empty and all its
    timestamps convert. *)
Theorem X2_peak_hour_is_a_maximal_row
        (toDate : string -> option Z)
        (arrange : forall A : Type, list A -> list A)
        (coll : list document) (selected_areas : list string) :
  (forall A (l : list A), Permutation (arrange A l) l) ->
  (forall h m,
     app.get_peak_traffic_hour toDate arrange coll selected_areas
     = Ok (Some h, m) ->
     0 <= h < 24
     /\ exists rows,
          app.traffic_by_hour toDate arrange coll selected_areas = Ok rows
          /\ In (mk_row h m) rows
          /\ forall r q, In r rows -> row_avg r = Some q ->
                         exists qm, m = Some qm /\ Qle q qm)
  /\ (population selected_areas coll <> [] ->
      (forall d, In d (population selected_areas coll) ->
                 toDate (timestamp d) <> None) ->
      exists h m,
        app.get_peak_traffic_hour toDate arrange coll selected_areas
        = Ok (Some h, m)).
Proof.
  intros arrange_perm. split.
  - intros h m H.
    destruct (get_peak_traffic_hour_top toDate arrange coll selected_areas
                h m H) as [rows [Hrows [Hin Hmax]]].
    split.
    + revert Hrows. unfold app.traffic_by_hour. rewrite match_filter_query.
      destruct (addFields_ts toDate (population selected_areas coll))
        as [l|e] eqn:El; unfold bind; [|discriminate].
      intros Hrows. injection Hrows as <-.
      apply (in_map row_key) in Hin. simpl in Hin.
      now apply (hourly_keys toDate arrange _ l h arrange_perm El) in Hin.
    + exists rows. split; [exact Hrows|]. split; [exact Hin|].
      intros r q Hr Hq. apply value_leb_Some. rewrite <- Hq.
      now apply Hmax.
  - now apply get_peak_traffic_hour_some.
Qed.

Lemma X2_peak_hour_is_a_maximal_row_witness :
  (forall A (l : list A), Permutation (first_seen A l) l)
  /\ app.get_peak_traffic_hour iso_toDate first_seen
       [doc_a; doc_b; doc_no_pm25] []
     = Ok (Some 9, Some (Qmake 9000 100))
  /\ 0 <= 9 < 24.
Proof.
  split; [exact first_seen_perm|]. split; [reflexivity|].
  apply (proj1 (X2_peak_hour_is_a_maximal_row iso_toDate first_seen
                  [doc_a; doc_b; doc_no_pm25] [] first_seen_perm)
               9 (Some (Qmake 9000 100)) eq_refl).
Defined.

(** ** The sidebar's list of areas *)

Lemma sort_string_ascending (l : list string) :
  NoDup l ->
  StronglySorted (fun a b => String.ltb a b = true) (sort_ String.leb l).
Proof.
  intros Hnd.
  apply (StronglySorted_strict (fun a : string => a)
           (fun a b => String.leb a b = true)).
  - intros a b Hle Hne. apply string_leb_ltb_or_eq in Hle.
    now destruct Hle.
  - rewrite map_id. eapply Permutation_NoDup; [|exact Hnd].
    apply Permutation_sym, sort_perm.
  - apply sort_strongly_sorted.
    + apply String.leb_total.
    + apply string_leb_trans.
Qed.

(** X3. The list of areas offered in the sidebar is read through a
    cache that keeps a list for 60 seconds.  While the cached list is
    younger than that it is returned as it is and nothing is recomputed,
    whatever the collection holds by then: with ["A"] cached at time 0,
    the list asked for at time 10 is ["A"] although the collection holds
    a document of area B, and at time 60 it is ["A"; "B"].  When nothing
    is cached, or the cached list is 60 seconds old or older, the list
    returned holds exactly the areas that occur in the collection, each
    once, in strictly ascending order, and it is cached with the current
    time. *)
Theorem X3_distinct_areas_sorted_and_exact (now : Z) (s : app.session) :
  (forall t v, app.s_areas_cache s = Some (t, v) -> now < t + 60 ->
               app.cached_distinct_areas now s = (v, s))
  /\ (app.s_areas_cache s = None
      \/ (exists t v, app.s_areas_cache s = Some (t, v) /\ t + 60 <= now) ->
      exists areas,
        app.cached_distinct_areas now s
        = (areas, app.mk_session (app.s_coll s) (Some (now, areas)))
        /\ StronglySorted (fun a b => String.ltb a b = true) areas
        /\ NoDup areas
        /\ forall a, In a areas
                     <-> exists d, In d (app.s_coll s) /\ area d = a)
  /\ area doc_a = "A"%string
  /\ area doc_b = "B"%string
  /\ fst (app.cached_distinct_areas 10
            (app.mk_session [doc_a; doc_b] (Some (0, ["A"%string]))))
     = ["A"%string]
  /\ fst (app.cached_distinct_areas 60
            (app.mk_session [doc_a; doc_b] (Some (0, ["A"%string]))))
     = ["A"%string; "B"%string].
Proof.
  split; [|split; [|repeat split]].
  - intros t v Hc Hlt. unfold app.cached_distinct_areas. rewrite Hc.
    apply Z.ltb_lt in Hlt. now rewrite Hlt.
  - intros Hstale. exists (app._get_distinct_areas (app.s_coll s)).
    split.
    + unfold app.cached_distinct_areas.
      destruct Hstale as [Hc | [t [v [Hc Hle]]]]; rewrite Hc;
        [reflexivity|].
      apply Z.ltb_ge in Hle. now rewrite Hle.
    + unfold app._get_distinct_areas.
      pose proof (NoDup_nodup string_dec (map area (app.s_coll s))) as Hnd.
      split; [now apply sort_string_ascending|].
      split.
      * eapply Permutation_NoDup; [|exact Hnd].
        apply Permutation_sym, sort_perm.
      * intros a. rewrite sort_In, nodup_In, in_map_iff.
        split; intros [d H]; exists d; tauto.
Qed.

(** ** [all_analytics] *)

(** X5. [all_analytics] returns its four results exactly when every
    timestamp of the collection converts, and they are then the results
    of the four functions; one timestamp that does not convert makes the
    whole call raise, although three of the four results do not read
    timestamps. *)
Theorem X5_all_analytics_all_or_nothing
        (toDate : string -> option Z)
        (arrange : forall A : Type, list A -> list A)
        (coll : list document) :
  ((forall d, In d coll -> toDate (timestamp d) <> None)
   <-> exists an, analysis.all_analytics toDate arrange coll = Ok an)
  /\ (forall an,
        analysis.all_analytics toDate arrange coll = Ok an ->
        analysis.area_avg_pm25 an = analysis.area_wise_avg_pm25 arrange coll
        /\ analysis.traffic_density_by_hour toDate arrange coll
           = Ok (analysis.traffic_by_hour an)
        /\ analysis.noise_by_area an = analysis.avg_noise_by_area arrange coll
        /\ analysis.abnormal an = analysis.abnormal_readings coll)
  /\ (forall d, In d coll -> toDate (timestamp d) = None ->
        exists s, toDate s = None
                  /\ analysis.all_analytics toDate arrange coll
                     = Raise (ConversionFailure s)).
Proof.
  unfold analysis.all_analytics, analysis.traffic_density_by_hour.
  split; [split|split].
  - intros Hall.
    destruct (addFields_ts_ok toDate coll Hall) as [l [El _]].
    rewrite El. unfold bind. eexists. reflexivity.
  - intros [an H] d Hd Hnone.
    destruct (addFields_ts_raise toDate coll d Hd Hnone) as [s [E _]].
    rewrite E in H. discriminate.
  - intros an.
    destruct (addFields_ts toDate coll) as [l|e]; unfold bind;
      [|discriminate].
    intros H. injection H as <-. repeat split.
  - intros d Hd Hnone.
    destruct (addFields_ts_raise toDate coll d Hd Hnone) as [s [E Hs]].
    exists s. rewrite E. now split.
Qed.

(** ** The abnormal table and its highlighting *)

Lemma sort_nonempty {A} (le : A -> A -> bool) (l : list A) :
  l <> [] -> sort_ le l <> [].
Proof. intros Hne E. now apply sort_nil_inv in E. Qed.

Section AbnormalTable.

Variable toDate : string -> option Z.
Variable arrange : forall A : Type, list A -> list A.

(** When every timestamp of the population converts, the script reaches
    the abnormal table. *)
Lemma df_ab_reached coll sel :
  (forall d, In d (population sel coll) -> toDate (timestamp d) <> None) ->
  app.df_ab toDate arrange coll sel
  = Ok match app.abnormal coll sel with
       | [] => None
       | r :: rs => Some (firstn 20 (r :: rs))
       end.
Proof.
  intros Hconv.
  destruct (addFields_ts_ok toDate _ Hconv) as [l [El _]].
  unfold app.df_ab, app.get_peak_traffic_hour, app.traffic_by_hour.
  rewrite _match_filter_query, match_filter_query, El. reflexivity.
Qed.

Lemma df_ab_stopped coll sel d :
  In d (population sel coll) -> toDate (timestamp d) = None ->
  exists s, app.df_ab toDate arrange coll sel = Raise (ConversionFailure s).
Proof.
  intros Hd Hnone.
  destruct (addFields_ts_raise toDate _ d Hd Hnone) as [s [E _]].
  exists s. unfold app.df_ab, app.get_peak_traffic_hour.
  rewrite _match_filter_query, E. reflexivity.
Qed.

Lemma df_ab_Some coll sel t :
  app.df_ab toDate arrange coll sel = Ok (Some t) ->
  t = firstn 20 (app.abnormal coll sel).
Proof.
  unfold app.df_ab.
  destruct (app.get_peak_traffic_hour toDate arrange coll sel);
    [|discriminate].
  destruct (app.traffic_by_hour toDate arrange coll sel); [|discriminate].
  unfold bind. destruct (app.abnormal coll sel); [discriminate|].
  intros H. now injection H as <-.
Qed.

End AbnormalTable.

(** X6. The script reaches the abnormal table only when every timestamp
    of the filtered population converts; it stops with the conversion
    error otherwise.  When reached, the table is shown exactly when some
    reading of the population is abnormal, and it then holds the 20 of
    them with the smallest timestamps (all of them when there are
    fewer), smallest first: the 1000-row cut of the listing plays no
    part in what is shown. *)
Theorem X6_abnormal_table_is_the_20_earliest
        (toDate : string -> option Z)
        (arrange : forall A : Type, list A -> list A)
        (coll : list document) (selected_areas : list string) :
  let pop := population selected_areas coll in
  let matching := filter is_abnormal (map project_reading pop) in
  let earlier (a b : reading) :=
    String.leb (r_timestamp a) (r_timestamp b) = true in
  ((exists d, In d pop /\ toDate (timestamp d) = None) ->
   exists s, app.df_ab toDate arrange coll selected_areas
             = Raise (ConversionFailure s))
  /\ ((forall d, In d pop -> toDate (timestamp d) <> None) ->
      (exists shown,
          app.df_ab toDate arrange coll selected_areas = Ok shown
          /\ (shown = None <-> matching = []))
      /\ forall t,
           app.df_ab toDate arrange coll selected_areas = Ok (Some t) ->
           List.length t = Nat.min 20 (List.length matching)
           /\ (forall r, In r t -> is_abnormal r = true)
           /\ StronglySorted earlier t
           /\ exists rest,
                Permutation (t ++ rest) matching
                /\ forall a b, In a t -> In b rest -> earlier a b).
Proof.
  intros pop matching earlier.
  split.
  { intros [d [Hd Hnone]]. now apply (df_ab_stopped toDate arrange coll _ d). }
  intros Hconv.
  assert (Hl : app.abnormal coll selected_areas
               = firstn 1000 (sort_ by_timestamp_asc matching)).
  { rewrite abnormal_population. apply abnormal_readings_eq. }
  assert (Hss : StronglySorted earlier (sort_ by_timestamp_asc matching)).
  { apply (sort_strongly_sorted by_timestamp_asc).
    - intros a b. apply String.leb_total.
    - intros a b c. apply string_leb_trans. }
  split.
  - rewrite (df_ab_reached toDate arrange coll selected_areas Hconv), Hl.
    eexists. split; [reflexivity|].
    destruct matching as [|x m'] eqn:E; [simpl; tauto|].
    pose proof (sort_nonempty by_timestamp_asc (x :: m')) as Hne.
    destruct (sort_ by_timestamp_asc (x :: m')) as [|y t'];
      [exfalso; now apply Hne|].
    simpl. split; discriminate.
  - intros t Ht. apply df_ab_Some in Ht. rewrite Hl in Ht. subst t.
    rewrite firstn_firstn. change (Nat.min 20 1000) with 20%nat.
    split; [now rewrite length_firstn, sort_length|].
    split.
    { intros x Hx. apply (limit_In 20), sort_In, filter_In in Hx.
      now destruct Hx. }
    split; [now apply StronglySorted_firstn|].
    exists (skipn 20 (sort_ by_timestamp_asc matching)). split.
    + rewrite firstn_skipn. apply sort_perm.
    + apply StronglySorted_app_inv. now rewrite firstn_skipn.
Qed.

(** The columns of a frame are the keys its rows have. *)
Lemma frame_columns_In (rows : list reading) (k : string) :
  In k (app.frame_columns rows)
  <-> exists r, In r rows /\ In k (app.keys r).
Proof.
  unfold app.frame_columns.
  assert (H : forall acc,
            In k (fold_left
                    (fun cols row =>
                       List.app cols
                         (filter (fun k' => negb (existsb (String.eqb k') cols))
                                 (app.keys row)))
                    rows acc)
            <-> In k acc \/ exists r, In r rows /\ In k (app.keys r)).
  { induction rows as [|r rows IH]; intros acc; cbn [fold_left].
    - split; [auto|]. intros [H|[r [[] _]]]. exact H.
    - rewrite IH, in_app_iff, filter_In. split.
      + intros [[H|[H _]]|[r' [Hr' Hk]]].
        * now left.
        * right. exists r. split; [now left | assumption].
        * right. exists r'. split; [now right | assumption].
      + intros [H|[r' [[<-|Hr'] Hk]]];
          [now left; left | | right; now exists r'].
        destruct (existsb (String.eqb k) acc) eqn:E.
        * left. left. apply existsb_exists in E.
          destruct E as [x [Hx Ex]]. apply String.eqb_eq in Ex. now subst.
        * left. right. split; [assumption|]. reflexivity. }
  rewrite H. simpl. split; [intros [[]|H']; exact H' | auto].
Qed.

Lemma nth_map_nth_error {A B} (f : A -> B) (l : list A) i x d :
  nth_error l i = Some x -> nth i (map f l) d = f x.
Proof.
  revert i. induction l as [|a l IH]; intros [|i]; simpl; try discriminate.
  - intros H. now injection H as <-.
  - apply IH.
Qed.

(** One cell's style. *)
Lemma _style_cell (index : list string) (r : reading) i col :
  nth_error index i = Some col ->
  (nth i (app._style index r) EmptyString <> EmptyString
   <-> (col = "noise_db"%string /\ exists v, r_noise_db r = Some v /\ v > 85)
       \/ (col = "traffic_count"%string
           /\ exists v, r_traffic_count r = Some v /\ v > 150)
       \/ (col = "pm25"%string /\ exists v, r_pm25 r = Some v /\ v > 100)).
Proof.
  intros Hcol.
  assert (Hgt : forall (v : option Z) (k : Z),
            app.exceeds v k = true <-> exists z, v = Some z /\ z > k).
  { intros v k. destruct v as [z|]; simpl.
    - rewrite Z.ltb_lt. split.
      + intros H. exists z. split; [reflexivity|lia].
      + intros [z' [H Hz]]. injection H as <-. lia.
    - split; [discriminate|]. intros [z [H _]]. discriminate. }
  unfold app._style.
  rewrite (nth_map_nth_error _ index i col EmptyString Hcol). clear Hcol.
  rewrite <- !Hgt. unfold app.number_in.
  destruct (String.eqb_spec col "pm25") as [->|Hp].
  { simpl. destruct (app.exceeds (r_pm25 r) 100); simpl.
    - split; [intros _; right; right; now split | discriminate].
    - split; [congruence|].
      intros [[H _]|[[H _]|[_ H]]]; discriminate. }
  destruct (String.eqb_spec col "noise_db") as [->|Hn].
  { simpl. destruct (app.exceeds (r_noise_db r) 85); simpl.
    - split; [intros _; left; now split | discriminate].
    - split; [congruence|].
      intros [[_ H]|[[H _]|[H _]]]; discriminate. }
  destruct (String.eqb_spec col "traffic_count") as [->|Ht].
  { simpl. destruct (app.exceeds (r_traffic_count r) 150); simpl.
    - split; [intros _; right; left; now split | discriminate].
    - split; [congruence|].
      intros [[H _]|[[_ H]|[H _]]]; discriminate. }
  simpl. split; [congruence|].
  intros [[H _]|[[H _]|[H _]]]; contradiction.
Qed.

Lemma keys_present (r : reading) :
  (forall v, r_noise_db r = Some v -> In "noise_db"%string (app.keys r))
  /\ (forall v, r_traffic_count r = Some v ->
                In "traffic_count"%string (app.keys r))
  /\ (forall v, r_pm25 r = Some v -> In "pm25"%string (app.keys r)).
Proof.
  unfold app.keys.
  destruct (r_noise_db r), (r_traffic_count r), (r_pm25 r);
    repeat split; intros v H; try discriminate; simpl; tauto.
Qed.

(** In the frame it belongs to, a row has a highlighted cell exactly
    when it is abnormal. *)
Lemma _style_abnormal (rows : list reading) (r : reading) :
  In r rows ->
  (Exists (fun s => s <> EmptyString)
          (app._style (app.frame_columns rows) r)
   <-> is_abnormal r = true).
Proof.
  intros Hr.
  assert (Hgt : forall (v : option Z) (k : Z),
            match v with Some z => k <? z | None => false end = true
            <-> exists z, v = Some z /\ z > k).
  { intros v k. destruct v as [z|].
    - rewrite Z.ltb_lt. split.
      + intros H. exists z. split; [reflexivity|lia].
      + intros [z' [H Hz]]. injection H as <-. lia.
    - split; [discriminate|]. intros [z [H _]]. discriminate. }
  unfold is_abnormal. rewrite !orb_true_iff, !Hgt.
  rewrite Exists_nth. split.
  - intros [i [d [Hi Hne]]]. rewrite (nth_indep _ d EmptyString Hi) in Hne.
    unfold app._style in Hi. rewrite length_map in Hi.
    destruct (nth_error (app.frame_columns rows) i) as [col|] eqn:E;
      [|apply nth_error_None in E; lia].
    apply (_style_cell _ r i col E) in Hne. tauto.
  - assert (Hcol : forall col,
              In col (app.frame_columns rows) ->
              exists i, nth_error (app.frame_columns rows) i = Some col).
    { intros col Hin. now apply In_nth_error. }
    assert (Hin : forall col, In col (app.keys r) ->
                              In col (app.frame_columns rows)).
    { intros col Hk. apply frame_columns_In. now exists r. }
    destruct (keys_present r) as [Kn [Kt Kp]].
    intros H.
    assert (Hex : exists col,
              In col (app.frame_columns rows)
              /\ ((col = "noise_db"%string
                   /\ exists v, r_noise_db r = Some v /\ v > 85)
                  \/ (col = "traffic_count"%string
                      /\ exists v, r_traffic_count r = Some v /\ v > 150)
                  \/ (col = "pm25"%string
                      /\ exists v, r_pm25 r = Some v /\ v > 100))).
    { destruct H as [[[v [Hv Hgtv]]|[v [Hv Hgtv]]]|[v [Hv Hgtv]]].
      - exists "noise_db"%string. split; [eapply Hin, Kn, Hv|].
        left. split; [reflexivity|]. now exists v.
      - exists "traffic_count"%string. split; [eapply Hin, Kt, Hv|].
        right. left. split; [reflexivity|]. now exists v.
      - exists "pm25"%string. split; [eapply Hin, Kp, Hv|].
        right. right. split; [reflexivity|]. now exists v. }
    destruct Hex as [col [Hc Hcase]].
    destruct (Hcol col Hc) as [i Hi].
    exists i, EmptyString. split.
    + unfold app._style. rewrite length_map.
      apply nth_error_Some. congruence.
    + now apply (_style_cell _ r i col Hi).
Qed.

(** X7. The styles of a row, one per column of its frame: a cell is
    highlighted exactly when its column is [noise_db], [traffic_count]
    or [pm25] and the row's value there is above 85, 150 or 100, so the
    text columns never are and a missing value never is.  In the frame
    built from the rows, a row has a highlighted cell exactly when the
    reading is abnormal, and every row of the abnormal table shows at
    least one. *)
Theorem X7_highlight_matches_detection
        (toDate : string -> option Z)
        (arrange : forall A : Type, list A -> list A)
        (coll : list document) (selected_areas : list string) :
  (forall index r,
     List.length (app._style index r) = List.length index
     /\ forall i col,
          nth_error index i = Some col ->
          (nth i (app._style index r) EmptyString <> EmptyString
           <-> (col = "noise_db"%string
                /\ exists v, r_noise_db r = Some v /\ v > 85)
               \/ (col = "traffic_count"%string
                   /\ exists v, r_traffic_count r = Some v /\ v > 150)
               \/ (col = "pm25"%string
                   /\ exists v, r_pm25 r = Some v /\ v > 100)))
  /\ (forall rows r,
        In r rows ->
        (Exists (fun s => s <> EmptyString)
                (app._style (app.frame_columns rows) r)
         <-> is_abnormal r = true))
  /\ (forall t r,
        app.df_ab toDate arrange coll selected_areas = Ok (Some t) ->
        In r t ->
        Exists (fun s => s <> EmptyString)
               (app._style
                  (app.frame_columns (app.abnormal coll selected_areas)) r))
  /\ app.frame_columns [project_reading doc_no_pm25]
     = ["sensor_id"; "area"; "timestamp"; "noise_db"; "traffic_count"]%string
  /\ app._style (app.frame_columns [project_reading doc_no_pm25])
                (project_reading doc_no_pm25)
     = [""; ""; ""; ""; "background-color: #ffe0e0"]%string.
Proof.
  split.
  { intros index r. split; [apply length_map|].
    intros i col. apply _style_cell. }
  split; [intros rows r; apply _style_abnormal|].
  split; [|split; reflexivity].
  intros t r Ht Hr. apply df_ab_Some in Ht. subst t.
  apply (limit_In 20) in Hr.
  apply _style_abnormal; [exact Hr|].
  rewrite abnormal_population in Hr.
  now apply abnormal_readings_In in Hr.
Qed.

(** ** Recent inserts *)

Lemma StronglySorted_map {A B} (f : A -> B) (R : A -> A -> Prop)
      (R' : B -> B -> Prop) (l : list A) :
  (forall a b, R a b -> R' (f a) (f b)) ->
  StronglySorted R l -> StronglySorted R' (map f l).
Proof.
  intros Hf. induction 1 as [|x t Hs IH Hall]; simpl; constructor.
  - exact IH.
  - rewrite Forall_forall in *. intros y Hy.
    apply in_map_iff in Hy. destruct Hy as [a [<- Ha]]. now apply Hf, Hall.
Qed.

(** X8. The "recent inserts" table holds the 10 documents of the whole
    collection with the latest timestamps (all of them when there are
    fewer), latest first; the area selection does not narrow it. *)
Theorem X8_recent_docs_are_the_10_latest (coll : list document) :
  let later (a b : reading) :=
    String.leb (r_timestamp b) (r_timestamp a) = true in
  List.length (app.recent_docs coll) = Nat.min 10 (List.length coll)
  /\ StronglySorted later (app.recent_docs coll)
  /\ exists rest,
       Permutation (app.recent_docs coll ++ rest) (map project_reading coll)
       /\ forall a b, In a (app.recent_docs coll) -> In b rest -> later a b.
Proof.
  intros later. unfold app.recent_docs, limit.
  assert (Hss : StronglySorted
                  (fun a b => app.by_timestamp_desc a b = true)
                  (sort_ app.by_timestamp_desc coll)).
  { apply sort_strongly_sorted; unfold app.by_timestamp_desc.
    - intros a b. apply String.leb_total.
    - intros a b c H1 H2. now apply string_leb_trans with (timestamp b). }
  assert (Hmap : StronglySorted later
                   (map project_reading (sort_ app.by_timestamp_desc coll))).
  { revert Hss. apply StronglySorted_map. intros a b H. exact H. }
  split; [now rewrite length_map, length_firstn, sort_length|].
  split.
  - rewrite <- firstn_map. now apply StronglySorted_firstn.
  - exists (map project_reading
              (skipn 10 (sort_ app.by_timestamp_desc coll))).
    split.
    + rewrite <- map_app, firstn_skipn.
      apply Permutation_map, sort_perm.
    + apply StronglySorted_app_inv.
      now rewrite <- map_app, firstn_skipn.
Qed.

(** ** The traffic chart's table *)

Lemma filter_key_at_most_one (rows : list (agg_row Z)) (h : Z) :
  NoDup (map row_key rows) ->
  (List.length (filter (fun r => Z.eqb (row_key r) h) rows) <= 1)%nat.
Proof.
  induction rows as [|r rows IH]; simpl; intros Hnd; [lia|].
  inversion Hnd as [|? ? Hnotin Hnd']; subst.
  destruct (row_key r =? h) eqn:E; [|now apply IH].
  apply Z.eqb_eq in E. simpl.
  assert (Hnil : filter (fun r' => row_key r' =? h) rows = []).
  { destruct (filter (fun r' => row_key r' =? h) rows) as [|x t] eqn:Ef;
      [reflexivity|].
    exfalso. apply Hnotin.
    assert (Hx : In x (filter (fun r' => row_key r' =? h) rows))
      by (rewrite Ef; now left).
    apply filter_In in Hx. destruct Hx as [Hx Hk].
    apply Z.eqb_eq in Hk. rewrite E, <- Hk. now apply in_map. }
  rewrite Hnil. simpl. lia.
Qed.

Lemma df_tr_full_hours (rows : list (agg_row Z)) :
  NoDup (map row_key rows) ->
  map fst (app.df_tr_full rows) = map Z.of_nat (seq 0 24).
Proof.
  intros Hnd. unfold app.df_tr_full.
  induction (map Z.of_nat (seq 0 24)) as [|h hs IH]; [reflexivity|].
  cbn [flat_map]. rewrite map_app, IH.
  change (h :: hs) with ([h] ++ hs). f_equal.
  pose proof (filter_key_at_most_one rows h Hnd) as Hle.
  destruct (filter (fun r => row_key r =? h) rows) as [|r [|r' rs]];
    simpl in *; try reflexivity. lia.
Qed.

Lemma df_tr_full_row (rows : list (agg_row Z)) (r : agg_row Z) :
  In r rows -> 0 <= row_key r < 24 ->
  In (row_key r, match row_avg r with Some q => q | None => inject_Z 0 end)
     (app.df_tr_full rows).
Proof.
  intros Hin Hrange. unfold app.df_tr_full. apply in_flat_map.
  exists (row_key r). split.
  - apply in_map_iff. exists (Z.to_nat (row_key r)). split; [lia|].
    apply in_seq. lia.
  - assert (Hf : In r (filter (fun r' => row_key r' =? row_key r) rows)).
    { apply filter_In. split; [assumption | apply Z.eqb_refl]. }
    destruct (filter (fun r' => row_key r' =? row_key r) rows) as [|x t];
      [contradiction|].
    apply in_map_iff. exists r. now split.
Qed.

Lemma df_tr_full_gap (rows : list (agg_row Z)) (h : Z) :
  0 <= h < 24 -> ~ In h (map row_key rows) ->
  In (h, inject_Z 0) (app.df_tr_full rows).
Proof.
  intros Hrange Hnot. unfold app.df_tr_full. apply in_flat_map.
  exists h. split.
  - apply in_map_iff. exists (Z.to_nat h). split; [lia|].
    apply in_seq. lia.
  - destruct (filter (fun r => row_key r =? h) rows) as [|x t] eqn:Ef;
      [now left|].
    exfalso. apply Hnot.
    assert (Hx : In x (filter (fun r => row_key r =? h) rows))
      by (rewrite Ef; now left).
    apply filter_In in Hx. destruct Hx as [Hx Hk].
    apply Z.eqb_eq in Hk. rewrite <- Hk. now apply in_map.
Qed.

(** X9. When the hourly result is returned and is not empty, the traffic
    chart's table has exactly 24 rows, for the hours 0 to 23 in order:
    an hour of the hourly result shows that hour's average (0 if the
    average is null), no row of the hourly result is lost, and an hour
    with no matching reading shows 0. *)
Theorem X9_traffic_chart_has_24_hours
        (toDate : string -> option Z)
        (arrange : forall A : Type, list A -> list A)
        (coll : list document) (selected_areas : list string)
        (rows : list (agg_row Z)) :
  (forall A (l : list A), Permutation (arrange A l) l) ->
  app.traffic_by_hour toDate arrange coll selected_areas = Ok rows ->
  rows <> [] ->
  exists table,
    app.traffic_chart toDate arrange coll selected_areas = Ok (Some table)
    /\ map fst table = map Z.of_nat (seq 0 24)
    /\ List.length table = 24%nat
    /\ (forall r, In r rows ->
          In (row_key r,
              match row_avg r with Some q => q | None => inject_Z 0 end)
             table)
    /\ (forall h, 0 <= h < 24 -> ~ In h (map row_key rows) ->
          In (h, inject_Z 0) table).
Proof.
  intros arrange_perm Hrows Hne.
  assert (Hprops : NoDup (map row_key rows)
                   /\ forall r, In r rows -> 0 <= row_key r < 24).
  { revert Hrows. unfold app.traffic_by_hour. rewrite match_filter_query.
    destruct (addFields_ts toDate (population selected_areas coll))
      as [l|e] eqn:El; unfold bind; [|discriminate].
    intros H. injection H as <-. split.
    - apply (rows_NoDup Z.eqb _ _ Z.eqb_eq arrange arrange_perm).
    - intros r Hr. apply (in_map row_key) in Hr.
      now apply (hourly_keys toDate arrange _ l _ arrange_perm El) in Hr. }
  destruct Hprops as [Hnd Hrange].
  exists (app.df_tr_full rows).
  split.
  { unfold app.traffic_chart. rewrite Hrows. unfold bind.
    destruct rows; [contradiction|reflexivity]. }
  split; [now apply df_tr_full_hours|].
  split.
  { rewrite <- (length_map fst), df_tr_full_hours by assumption.
    reflexivity. }
  split.
  - intros r Hr. apply df_tr_full_row; [assumption | now apply Hrange].
  - intros h. now apply df_tr_full_gap.
Qed.

Lemma X9_traffic_chart_has_24_hours_witness :
  (forall A (l : list A), Permutation (first_seen A l) l)
  /\ app.traffic_by_hour iso_toDate first_seen [doc_a; doc_b] []
     = Ok [mk_row 9 (Some (Qmake 2000 100)); mk_row 8 (Some (Qmake 3000 100))]
  /\ exists table,
       app.traffic_chart iso_toDate first_seen [doc_a; doc_b] []
       = Ok (Some table)
       /\ List.length table = 24%nat.
Proof.
  split; [exact first_seen_perm|]. split; [reflexivity|].
  destruct (X9_traffic_chart_has_24_hours iso_toDate first_seen
              [doc_a; doc_b] []
              [mk_row 9 (Some (Qmake 2000 100));
               mk_row 8 (Some (Qmake 3000 100))]
              first_seen_perm eq_refl ltac:(discriminate))
    as [table [E [_ [Hlen _]]]].
  exists table. now split.
Defined.

(** ** Manual data entry *)

Lemma lstrip_step s :
  lstrip s = match space_prefix s with Some r => lstrip r | None => s end.
Proof.
  destruct s as [|c1 [|c2 [|c3 t3]]]; simpl; try reflexivity.
  - now destruct (is_space1 c1).
  - destruct (is_space1 c1); [reflexivity|]. now destruct (is_space2 c1 c2).
  - destruct (is_space1 c1); [reflexivity|].
    destruct (is_space2 c1 c2); [reflexivity|].
    now destruct (is_space3 c1 c2 c3).
Qed.

Lemma space_prefix_table w r : In w whitespace -> space_prefix (w ++ r) = Some r.
Proof.
  intros H. unfold whitespace in H. simpl in H.
  repeat (destruct H as [<-|H]; [reflexivity|]). contradiction.
Qed.

Ltac all_bytes c := destruct c as [[|] [|] [|] [|] [|] [|] [|] [|]].

Lemma is_space1_table c : is_space1 c = true -> In (String c EmptyString) whitespace.
Proof.
  all_bytes c; intros H; try discriminate H; vm_compute; tauto.
Qed.

Lemma is_space2_table c1 c2 :
  is_space2 c1 c2 = true -> In (String c1 (String c2 EmptyString)) whitespace.
Proof.
  unfold is_space2. intros H. apply andb_prop in H. destruct H as [H1 H2].
  apply N.eqb_eq in H1.
  rewrite <- (ascii_N_embedding c1), H1.
  apply orb_prop in H2. destruct H2 as [H2|H2]; apply N.eqb_eq in H2;
    rewrite <- (ascii_N_embedding c2), H2; vm_compute; tauto.
Qed.

Lemma is_space3_table c1 c2 c3 :
  is_space3 c1 c2 c3 = true ->
  In (String c1 (String c2 (String c3 EmptyString))) whitespace.
Proof.
  intros H.
  assert (H1 : N_of_ascii c1 = 225%N \/ N_of_ascii c1 = 226%N
               \/ N_of_ascii c1 = 227%N).
  { unfold is_space3 in H.
    destruct (N_of_ascii c1) as [|p]; [discriminate|].
    do 8 (destruct p as [p|p|]; try discriminate H); auto. }
  destruct H1 as [H1|[H1|H1]]; apply (f_equal ascii_of_N) in H1;
    rewrite ascii_N_embedding in H1; subst c1.
  - change (is_space3 (ascii_of_N 225) c2 c3)
      with ((N_of_ascii c2 =? 154)%N && (N_of_ascii c3 =? 128)%N) in H.
    apply andb_prop in H. destruct H as [H2 H3].
    apply N.eqb_eq in H2, H3.
    rewrite <- (ascii_N_embedding c2), <- (ascii_N_embedding c3), H2, H3.
    vm_compute. tauto.
  - change (is_space3 (ascii_of_N 226) c2 c3)
      with (((N_of_ascii c2 =? 128)
             && ((128 <=? N_of_ascii c3) && (N_of_ascii c3 <=? 138)
                 || (N_of_ascii c3 =? 168) || (N_of_ascii c3 =? 169)
                 || (N_of_ascii c3 =? 175))
             || (N_of_ascii c2 =? 129) && (N_of_ascii c3 =? 159))%N) in H.
    apply orb_prop in H. destruct H as [H|H];
      apply andb_prop in H; destruct H as [H2 H3]; apply N.eqb_eq in H2;
      rewrite <- (ascii_N_embedding c2), H2; clear H2;
      all_bytes c3; try discriminate H3; vm_compute; tauto.
  - change (is_space3 (ascii_of_N 227) c2 c3)
      with ((N_of_ascii c2 =? 128)%N && (N_of_ascii c3 =? 128)%N) in H.
    apply andb_prop in H. destruct H as [H2 H3].
    apply N.eqb_eq in H2, H3.
    rewrite <- (ascii_N_embedding c2), <- (ascii_N_embedding c3), H2, H3.
    vm_compute. tauto.
Qed.

Lemma space_prefix_spec s r :
  space_prefix s = Some r <-> exists w, In w whitespace /\ s = (w ++ r)%string.
Proof.
  split.
  - destruct s as [|c1 t1]; simpl; [discriminate|].
    destruct (is_space1 c1) eqn:E1.
    { intros H. injection H as <-. exists (String c1 EmptyString).
      split; [now apply is_space1_table | reflexivity]. }
    destruct t1 as [|c2 t2]; [discriminate|].
    destruct (is_space2 c1 c2) eqn:E2.
    { intros H. injection H as <-. exists (String c1 (String c2 EmptyString)).
      split; [now apply is_space2_table | reflexivity]. }
    destruct t2 as [|c3 t3]; [discriminate|].
    destruct (is_space3 c1 c2 c3) eqn:E3; [|discriminate].
    intros H. injection H as <-.
    exists (String c1 (String c2 (String c3 EmptyString))).
    split; [now apply is_space3_table | reflexivity].
  - intros [w [Hw ->]]. now apply space_prefix_table.
Qed.

Lemma space_prefix_shorter s r :
  space_prefix s = Some r -> (String.length r < String.length s)%nat.
Proof.
  destruct s as [|c1 [|c2 [|c3 t3]]]; simpl; try discriminate.
  - destruct (is_space1 c1); [|discriminate].
    intros H. injection H as <-. simpl. lia.
  - destruct (is_space1 c1); [intros H; injection H as <-; simpl; lia|].
    destruct (is_space2 c1 c2); [|discriminate].
    intros H. injection H as <-. simpl. lia.
  - destruct (is_space1 c1); [intros H; injection H as <-; simpl; lia|].
    destruct (is_space2 c1 c2); [intros H; injection H as <-; simpl; lia|].
    destruct (is_space3 c1 c2 c3); [|discriminate].
    intros H. injection H as <-. simpl. lia.
Qed.

Lemma by_length (P : string -> Prop) :
  (forall s, (forall r, (String.length r < String.length s)%nat -> P r) -> P s) ->
  forall s, P s.
Proof.
  intros step s.
  assert (H : forall n r, (String.length r < n)%nat -> P r).
  { induction n as [|n IH]; intros r Hr; [lia|].
    apply step. intros r' Hr'. apply IH. lia. }
  apply (H (S (String.length s))). lia.
Qed.

(** What [lstrip] returns does not start with white space. *)
Lemma lstrip_done s : space_prefix (lstrip s) = None.
Proof.
  induction s as [s IH] using by_length.
  rewrite lstrip_step. destruct (space_prefix s) as [r|] eqn:E.
  - apply IH. now apply space_prefix_shorter.
  - exact E.
Qed.

Lemma lstrip_idempotent s : lstrip (lstrip s) = lstrip s.
Proof. rewrite (lstrip_step (lstrip s)). now rewrite lstrip_done. Qed.

Lemma whitespace_nonempty w : In w whitespace -> (0 < String.length w)%nat.
Proof.
  intros Hw. unfold whitespace in Hw. simpl in Hw.
  repeat (destruct Hw as [<-|Hw]; [simpl; lia|]). contradiction.
Qed.

Lemma string_length_append (a b : string) :
  String.length (a ++ b) = (String.length a + String.length b)%nat.
Proof. induction a as [|c a IH]; simpl; [|rewrite IH]; reflexivity. Qed.

Lemma lstrip_white s : lstrip s = EmptyString <-> white s.
Proof.
  split.
  - induction s as [s IH] using by_length.
    rewrite lstrip_step. destruct (space_prefix s) as [r|] eqn:E.
    + intros H. apply space_prefix_spec in E. destruct E as [w [Hw ->]].
      apply white_cons; [assumption|]. apply IH; [|assumption].
      rewrite string_length_append.
      pose proof (whitespace_nonempty w Hw). lia.
    + intros ->. constructor.
  - induction 1 as [|w s Hw Hs IH]; [reflexivity|].
    now rewrite lstrip_step, (space_prefix_table w s Hw).
Qed.

Lemma rstrip_empty s : rstrip s = EmptyString <-> lstrip s = EmptyString.
Proof.
  destruct s as [|c t]; [simpl; tauto|].
  cbn [rstrip]. unfold blank.
  destruct (lstrip (String c t)); split; intros H; try reflexivity;
    discriminate.
Qed.

(** A string strips to nothing exactly when it is made of white space. *)
Lemma strip_empty s : strip s = EmptyString <-> white s.
Proof.
  unfold strip. now rewrite rstrip_empty, lstrip_idempotent, lstrip_white.
Qed.

Example strip_nbsp : strip (utf8 [194; 160]%N) = EmptyString.
Proof. reflexivity. Qed.
Example strip_mixed : strip (utf8 [32; 226; 128; 175; 97; 32; 98; 194; 133; 10]%N) = "a b"%string.
Proof. reflexivity. Qed.
Example strip_keeps : strip (utf8 [194; 161]%N) = utf8 [194; 161]%N.
Proof. reflexivity. Qed.

Lemma cached_distinct_areas_fresh now coll :
  fst (app.cached_distinct_areas now (app.mk_session coll None))
  = app._get_distinct_areas coll.
Proof. reflexivity. Qed.

(** X10. Submitting the entry form: when the area left after stripping
    is empty (a new area typed as white space only, be it a no-break
    space) nothing is inserted and the session is unchanged; otherwise
    exactly one document is appended, carrying all three measurements,
    and the cached list of areas is dropped, so that the next list of
    areas, whenever it is asked for, holds the new document's area and
    every area already in the collection. *)
Theorem X10_submit_appends_one_document_or_nothing
        (fresh_id : N) (fresh_uuid : string) (f : app.form)
        (s : app.session) :
  let doc := app.insert_doc fresh_id fresh_uuid f in
  (area doc = EmptyString ->
   app.submit fresh_id fresh_uuid f s = (app.AreaRequired, s))
  /\ (area doc <> EmptyString ->
      app.submit fresh_id fresh_uuid f s
      = (app.Inserted doc, app.mk_session (app.s_coll s ++ [doc]) None)
      /\ noise_db doc = Some (app.noise_val f)
      /\ traffic_count doc = Some (app.traffic_val f)
      /\ pm25 doc = Some (app.pm25_val f)
      /\ forall now,
           let areas :=
             fst (app.cached_distinct_areas now
                    (snd (app.submit fresh_id fresh_uuid f s))) in
           In (area doc) areas
           /\ forall d, In d (app.s_coll s) -> In (area d) areas)
  /\ (app.area_choice f = app.type_new ->
      (area doc = EmptyString <-> white (app.new_area_input f)))
  /\ (app.area_choice f <> app.type_new -> area doc = app.area_choice f)
  /\ app.submit fresh_id fresh_uuid
        (app.mk_form app.type_new (utf8 [194; 160]%N) EmptyString
                     (2024, 3, 1) (9, 5) 70 80 60) s
     = (app.AreaRequired, s).
Proof.
  intros doc.
  assert (Hm : noise_db doc = Some (app.noise_val f)
               /\ traffic_count doc = Some (app.traffic_val f)
               /\ pm25 doc = Some (app.pm25_val f)).
  { unfold doc, app.insert_doc.
    destruct (app.ts_date f) as [[y m] d], (app.ts_time f) as [hh mm].
    repeat split. }
  assert (Harea : area doc
                  = if String.eqb (app.area_choice f) app.type_new
                    then strip (app.new_area_input f)
                    else app.area_choice f).
  { unfold doc, app.insert_doc.
    destruct (app.ts_date f) as [[y m] d], (app.ts_time f) as [hh mm].
    simpl. now destruct (String.eqb (app.area_choice f) app.type_new). }
  split; [|split; [|split; [|split; [|reflexivity]]]].
  - intros E. unfold app.submit. fold doc. now rewrite E.
  - intros Hne.
    assert (Hsub : app.submit fresh_id fresh_uuid f s
                   = (app.Inserted doc,
                      app.mk_session (app.s_coll s ++ [doc]) None)).
    { unfold app.submit. fold doc.
      destruct (area doc); [contradiction|reflexivity]. }
    split; [exact Hsub|].
    destruct Hm as [Hn [Ht Hp]]. repeat (split; [assumption|]).
    intros now. rewrite Hsub. simpl snd.
    rewrite cached_distinct_areas_fresh. split.
    + apply distinct_areas_cover, in_or_app. right. now left.
    + intros d Hd. apply distinct_areas_cover, in_or_app. now left.
  - intros Hc. rewrite Harea, Hc, String.eqb_refl. apply strip_empty.
  - intros Hc. rewrite Harea.
    apply String.eqb_neq in Hc. now rewrite Hc.
Qed.

(** ** Timestamps written by the entry form *)

Lemma dchar_compare i j :
  0 <= i < 10 -> 0 <= j < 10 ->
  Ascii.compare (app.dchar i) (app.dchar j) = Z.compare i j.
Proof.
  intros Hi Hj. unfold Ascii.compare, app.dchar.
  rewrite !N_ascii_embedding.
  - rewrite Z2N.inj_compare by lia. apply Z.add_compare_mono_l.
  - lia.
  - lia.
Qed.

Lemma compare_lex2 (a1 a0 b1 b0 : Z) :
  0 <= a0 < 10 -> 0 <= b0 < 10 ->
  match Z.compare a1 b1 with
  | Eq => Z.compare a0 b0
  | ne => ne
  end = Z.compare (10 * a1 + a0) (10 * b1 + b0).
Proof.
  intros Ha Hb. symmetry.
  destruct (Z.compare_spec a1 b1) as [->|H|H].
  - apply Z.add_compare_mono_l.
  - apply Z.compare_lt_iff. lia.
  - apply Z.compare_gt_iff. lia.
Qed.

Lemma pad2_compare a b s t :
  0 <= a < 100 -> 0 <= b < 100 ->
  String.compare (app.pad2 a s) (app.pad2 b t)
  = match Z.compare a b with
    | Eq => String.compare s t
    | ne => ne
    end.
Proof.
  intros Ha Hb. unfold app.pad2. cbn [String.compare].
  pose proof (Z.div_mod a 10 ltac:(lia)) as Ea.
  pose proof (Z.div_mod b 10 ltac:(lia)) as Eb.
  pose proof (Z.mod_pos_bound a 10 ltac:(lia)) as Ra.
  pose proof (Z.mod_pos_bound b 10 ltac:(lia)) as Rb.
  assert (Qa : 0 <= a / 10 < 10)
    by (split; [apply Z.div_pos | apply Z.div_lt_upper_bound]; lia).
  assert (Qb : 0 <= b / 10 < 10)
    by (split; [apply Z.div_pos | apply Z.div_lt_upper_bound]; lia).
  rewrite !dchar_compare by assumption.
  rewrite Ea at 3. rewrite Eb at 3.
  rewrite <- (compare_lex2 (a / 10) (a mod 10) (b / 10) (b mod 10))
    by assumption.
  destruct (Z.compare (a / 10) (b / 10)); reflexivity.
Qed.

Lemma pad4_compare a b s t :
  0 <= a < 10000 -> 0 <= b < 10000 ->
  String.compare (app.pad4 a s) (app.pad4 b t)
  = match Z.compare a b with
    | Eq => String.compare s t
    | ne => ne
    end.
Proof.
  intros Ha Hb. unfold app.pad4. cbn [String.compare].
  assert (Ha1 : 0 <= a / 1000 < 10)
    by (split; [apply Z.div_pos | apply Z.div_lt_upper_bound]; lia).
  assert (Hb1 : 0 <= b / 1000 < 10)
    by (split; [apply Z.div_pos | apply Z.div_lt_upper_bound]; lia).
  pose proof (Z.mod_pos_bound (a / 100) 10 ltac:(lia)) as Ha2.
  pose proof (Z.mod_pos_bound (b / 100) 10 ltac:(lia)) as Hb2.
  pose proof (Z.mod_pos_bound a 100 ltac:(lia)) as Ha3.
  pose proof (Z.mod_pos_bound b 100 ltac:(lia)) as Hb3.
  rewrite !dchar_compare by assumption.
  rewrite pad2_compare by assumption.
  assert (Ea : a = 1000 * (a / 1000) + 100 * (a / 100 mod 10) + a mod 100).
  { pose proof (Z.div_mod a 100 ltac:(lia)).
    pose proof (Z.div_mod (a / 100) 10 ltac:(lia)).
    assert (a / 100 / 10 = a / 1000)
      by (rewrite Z.div_div by lia; reflexivity).
    lia. }
  assert (Eb : b = 1000 * (b / 1000) + 100 * (b / 100 mod 10) + b mod 100).
  { pose proof (Z.div_mod b 100 ltac:(lia)).
    pose proof (Z.div_mod (b / 100) 10 ltac:(lia)).
    assert (b / 100 / 10 = b / 1000)
      by (rewrite Z.div_div by lia; reflexivity).
    lia. }
  symmetry.
  destruct (Z.compare_spec (a / 1000) (b / 1000)) as [E1|H|H].
  - destruct (Z.compare_spec (a / 100 mod 10) (b / 100 mod 10)) as [E2|H|H].
    + destruct (Z.compare_spec (a mod 100) (b mod 100)) as [E3|H|H].
      * assert (Hab : a = b) by lia.
        rewrite Hab at 1. now rewrite Z.compare_refl.
      * replace (Z.compare a b) with Lt; [reflexivity|].
        symmetry. apply Z.compare_lt_iff. lia.
      * replace (Z.compare a b) with Datatypes.Gt; [reflexivity|].
        symmetry. apply Z.compare_gt_iff. lia.
    + replace (Z.compare a b) with Lt; [reflexivity|].
      symmetry. apply Z.compare_lt_iff. lia.
    + replace (Z.compare a b) with Datatypes.Gt; [reflexivity|].
      symmetry. apply Z.compare_gt_iff. lia.
  - replace (Z.compare a b) with Lt; [reflexivity|].
    symmetry. apply Z.compare_lt_iff. lia.
  - replace (Z.compare a b) with Datatypes.Gt; [reflexivity|].
    symmetry. apply Z.compare_gt_iff. lia.
Qed.

Lemma isoformat_minutes_compare y m d hh mm y' m' d' hh' mm' :
  0 <= y < 10000 -> 0 <= m < 100 -> 0 <= d < 100 ->
  0 <= hh < 100 -> 0 <= mm < 100 ->
  0 <= y' < 10000 -> 0 <= m' < 100 -> 0 <= d' < 100 ->
  0 <= hh' < 100 -> 0 <= mm' < 100 ->
  String.compare (app.isoformat_minutes y m d hh mm)
                 (app.isoformat_minutes y' m' d' hh' mm')
  = Z.compare (minute_key y m d hh mm) (minute_key y' m' d' hh' mm').
Proof.
  intros Hy Hm Hd Hhh Hmm Hy' Hm' Hd' Hhh' Hmm'.
  unfold app.isoformat_minutes.
  rewrite pad4_compare by assumption. cbn [String.compare].
  change (Ascii.compare "-" "-") with Eq. cbv iota.
  rewrite pad2_compare by assumption. cbn [String.compare].
  change (Ascii.compare "-" "-") with Eq. cbv iota.
  rewrite pad2_compare by assumption. cbn [String.compare].
  change (Ascii.compare "T" "T") with Eq. cbv iota.
  rewrite pad2_compare by assumption. cbn [String.compare].
  change (Ascii.compare ":" ":") with Eq. cbv iota.
  rewrite pad2_compare by assumption. cbn [String.compare].
  unfold minute_key. symmetry.
  destruct (Z.compare_spec y y') as [->|H|H];
    [|apply Z.compare_lt_iff; lia|apply Z.compare_gt_iff; lia].
  destruct (Z.compare_spec m m') as [->|H|H];
    [|apply Z.compare_lt_iff; lia|apply Z.compare_gt_iff; lia].
  destruct (Z.compare_spec d d') as [->|H|H];
    [|apply Z.compare_lt_iff; lia|apply Z.compare_gt_iff; lia].
  destruct (Z.compare_spec hh hh') as [->|H|H];
    [|apply Z.compare_lt_iff; lia|apply Z.compare_gt_iff; lia].
  destruct (Z.compare_spec mm mm') as [->|H|H];
    [|apply Z.compare_lt_iff; lia|apply Z.compare_gt_iff; lia].
  apply Z.compare_refl.
Qed.

(** X11. Timestamps written by the entry form sort as strings in the
    order of the instants they denote: for two dates and times of day,
    the string of the first is below or equal to the string of the second
    exactly when the first is not later, and the strings are equal only
    for the same date, hour and minute.  The pipelines that sort on
    [timestamp] therefore put such readings in chronological order. *)
Theorem X11_form_timestamps_sort_chronologically
        (y m d hh mm y' m' d' hh' mm' : Z) :
  0 <= y < 10000 -> 1 <= m <= 12 -> 1 <= d <= 31 ->
  0 <= hh < 24 -> 0 <= mm < 60 ->
  0 <= y' < 10000 -> 1 <= m' <= 12 -> 1 <= d' <= 31 ->
  0 <= hh' < 24 -> 0 <= mm' < 60 ->
  String.leb (app.isoformat_minutes y m d hh mm)
             (app.isoformat_minutes y' m' d' hh' mm')
  = (minute_key y m d hh mm <=? minute_key y' m' d' hh' mm')
  /\ (app.isoformat_minutes y m d hh mm
      = app.isoformat_minutes y' m' d' hh' mm'
      <-> y = y' /\ m = m' /\ d = d' /\ hh = hh' /\ mm = mm')
  /\ String.length (app.isoformat_minutes y m d hh mm) = 16%nat.
Proof.
  intros Hy Hm Hd Hhh Hmm Hy' Hm' Hd' Hhh' Hmm'.
  pose proof (isoformat_minutes_compare y m d hh mm y' m' d' hh' mm'
                Hy ltac:(lia) ltac:(lia) ltac:(lia) ltac:(lia)
                Hy' ltac:(lia) ltac:(lia) ltac:(lia) ltac:(lia)) as Hc.
  split; [|split].
  - unfold String.leb, Z.leb. rewrite Hc.
    now destruct (Z.compare (minute_key y m d hh mm)
                            (minute_key y' m' d' hh' mm')).
  - split.
    + intros E. rewrite E in Hc.
      assert (Hrefl : String.compare
                        (app.isoformat_minutes y' m' d' hh' mm')
                        (app.isoformat_minutes y' m' d' hh' mm') = Eq).
      { pose proof (String.compare_antisym
                      (app.isoformat_minutes y' m' d' hh' mm')
                      (app.isoformat_minutes y' m' d' hh' mm')) as HA.
        destruct (String.compare _ _); [reflexivity|discriminate..]. }
      rewrite Hrefl in Hc. symmetry in Hc. apply Z.compare_eq in Hc.
      unfold minute_key in Hc. lia.
    + intros [-> [-> [-> [-> ->]]]]. reflexivity.
  - reflexivity.
Qed.

Lemma X11_form_timestamps_sort_chronologically_witness :
  String.leb (app.isoformat_minutes 2024 3 1 9 5)
             (app.isoformat_minutes 2024 3 1 17 45)
  = (minute_key 2024 3 1 9 5 <=? minute_key 2024 3 1 17 45)
  /\ app.isoformat_minutes 2024 3 1 17 45 = "2024-03-01T17:45"%string.
Proof.
  split; [|reflexivity].
  apply (X11_form_timestamps_sort_chronologically
           2024 3 1 9 5 2024 3 1 17 45); lia.
Defined.

(** ** The loaders *)

Section LoadingProps.

Variable J : Type.
Variable loads : string -> option J.
Variable accepts : list J -> J -> bool.

Lemma insert_ordered_app (l1 l2 stored : list J) :
  insert_ordered accepts (l1 ++ l2) stored
  = let (s1, ok) := insert_ordered accepts l1 stored in
    if ok then insert_ordered accepts l2 s1 else (s1, false).
Proof.
  revert stored. induction l1 as [|d l1 IH]; intros stored; simpl.
  - reflexivity.
  - destruct (accepts stored d); [apply IH|reflexivity].
Qed.

Lemma payload_cons line rest :
  payload (line :: rest)
  = match strip line with
    | EmptyString => payload rest
    | String c l => String c l :: payload rest
    end.
Proof. unfold payload. simpl. now destruct (strip line). Qed.

(** On lines that all decode, the loop over lines is the loop over their
    documents, and goes on with what follows them. *)
Lemma load_loop_decoded good : forall ds tail buffer inserted db,
  decode_all loads (payload good) = Some ds ->
  load_loop loads accepts (good ++ tail) buffer inserted db
  = match batch_loop accepts ds buffer inserted db with
    | (db', Some (buffer', inserted')) =>
        load_loop loads accepts tail buffer' inserted' db'
    | (db', None) => (db', inr None)
    end.
Proof.
  induction good as [|line good IH]; intros ds tail buffer inserted db.
  - simpl. intros H. injection H as <-. reflexivity.
  - rewrite payload_cons. simpl app. cbn [load_loop].
    destruct (strip line) as [|c l]; [apply IH|].
    cbn [decode_all].
    destruct (loads (String c l)) as [d|]; [|discriminate].
    destruct (decode_all loads (payload good)) as [ds'|] eqn:E;
      [|discriminate].
    intros H. injection H as <-. cbn [batch_loop].
    destruct (1000 <=? List.length (buffer ++ [d]))%nat.
    + destruct (insert_many accepts (buffer ++ [d]) db) as [db' [|]];
        [now apply IH|reflexivity].
    + now apply IH.
Qed.

Lemma load_in_batches_decoded lines ds db :
  decode_all loads (payload lines) = Some ds ->
  load_in_batches loads accepts lines db
  = let (db', r) := flush accepts (batch_loop accepts ds [] 0 db) in
    (db', inr r).
Proof.
  intros H. unfold load_in_batches.
  rewrite <- (app_nil_r lines), (load_loop_decoded lines ds [] [] 0%nat db H).
  destruct (batch_loop accepts ds [] 0 db) as [db' [[buffer inserted]|]];
    simpl; [|reflexivity].
  destruct buffer as [|x b]; [reflexivity|].
  now destruct (insert_many accepts (x :: b) db') as [db'' [|]].
Qed.

(** Batching does not show in what is stored: the loop and the last
    flush store what one ordered insert of all the documents stores. *)
Lemma flush_batch_loop_docs ds : forall buffer inserted db,
  let r := flush accepts (batch_loop accepts ds buffer inserted db) in
  db_docs (fst r)
  = fst (insert_ordered accepts (buffer ++ ds) (db_docs db))
  /\ db_indexes (fst r) = db_indexes db
  /\ snd r
     = if snd (insert_ordered accepts (buffer ++ ds) (db_docs db))
       then Some (inserted + List.length (buffer ++ ds))%nat
       else None.
Proof.
  induction ds as [|d ds IH]; intros buffer inserted db; cbn [batch_loop].
  - rewrite app_nil_r. unfold flush.
    destruct buffer as [|x b].
    + simpl. repeat split. f_equal. lia.
    + unfold insert_many.
      destruct (insert_ordered accepts (x :: b) (db_docs db)) as [st [|]];
        simpl; repeat split.
  - replace (buffer ++ d :: ds) with ((buffer ++ [d]) ++ ds)
      by (now rewrite <- app_assoc).
    destruct (1000 <=? List.length (buffer ++ [d]))%nat.
    + rewrite insert_ordered_app. unfold insert_many.
      destruct (insert_ordered accepts (buffer ++ [d]) (db_docs db))
        as [st [|]] eqn:E.
      * specialize (IH [] (inserted + List.length (buffer ++ [d]))%nat
                       (mk_database st (db_indexes db)
                          (db_calls db ++ [buffer ++ [d]]))).
        cbv zeta in IH. simpl app in IH. simpl db_docs in IH.
        simpl db_indexes in IH.
        destruct IH as [H1 [H2 H3]].
        split; [exact H1|]. split; [exact H2|].
        rewrite H3. destruct (snd (insert_ordered accepts ds st));
          [|reflexivity].
        f_equal. rewrite !length_app. simpl. lia.
      * simpl. repeat split.
    + apply IH.
Qed.

(** The calls made: full batches of 1000, then at most one smaller,
    non-empty batch; together, the documents in their order. *)
Lemma flush_batch_loop_calls ds : forall buffer inserted db,
  (List.length buffer < 1000)%nat ->
  let r := flush accepts (batch_loop accepts ds buffer inserted db) in
  exists full last,
    db_calls (fst r) = db_calls db ++ full ++ last
    /\ Forall (fun c => List.length c = 1000%nat) full
    /\ (last = []
        \/ exists c, last = [c] /\ (1 <= List.length c < 1000)%nat)
    /\ (exists rest, buffer ++ ds = List.concat (full ++ last) ++ rest)
    /\ (snd r <> None -> List.concat (full ++ last) = buffer ++ ds).
Proof.
  induction ds as [|d ds IH]; intros buffer inserted db Hlen;
    cbn [batch_loop].
  - unfold flush. destruct buffer as [|x b].
    + exists [], []. simpl. rewrite app_nil_r.
      repeat split; auto. now exists [].
    + unfold insert_many.
      destruct (insert_ordered accepts (x :: b) (db_docs db)) as [st ok].
      exists [], [x :: b]. rewrite app_nil_r.
      assert (Hc : List.concat ([] ++ [x :: b]) = x :: b)
        by (simpl; now rewrite app_nil_r).
      destruct ok; cbn [fst snd]; cbn [db_calls];
        (split; [reflexivity|]); (split; [constructor|]);
        (split; [right; exists (x :: b); split;
                 [reflexivity | simpl in *; lia]|]);
        (split; [exists []; now rewrite Hc, app_nil_r|]);
        intros _; exact Hc.
  - destruct (1000 <=? List.length (buffer ++ [d]))%nat eqn:E.
    + apply Nat.leb_le in E.
      assert (Hfull : List.length (buffer ++ [d]) = 1000%nat)
        by (rewrite length_app in *; simpl in *; lia).
      unfold insert_many.
      destruct (insert_ordered accepts (buffer ++ [d]) (db_docs db))
        as [st [|]].
      * destruct (IH [] (inserted + List.length (buffer ++ [d]))%nat
                     (mk_database st (db_indexes db)
                        (db_calls db ++ [buffer ++ [d]])))
          as [full [last [Hcalls [Hf [Hl [[rest Hrest] Hok]]]]]];
          [simpl; lia|].
        exists ((buffer ++ [d]) :: full), last.
        split; [rewrite Hcalls; cbn [db_calls];
                now rewrite <- app_assoc|].
        split; [now constructor|]. split; [exact Hl|].
        simpl app in Hrest, Hok. split.
        -- exists rest. simpl. rewrite <- !app_assoc. simpl.
           now rewrite <- Hrest.
        -- intros Hs. simpl. rewrite (Hok Hs), <- app_assoc. reflexivity.
      * exists [buffer ++ [d]], []. cbn [fst snd]. cbn [db_calls].
        split; [reflexivity|]. split; [now repeat constructor|].
        split; [now left|]. split.
        -- exists ds. simpl. now rewrite app_nil_r, <- app_assoc.
        -- intros H. now contradiction H.
    + apply Nat.leb_gt in E.
      destruct (IH (buffer ++ [d]) inserted db E)
        as [full [last [Hcalls [Hf [Hl [[rest Hrest] Hok]]]]]].
      exists full, last. split; [exact Hcalls|]. split; [exact Hf|].
      split; [exact Hl|]. split.
      * exists rest. rewrite <- Hrest, <- app_assoc. reflexivity.
      * intros Hs. rewrite (Hok Hs), <- app_assoc. reflexivity.
Qed.

End LoadingProps.

Lemma insert_ordered_extends {J} (accepts : list J -> J -> bool)
      (batch stored : list J) :
  exists kept rest,
    fst (insert_ordered accepts batch stored) = stored ++ kept
    /\ batch = kept ++ rest
    /\ (snd (insert_ordered accepts batch stored) = true -> rest = []).
Proof.
  revert stored. induction batch as [|d batch IH]; intros stored; simpl.
  - exists [], []. now rewrite app_nil_r.
  - destruct (accepts stored d).
    + destruct (IH (stored ++ [d])) as [kept [rest [H1 [H2 H3]]]].
      exists (d :: kept), rest. rewrite H1, <- app_assoc. simpl.
      split; [reflexivity|]. split; [now rewrite H2 | exact H3].
    + exists [], (d :: batch). simpl. rewrite app_nil_r.
      repeat split. discriminate.
Qed.

Lemma insert_ordered_accepting {J} (accepts : list J -> J -> bool)
      (batch stored : list J) :
  (forall st d, accepts st d = true) ->
  insert_ordered accepts batch stored = (stored ++ batch, true).
Proof.
  intros Hall. revert stored.
  induction batch as [|d batch IH]; intros stored; simpl.
  - now rewrite app_nil_r.
  - rewrite Hall, IH, <- app_assoc. reflexivity.
Qed.

Section Accepting.

Variable J : Type.
Variable accepts : list J -> J -> bool.
Hypothesis accepts_all : forall st d, accepts st d = true.

(** With a server that takes every document, the loop ends with the
    documents stored up to the last full batch and the others buffered. *)
Lemma batch_loop_accepting ds : forall buffer inserted (db : database J),
  (List.length buffer < 1000)%nat ->
  exists db' buffer' inserted',
    batch_loop accepts ds buffer inserted db
    = (db', Some (buffer', inserted'))
    /\ db_docs db' ++ buffer' = db_docs db ++ buffer ++ ds
    /\ (List.length buffer' < 1000)%nat
    /\ (exists q, List.length buffer + List.length ds
                  = q * 1000 + List.length buffer')%nat
    /\ db_indexes db' = db_indexes db.
Proof.
  induction ds as [|d ds IH]; intros buffer inserted db Hlen;
    cbn [batch_loop].
  - exists db, buffer, inserted. rewrite app_nil_r.
    repeat split; try assumption. exists 0%nat. simpl. lia.
  - destruct (1000 <=? List.length (buffer ++ [d]))%nat eqn:E.
    + apply Nat.leb_le in E.
      assert (Hfull : List.length buffer = 999%nat)
        by (rewrite length_app in E; simpl in E; lia).
      unfold insert_many.
      rewrite (insert_ordered_accepting accepts _ _ accepts_all).
      destruct (IH [] (inserted + List.length (buffer ++ [d]))%nat
                   (mk_database (db_docs db ++ buffer ++ [d])
                      (db_indexes db) (db_calls db ++ [buffer ++ [d]])))
        as [db' [b' [n' [Hrun [Hdocs [Hb [[q Hq] Hidx]]]]]]];
        [simpl; lia|].
      exists db', b', n'. split; [exact Hrun|].
      split; [rewrite Hdocs; cbn [db_docs]; now rewrite <- !app_assoc|].
      split; [exact Hb|]. split; [|exact Hidx].
      exists (S q). simpl in *. lia.
    + apply Nat.leb_gt in E.
      destruct (IH (buffer ++ [d]) inserted db E)
        as [db' [b' [n' [Hrun [Hdocs [Hb [[q Hq] Hidx]]]]]]].
      exists db', b', n'. split; [exact Hrun|].
      split; [rewrite Hdocs; now rewrite <- !app_assoc|].
      split; [exact Hb|]. split; [|exact Hidx].
      exists q. rewrite length_app in Hq. simpl in *. lia.
Qed.

Lemma stored_up_to_last_full_batch (old stored buffer ds : list J) q :
  stored ++ buffer = old ++ ds ->
  (List.length buffer < 1000)%nat ->
  (List.length ds = q * 1000 + List.length buffer)%nat ->
  stored = old ++ firstn (1000 * (List.length ds / 1000)) ds.
Proof.
  intros Happ Hb Hq.
  assert (Hdiv : (List.length ds / 1000 = q)%nat).
  { rewrite Hq. rewrite Nat.div_add_l by lia.
    rewrite Nat.div_small by assumption. lia. }
  rewrite Hdiv.
  assert (Hlen : (List.length stored = List.length old + 1000 * q)%nat).
  { apply (f_equal (@List.length J)) in Happ.
    rewrite !length_app in Happ. lia. }
  assert (Hs : stored = firstn (List.length stored) (stored ++ buffer)).
  { rewrite firstn_app, Nat.sub_diag, firstn_all. simpl.
    now rewrite app_nil_r. }
  rewrite Hs, Happ, firstn_app, Hlen.
  rewrite firstn_all2 by lia. f_equal. f_equal. lia.
Qed.

End Accepting.

Section Indexes.

Variable J : Type.

Lemma create_index_docs field (db : database J) :
  db_docs (create_index field db) = db_docs db
  /\ db_calls (create_index field db) = db_calls db.
Proof.
  unfold create_index.
  now destruct (existsb _ (db_indexes db)).
Qed.

Lemma create_index_In field (db : database J) name :
  In name (db_indexes (create_index field db))
  <-> In name (db_indexes db) \/ name = (field ++ "_1")%string.
Proof.
  unfold create_index.
  destruct (existsb (String.eqb (field ++ "_1")) (db_indexes db)) eqn:E;
    simpl.
  - split; [tauto|]. intros [H| ->]; [assumption|].
    apply existsb_exists in E. destruct E as [x [Hx Ex]].
    apply String.eqb_eq in Ex. now subst.
  - rewrite in_app_iff. simpl. intuition.
Qed.

Lemma create_index_present field (db : database J) :
  In (field ++ "_1")%string (db_indexes db) -> create_index field db = db.
Proof.
  intros Hin. unfold create_index.
  replace (existsb (String.eqb (field ++ "_1")) (db_indexes db)) with true;
    [reflexivity|].
  symmetry. apply existsb_exists. exists (field ++ "_1")%string.
  split; [assumption | apply String.eqb_refl].
Qed.

Lemma ensure_indexes_docs (db : database J) :
  db_docs (append_city_data.ensure_indexes J db) = db_docs db
  /\ db_calls (append_city_data.ensure_indexes J db) = db_calls db.
Proof.
  unfold append_city_data.ensure_indexes.
  destruct (negb (existsb (String.eqb "city_1") (db_indexes db)));
    destruct (negb (existsb (String.eqb "timestamp_1") (db_indexes db)));
    rewrite ?(proj1 (create_index_docs _ _)),
            ?(proj2 (create_index_docs _ _)); now split.
Qed.

Lemma ensure_indexes_In (db : database J) name :
  In name (db_indexes (append_city_data.ensure_indexes J db))
  <-> In name (db_indexes db)
      \/ name = "city_1"%string \/ name = "timestamp_1"%string.
Proof.
  unfold append_city_data.ensure_indexes.
  destruct (existsb (String.eqb "city_1") (db_indexes db)) eqn:Ec;
    destruct (existsb (String.eqb "timestamp_1") (db_indexes db)) eqn:Et;
    cbn [negb]; rewrite ?create_index_In; cbn [append];
    repeat match goal with
           | H : existsb _ _ = true |- _ =>
               apply existsb_exists in H; destruct H as [? [? H]];
               apply String.eqb_eq in H; subst
           end;
    intuition (subst; auto).
Qed.

End Indexes.

(** X12. [ensure_indexes] leaves the documents alone, keeps every
    index there was, makes sure the [city] and [timestamp] indexes exist
    and adds no other; running it again changes nothing. *)
Theorem X12_ensure_indexes_is_idempotent (J : Type) (db : database J) :
  let db' := append_city_data.ensure_indexes J db in
  append_city_data.ensure_indexes J db' = db'
  /\ db_docs db' = db_docs db
  /\ (forall name, In name (db_indexes db')
                   <-> In name (db_indexes db)
                       \/ name = "city_1"%string
                       \/ name = "timestamp_1"%string)
  /\ exists added, db_indexes db' = db_indexes db ++ added
                   /\ (List.length added <= 2)%nat
                   /\ forall name, In name added ->
                                   ~ In name (db_indexes db).
Proof.
  intros db'.
  assert (Hin : forall name, In name (db_indexes db')
                   <-> In name (db_indexes db)
                       \/ name = "city_1"%string
                       \/ name = "timestamp_1"%string)
    by (intros name; apply ensure_indexes_In).
  split; [|split; [apply ensure_indexes_docs|split; [exact Hin|]]].
  - unfold append_city_data.ensure_indexes at 1.
    assert (Hc : existsb (String.eqb "city_1") (db_indexes db') = true).
    { apply existsb_exists. exists "city_1"%string.
      split; [apply Hin; auto | reflexivity]. }
    assert (Ht : existsb (String.eqb "timestamp_1") (db_indexes db') = true).
    { apply existsb_exists. exists "timestamp_1"%string.
      split; [apply Hin; auto | reflexivity]. }
    now rewrite Hc, Ht.
  - unfold db', append_city_data.ensure_indexes, create_index.
    destruct (existsb (String.eqb "city_1") (db_indexes db)) eqn:Ec;
      destruct (existsb (String.eqb "timestamp_1") (db_indexes db)) eqn:Et;
      cbn [negb append db_indexes]; rewrite ?Ec, ?Et; cbn [db_indexes].
    + exists []. rewrite app_nil_r. repeat split; [simpl; lia|].
      intros name [].
    + exists ["timestamp_1"%string]. repeat split; [simpl; lia|].
      intros name [<-|[]] Hn.
      assert (existsb (String.eqb "timestamp_1") (db_indexes db) = true);
        [|congruence].
      apply existsb_exists. now exists "timestamp_1"%string.
    + exists ["city_1"%string]. repeat split; [simpl; lia|].
      intros name [<-|[]] Hn.
      assert (existsb (String.eqb "city_1") (db_indexes db) = true);
        [|congruence].
      apply existsb_exists. now exists "city_1"%string.
    + replace (existsb (String.eqb "timestamp_1")
                 (db_indexes db ++ ["city_1"%string])) with false.
      * cbn [db_indexes]. exists ["city_1"; "timestamp_1"]%string.
        rewrite <- app_assoc. repeat split; [simpl; lia|].
        intros name [<-|[<-|[]]] Hn.
        -- assert (existsb (String.eqb "city_1") (db_indexes db) = true);
             [|congruence].
           apply existsb_exists. now exists "city_1"%string.
        -- assert (existsb (String.eqb "timestamp_1") (db_indexes db)
                   = true); [|congruence].
           apply existsb_exists. now exists "timestamp_1"%string.
      * symmetry. rewrite existsb_app, Et. reflexivity.
Qed.

(** X13. When every non-blank line decodes, [append_data] stores what
    one ordered insert of all the documents would store: the buffering
    in batches of 1000 does not show, blank lines count for nothing, and
    the documents already in the collection stay in place in front of
    the new ones.  The run completes, with the number of documents
    inserted, exactly when the server refuses none; a refusal stops the
    run with everything before the refused document stored. *)
Theorem X13_append_data_is_one_ordered_insert
        (J : Type) (loads : string -> option J)
        (accepts : list J -> J -> bool)
        (lines : list string) (ds : list J) (db : database J) :
  decode_all loads (payload lines) = Some ds ->
  let r := append_city_data.append_data J loads accepts (Some lines) db in
  db_docs (fst r) = fst (insert_ordered accepts ds (db_docs db))
  /\ snd r = (if snd (insert_ordered accepts ds (db_docs db))
              then Completed (List.length ds) else Failed)
  /\ (exists kept rest, db_docs (fst r) = db_docs db ++ kept
                        /\ ds = kept ++ rest
                        /\ (snd r = Completed (List.length ds) -> rest = []))
  /\ ((forall st d, accepts st d = true) ->
      db_docs (fst r) = db_docs db ++ ds
      /\ snd r = Completed (List.length ds)).
Proof.
  intros Hdec r.
  destruct (flush_batch_loop_docs J accepts ds [] 0%nat db)
    as [Hdocs [Hidx Hsnd]].
  simpl app in Hdocs, Hsnd. simpl Nat.add in Hsnd.
  assert (Hr : db_docs (fst r) = fst (insert_ordered accepts ds (db_docs db))
               /\ snd r = (if snd (insert_ordered accepts ds (db_docs db))
                           then Completed (List.length ds) else Failed)).
  { unfold r, append_city_data.append_data.
    rewrite (load_in_batches_decoded J loads accepts lines ds db Hdec).
    destruct (flush accepts (batch_loop accepts ds [] 0 db)) as [db' o].
    simpl fst in Hdocs. simpl snd in Hsnd. subst o.
    destruct (snd (insert_ordered accepts ds (db_docs db))); simpl.
    - now rewrite (proj1 (ensure_indexes_docs J db')).
    - now split. }
  destruct Hr as [Hd Hs].
  split; [exact Hd|]. split; [exact Hs|]. split.
  - destruct (insert_ordered_extends accepts ds (db_docs db))
      as [kept [rest [H1 [H2 H3]]]].
    exists kept, rest. rewrite Hd. split; [exact H1|].
    split; [exact H2|]. intros Hc. apply H3.
    rewrite Hs in Hc.
    destruct (snd (insert_ordered accepts ds (db_docs db)));
      [reflexivity|discriminate].
  - intros Hall. rewrite Hd, Hs.
    now rewrite (insert_ordered_accepting accepts ds (db_docs db) Hall).
Qed.

Lemma X13_append_data_is_one_ordered_insert_witness :
  decode_all (fun l => Some (String.length l))
             (payload ["  ab "; ""; "   "; "c"]%string)
  = Some [2; 1]%nat
  /\ db_docs (fst (append_city_data.append_data nat
                     (fun l => Some (String.length l)) (fun _ _ => true)
                     (Some ["  ab "; ""; "   "; "c"]%string)
                     (mk_database [7%nat] [] [])))
     = [7; 2; 1]%nat.
Proof.
  split; [reflexivity|].
  apply (X13_append_data_is_one_ordered_insert nat
           (fun l => Some (String.length l)) (fun _ _ => true)
           ["  ab "; ""; "   "; "c"]%string [2; 1]%nat
           (mk_database [7%nat] [] []) eq_refl).
  reflexivity.
Defined.

(** X14. The [insert_many] calls [append_data] makes, when every non-blank
    line decodes: batches of exactly 1000 documents, followed by at most
    one smaller batch that is not empty; an empty batch is never sent.
    In their order the batches are the documents in theirs, all of them
    when the run completes. *)
Theorem X14_batches_of_1000_then_one_partial
        (J : Type) (loads : string -> option J)
        (accepts : list J -> J -> bool)
        (lines : list string) (ds : list J) (db : database J) :
  decode_all loads (payload lines) = Some ds ->
  let r := append_city_data.append_data J loads accepts (Some lines) db in
  exists full last,
    db_calls (fst r) = db_calls db ++ full ++ last
    /\ Forall (fun c => List.length c = 1000%nat) full
    /\ (last = []
        \/ exists c, last = [c] /\ (1 <= List.length c < 1000)%nat)
    /\ (exists rest, ds = List.concat (full ++ last) ++ rest)
    /\ (snd r = Completed (List.length ds) ->
        List.concat (full ++ last) = ds).
Proof.
  intros Hdec r.
  destruct (flush_batch_loop_calls J accepts ds [] 0%nat db)
    as [full [last [Hcalls [Hf [Hl [Hrest Hok]]]]]]; [simpl; lia|].
  destruct (flush_batch_loop_docs J accepts ds [] 0%nat db)
    as [_ [_ Hsnd]].
  simpl app in Hrest, Hok, Hsnd.
  exists full, last.
  assert (Hr : db_calls (fst r)
               = db_calls (fst (flush accepts
                                  (batch_loop accepts ds [] 0 db)))
               /\ (snd r = Completed (List.length ds) ->
                   snd (flush accepts (batch_loop accepts ds [] 0 db))
                   <> None)).
  { unfold r, append_city_data.append_data.
    rewrite (load_in_batches_decoded J loads accepts lines ds db Hdec).
    destruct (flush accepts (batch_loop accepts ds [] 0 db))
      as [db' [n|]]; simpl.
    - split; [apply ensure_indexes_docs | discriminate].
    - split; [reflexivity | discriminate]. }
  destruct Hr as [Hc Hs].
  split; [now rewrite Hc|]. split; [exact Hf|]. split; [exact Hl|].
  split; [exact Hrest|]. intros H. now apply Hok, Hs.
Qed.

Lemma X14_batches_of_1000_then_one_partial_witness :
  decode_all (fun l => Some (String.length l)) (payload ["ab"; "c"]%string)
  = Some [2; 1]%nat
  /\ exists full last,
       db_calls (fst (append_city_data.append_data nat
                        (fun l => Some (String.length l)) (fun _ _ => true)
                        (Some ["ab"; "c"]%string)
                        (mk_database [] [] [])))
       = [] ++ full ++ last
       /\ Forall (fun c => List.length c = 1000%nat) full.
Proof.
  split; [reflexivity|].
  destruct (X14_batches_of_1000_then_one_partial nat
              (fun l => Some (String.length l)) (fun _ _ => true)
              ["ab"; "c"]%string [2; 1]%nat (mk_database [] [] []) eq_refl)
    as [full [last [H1 [H2 _]]]].
  exists full, last. now split.
Defined.

(** A line that does not decode, after lines that do, with a server that
    takes every document: the exception leaves with the full batches
    stored and the buffered documents lost. *)
Lemma load_in_batches_decode_error
      (J : Type) (loads : string -> option J)
      (accepts : list J -> J -> bool)
      (good : list string) (bad : string) (rest : list string)
      (ds : list J) (db : database J) :
  (forall st d, accepts st d = true) ->
  decode_all loads (payload good) = Some ds ->
  strip bad <> EmptyString ->
  loads (strip bad) = None ->
  exists db',
    load_in_batches loads accepts (good ++ bad :: rest) db
    = (db', inl (JSONDecodeError (strip bad)))
    /\ db_docs db'
       = db_docs db ++ firstn (1000 * (List.length ds / 1000)) ds
    /\ db_indexes db' = db_indexes db.
Proof.
  intros Hall Hdec Hne Hbad.
  destruct (batch_loop_accepting J accepts Hall ds [] 0%nat db)
    as [db' [b' [n' [Hrun [Hdocs [Hb [[q Hq] Hidx]]]]]]]; [simpl; lia|].
  exists db'. unfold load_in_batches.
  rewrite (load_loop_decoded J loads accepts good ds (bad :: rest)
             [] 0%nat db Hdec), Hrun.
  cbn [load_loop].
  destruct (strip bad) as [|c l] eqn:E; [contradiction|].
  rewrite Hbad. split; [reflexivity|]. split; [|exact Hidx].
  simpl app in Hdocs. simpl in Hq.
  now apply (stored_up_to_last_full_batch J (db_docs db) (db_docs db')
               b' ds q).
Qed.

(** X15. A line that does not decode ends [append_data] with the
    decoder's exception, which its [except] does not catch.  With a server
    that refuses nothing, what has been stored by then is the documents
    of the full batches of 1000 sent before that line; the documents
    still in the buffer, up to 999 of them, are not inserted, and no
    index is ensured. *)
Theorem X15_decode_error_loses_the_buffered_documents
        (J : Type) (loads : string -> option J)
        (accepts : list J -> J -> bool)
        (good : list string) (bad : string) (rest : list string)
        (ds : list J) (db : database J) :
  (forall st d, accepts st d = true) ->
  decode_all loads (payload good) = Some ds ->
  strip bad <> EmptyString ->
  loads (strip bad) = None ->
  let r := append_city_data.append_data J loads accepts
             (Some (good ++ bad :: rest)) db in
  snd r = Uncaught (JSONDecodeError (strip bad))
  /\ db_docs (fst r)
     = db_docs db ++ firstn (1000 * (List.length ds / 1000)) ds
  /\ db_indexes (fst r) = db_indexes db
  /\ ((List.length ds < 1000)%nat -> db_docs (fst r) = db_docs db).
Proof.
  intros Hall Hdec Hne Hbad r.
  destruct (load_in_batches_decode_error J loads accepts good bad rest ds db
              Hall Hdec Hne Hbad) as [db' [Hrun [Hdocs Hidx]]].
  unfold r, append_city_data.append_data. rewrite Hrun. simpl.
  split; [reflexivity|]. split; [exact Hdocs|]. split; [exact Hidx|].
  intros Hlt. rewrite Hdocs, Nat.div_small by assumption.
  simpl. now rewrite app_nil_r.
Qed.

Lemma X15_decode_error_loses_the_buffered_documents_witness :
  (forall (st : list nat) (d : nat), (fun _ _ => true) st d = true)
  /\ decode_all (fun l => if String.eqb l "?" then None
                          else Some (String.length l))
                (payload ["ab"; " c"]%string)
     = Some [2; 1]%nat
  /\ db_docs (fst (append_city_data.append_data nat
                     (fun l => if String.eqb l "?" then None
                               else Some (String.length l))
                     (fun _ _ => true)
                     (Some (["ab"%string; " c"%string]
                            ++ "? "%string :: ["d"%string])%list)
                     (mk_database [7%nat] [] [])))
     = [7%nat].
Proof.
  split; [reflexivity|]. split; [reflexivity|].
  apply (X15_decode_error_loses_the_buffered_documents nat
           (fun l => if String.eqb l "?" then None
                     else Some (String.length l))
           (fun _ _ => true) ["ab"; " c"]%string "? "%string ["d"%string]
           [2; 1]%nat (mk_database [7%nat] [] [])).
  - reflexivity.
  - reflexivity.
  - discriminate.
  - reflexivity.
  - simpl. lia.
Defined.

(** A line holding only a no-break space is blank: it is skipped and
    never reaches the decoder, which would reject it. *)
Example nbsp_line_is_skipped :
  let loads l := if String.eqb l (utf8 [194; 160]%N) then None
                 else Some (String.length l) in
  let r := append_city_data.append_data nat loads (fun _ _ => true)
             (Some ["ab"%string; utf8 [194; 160]%N; " c"%string])
             (mk_database [7%nat] [] []) in
  loads (utf8 [194; 160]%N) = None
  /\ db_docs (fst r) = [7; 2; 1]%nat
  /\ snd r = Completed 2.
Proof. repeat split. Qed.

(** X16. [setup_mongo] replaces the collection: what it leaves does not
    depend on what the collection held, nor on its [batch_size]
    argument.  When every non-blank line decodes and the server refuses
    nothing, the collection holds exactly the file's documents in
    their order, with the five indexes on area, timestamp, traffic_count,
    noise_db and pm25; [ensure_indexes] afterwards adds the [city] index
    only.  [main] leaves the database untouched when the file does not
    exist, whereas [setup_mongo] itself has dropped the collection by
    the time the missing file is noticed. *)
Theorem X16_setup_mongo_replaces_the_collection
        (J : Type) (loads : string -> option J)
        (accepts : list J -> J -> bool)
        (lines : list string) (ds : list J) (db : database J)
        (batch_size : nat) :
  (forall st d, accepts st d = true) ->
  decode_all loads (payload lines) = Some ds ->
  let five := ["area_1"; "timestamp_1"; "traffic_count_1"; "noise_db_1";
               "pm25_1"]%string in
  let r := mongo_setup.setup_mongo J loads accepts (Some lines)
             batch_size db in
  snd r = Completed (List.length ds)
  /\ db_docs (fst r) = ds
  /\ db_indexes (fst r) = five
  /\ db_indexes (append_city_data.ensure_indexes J (fst r))
     = five ++ ["city_1"%string]
  /\ (forall file bs bs' db',
        db_calls db' = db_calls db ->
        mongo_setup.setup_mongo J loads accepts file bs' db'
        = mongo_setup.setup_mongo J loads accepts file bs db)
  /\ mongo_setup.main J loads accepts None db
     = (db, Uncaught FileNotFoundError)
  /\ mongo_setup.setup_mongo J loads accepts None batch_size db
     = (mk_database [] [] (db_calls db), Uncaught FileNotFoundError).
Proof.
  intros Hall Hdec five r.
  destruct (flush_batch_loop_docs J accepts ds [] 0%nat (drop db))
    as [Hdocs [Hidx Hsnd]].
  simpl app in Hdocs, Hsnd. simpl Nat.add in Hsnd.
  rewrite (insert_ordered_accepting accepts ds _ Hall) in Hdocs, Hsnd.
  simpl in Hdocs, Hsnd, Hidx.
  assert (Hr : exists db1,
            r = (create_index "pm25"
                   (create_index "noise_db"
                      (create_index "traffic_count"
                         (create_index "timestamp"
                            (create_index "area" db1)))),
                 Completed (List.length ds))
            /\ db_docs db1 = ds /\ db_indexes db1 = []).
  { unfold r, mongo_setup.setup_mongo.
    rewrite (load_in_batches_decoded J loads accepts lines ds (drop db) Hdec).
    destruct (flush accepts (batch_loop accepts ds [] 0 (drop db)))
      as [db1 o].
    simpl in Hdocs, Hsnd, Hidx. subst o. exists db1. now repeat split. }
  destruct Hr as [[docs1 idx1 calls1] [Er [Hd Hi]]].
  simpl in Hd, Hi. subst docs1 idx1.
  rewrite Er. cbn [fst snd].
  split; [reflexivity|]. split; [reflexivity|].
  split; [reflexivity|]. split; [reflexivity|].
  split; [|split; reflexivity].
  intros file bs bs' db' Hcalls.
  unfold mongo_setup.setup_mongo, drop. now rewrite Hcalls.
Qed.

Lemma X16_setup_mongo_replaces_the_collection_witness :
  (forall (st : list nat) (d : nat), (fun _ _ => true) st d = true)
  /\ decode_all (fun l => Some (String.length l)) (payload ["ab"; "c"]%string)
     = Some [2; 1]%nat
  /\ db_docs (fst (mongo_setup.setup_mongo nat
                     (fun l => Some (String.length l)) (fun _ _ => true)
                     (Some ["ab"; "c"]%string) 5000
                     (mk_database [7; 8]%nat ["city_1"%string] [])))
     = [2; 1]%nat.
Proof.
  split; [reflexivity|]. split; [reflexivity|].
  apply (X16_setup_mongo_replaces_the_collection nat
           (fun l => Some (String.length l)) (fun _ _ => true)
           ["ab"; "c"]%string [2; 1]%nat
           (mk_database [7; 8]%nat ["city_1"%string] []) 5000).
  - reflexivity.
  - reflexivity.
Defined.
